(** * Keypoint job board: the search, ranking and pagination routes

    A shallow embedding of [routes/jobs.js] (with [config/database.js] and
    the part of [middleware/auth.js] the routes read) and the properties
    of the listing, advanced-search and trending endpoints.

    The routes assemble a T-SQL statement and hand it to [executeQuery].
    The statement is kept here as a small syntax tree with the bound
    parameters in place, and the storage engine is the evaluator of that
    tree over the tables: three-valued conditions, [LIKE], [ORDER BY],
    [COUNT( * ) OVER()], [OFFSET]/[FETCH] and [TOP]. *)

From Stdlib Require Import List String Ascii Bool ZArith QArith Qround Lia.
From Stdlib Require Import Btauto.
From Stdlib Require Import Sorting.Sorted OrderedTypeEx.
Import ListNotations.

Local Open Scope string_scope.
Local Open Scope Z_scope.

(** ** The storage engine *)

Module Sql.

(** A column value: [NULL], a number (integers, decimals and instants in
    seconds all compare as numbers) or text. *)
Inductive value : Type :=
| VNull
| VNum (q : Q)
| VText (s : string).

(** SQL truth values: [None] is UNKNOWN. *)
Definition tv : Type := option bool.

Definition tv_or (a b : tv) : tv :=
  match a, b with
  | Some true, _ | _, Some true => Some true
  | Some false, Some false => Some false
  | _, _ => None
  end.

Definition tv_and (a b : tv) : tv :=
  match a, b with
  | Some false, _ | _, Some false => Some false
  | Some true, Some true => Some true
  | _, _ => None
  end.

(** A WHERE clause keeps a row only when its condition is TRUE. *)
Definition is_true (t : tv) : bool :=
  match t with Some true => true | _ => false end.

(** *** Collation *)

(** Modelled from the spec: the collation of the text columns, which the
    schema (not under src/) fixes; the spec says text matching is
    case-insensitive.  Letters are folded to lower case before they are
    compared. *)
Definition lower (c : ascii) : ascii :=
  let n := N_of_ascii c in
  if ((65 <=? n) && (n <=? 90))%N then ascii_of_N (n + 32) else c.

Definition ci_eqb (a b : ascii) : bool := Ascii.eqb (lower a) (lower b).

Fixpoint lower_string (s : string) : string :=
  match s with
  | EmptyString => EmptyString
  | String c s' => String (lower c) (lower_string s')
  end.

(** *** LIKE

    [%] stands for any run of characters and [_] for any one character;
    every other pattern character matches itself up to the collation.
    The bracket classes of T-SQL are left out: a pattern with a bracket is
    outside this model. *)
Fixpoint like_chars (p s : list ascii) {struct p} : bool :=
  match p with
  | [] => match s with [] => true | _ :: _ => false end
  | c :: p' =>
      if Ascii.eqb c "%" then
        (fix skip (t : list ascii) : bool :=
           like_chars p' t
           || match t with [] => false | _ :: t' => skip t' end) s
      else
        match s with
        | [] => false
        | d :: s' => (Ascii.eqb c "_" || ci_eqb c d) && like_chars p' s'
        end
  end.

Definition like (text pattern : string) : bool :=
  like_chars (list_ascii_of_string pattern) (list_ascii_of_string text).

(** The spec's reading of the text filters -- [k] occurs in [t] as a
    substring, letter case aside -- written without [LIKE], to compare
    the two. *)
Fixpoint starts_with (k t : list ascii) : bool :=
  match k, t with
  | [], _ => true
  | _ :: _, [] => false
  | c :: k', d :: t' => ci_eqb c d && starts_with k' t'
  end.

Fixpoint occurs_in_chars (k t : list ascii) : bool :=
  starts_with k t
  || match t with [] => false | _ :: t' => occurs_in_chars k t' end.

Definition occurs_in (k t : string) : bool :=
  occurs_in_chars (list_ascii_of_string k) (list_ascii_of_string t).

(** The characters [LIKE] does not take literally. *)
Definition is_wildcard (c : ascii) : bool :=
  Ascii.eqb c "%" || Ascii.eqb c "_" || Ascii.eqb c "[".

Definition literal (s : string) : bool :=
  forallb (fun c => negb (is_wildcard c)) (list_ascii_of_string s).

(** *** Comparison of values, as ORDER BY and the comparison operators use
    it.  NULL sorts lowest. *)
Definition vcmp (a b : value) : comparison :=
  match a, b with
  | VNull, VNull => Eq
  | VNull, _ => Lt
  | _, VNull => Gt
  | VNum x, VNum y => (x ?= y)%Q
  | VNum _, VText _ => Lt
  | VText _, VNum _ => Gt
  | VText x, VText y => String.compare (lower_string x) (lower_string y)
  end.

(** A comparison operator is UNKNOWN as soon as one side is NULL. *)
Definition tv_cmp (ok : comparison -> bool) (a b : value) : tv :=
  match a, b with
  | VNull, _ | _, VNull => None
  | _, _ => Some (ok (vcmp a b))
  end.

Definition is_ge (c : comparison) : bool :=
  match c with Lt => false | _ => true end.
Definition is_le (c : comparison) : bool :=
  match c with Gt => false | _ => true end.
Definition is_eq (c : comparison) : bool :=
  match c with Eq => true | _ => false end.

Fixpoint tv_in (a : value) (vs : list value) : tv :=
  match vs with
  | [] => Some false
  | v :: vs' => tv_or (tv_cmp is_eq a v) (tv_in a vs')
  end.

Definition tv_like (a : value) (pattern : string) : tv :=
  match a with
  | VText s => Some (like s pattern)
  | _ => None
  end.

(** Arithmetic in a sort expression; NULL (or text) in, NULL out. *)
Definition vscale (a : value) (k : Q) : value :=
  match a with VNum x => VNum (x * k) | _ => VNull end.
Definition vadd (a b : value) : value :=
  match a, b with VNum x, VNum y => VNum (x + y) | _, _ => VNull end.

Inductive direction : Type := ASC | DESC.

End Sql.

(** ** The tables the routes read *)

Module Schema.

(** A row of [Jobs].  Instants ([posted_date], [application_deadline]) are
    seconds on the engine's clock; a DATE is the instant of its midnight.
    The nullable columns are the ones [POST /jobs] of the company routes
    leaves optional. *)
Record Job : Type := {
  job_id : Z;
  company_id : Z;
  title : string;
  description : string;
  requirements : option string;
  location : string;
  remote_work_option : string;
  salary_min : option Q;
  salary_max : option Q;
  job_type : string;
  experience_level : string;
  industry : option string;
  posted_date : Z;
  application_deadline : option Z;
  status : string;
  views_count : Z;
  current_applications : Z
}.

Record Company : Type := {
  c_company_id : Z;
  company_name : string;
  company_size : option string
}.

(** [Applications] and [SavedJobs], as far as the routes look at them. *)
Record Application : Type := { a_job_id : Z; a_jobseeker_id : Z }.
Record SavedJob : Type := { s_job_id : Z; s_jobseeker_id : Z }.

Record Db : Type := {
  Jobs : list Job;
  Companies : list Company;
  Applications : list Application;
  SavedJobs : list SavedJob
}.

(** [FROM Jobs j INNER JOIN Companies c ON j.company_id = c.company_id] *)
Definition joined : Type := (Job * Company)%type.

Definition inner_join (db : Db) : list joined :=
  flat_map
    (fun j =>
       map (fun c => (j, c))
           (filter (fun c => company_id j =? c_company_id c) (Companies db)))
    (Jobs db).

(** The columns the statements of [routes/jobs.js] name. *)
Inductive column : Type :=
| j_job_id | j_title | j_description | j_requirements | j_location
| j_remote_work_option | j_salary_min | j_salary_max | j_job_type
| j_experience_level | j_industry | j_posted_date | j_application_deadline
| j_status | j_views_count | j_current_applications
| c_company_name | c_company_size.

Definition num (z : Z) : Sql.value := Sql.VNum (inject_Z z).

Definition nullable {A : Type} (f : A -> Sql.value) (o : option A) : Sql.value :=
  match o with Some a => f a | None => Sql.VNull end.

Definition column_value (r : joined) (c : column) : Sql.value :=
  let (j, co) := r in
  match c with
  | j_job_id => num (job_id j)
  | j_title => Sql.VText (title j)
  | j_description => Sql.VText (description j)
  | j_requirements => nullable Sql.VText (requirements j)
  | j_location => Sql.VText (location j)
  | j_remote_work_option => Sql.VText (remote_work_option j)
  | j_salary_min => nullable Sql.VNum (salary_min j)
  | j_salary_max => nullable Sql.VNum (salary_max j)
  | j_job_type => Sql.VText (job_type j)
  | j_experience_level => Sql.VText (experience_level j)
  | j_industry => nullable Sql.VText (industry j)
  | j_posted_date => num (posted_date j)
  | j_application_deadline => nullable num (application_deadline j)
  | j_status => Sql.VText (status j)
  | j_views_count => num (views_count j)
  | j_current_applications => num (current_applications j)
  | c_company_name => Sql.VText (company_name co)
  | c_company_size => nullable Sql.VText (company_size co)
  end.

End Schema.

(** ** Statements and their evaluation *)

Module Query.
Import Sql Schema.

Definition day : Z := 86400.

Inductive term : Type :=
| Col (c : column)                 (* j.title, c.company_name, ... *)
| Param (v : value)                (* a bound parameter, [@name] *)
| Str (s : string)                 (* a quoted literal *)
| GetDateAsDate                    (* CAST(GETDATE() AS DATE) *)
| DateAddDay (n : Z)               (* DATEADD(day, n, GETDATE()) *)
| Times (t : term) (k : Q)         (* t * k *)
| Plus (a b : term).               (* a + b *)

Inductive cond : Type :=
| Equals (a b : term)              (* a = b *)
| GreaterEq (a b : term)           (* a >= b *)
| LessEq (a b : term)              (* a <= b *)
| Like (a : term) (pattern : string)   (* a LIKE @p *)
| IsIn (a : term) (vs : list value)    (* a IN (...) *)
| IsNull (a : term)                (* a IS NULL *)
| Or (x y : cond).                 (* x OR y *)

Inductive order_expr : Type :=
| By (t : term)
| ByCase (whens : list (cond * Z)) (otherwise : Z).
                                   (* CASE WHEN .. THEN n .. ELSE m END *)

Definition order_by : Type := list (order_expr * direction).

Fixpoint eval_term (now : Z) (r : joined) (t : term) : value :=
  match t with
  | Col c => column_value r c
  | Param v => v
  | Str s => VText s
  | GetDateAsDate => num (day * (now / day))
  | DateAddDay n => num (now + n * day)
  | Times t' k => vscale (eval_term now r t') k
  | Plus a b => vadd (eval_term now r a) (eval_term now r b)
  end.

Fixpoint eval_cond (now : Z) (r : joined) (c : cond) : tv :=
  match c with
  | Equals a b => tv_cmp is_eq (eval_term now r a) (eval_term now r b)
  | GreaterEq a b => tv_cmp is_ge (eval_term now r a) (eval_term now r b)
  | LessEq a b => tv_cmp is_le (eval_term now r a) (eval_term now r b)
  | Like a p => tv_like (eval_term now r a) p
  | IsIn a vs => tv_in (eval_term now r a) vs
  | IsNull a =>
      match eval_term now r a with VNull => Some true | _ => Some false end
  | Or x y => tv_or (eval_cond now r x) (eval_cond now r y)
  end.

(** The WHERE clause is the conjunction of the clauses the route appended
    with [AND]. *)
Definition eval_where (now : Z) (clauses : list cond) (r : joined) : tv :=
  fold_left (fun acc c => tv_and acc (eval_cond now r c)) clauses (Some true).

Definition matches (now : Z) (clauses : list cond) (r : joined) : bool :=
  is_true (eval_where now clauses r).

Fixpoint eval_case (now : Z) (r : joined) (whens : list (cond * Z))
    (otherwise : Z) : Z :=
  match whens with
  | [] => otherwise
  | (c, n) :: rest =>
      if is_true (eval_cond now r c) then n
      else eval_case now r rest otherwise
  end.

Definition eval_order (now : Z) (r : joined) (e : order_expr) : value :=
  match e with
  | By t => eval_term now r t
  | ByCase whens otherwise => num (eval_case now r whens otherwise)
  end.

Definition directed (d : direction) (c : comparison) : comparison :=
  match d with ASC => c | DESC => CompOpp c end.

(** Lexicographic comparison of two rows along an ORDER BY list. *)
Fixpoint cmp_keys (now : Z) (keys : order_by) (a b : joined) : comparison :=
  match keys with
  | [] => Eq
  | (e, d) :: rest =>
      match directed d (vcmp (eval_order now a e) (eval_order now b e)) with
      | Eq => cmp_keys now rest a b
      | c => c
      end
  end.

(** The engine's sort.  ORDER BY leaves the order of rows with equal keys
    to the engine; here they keep the order of the join. *)
Fixpoint insert {A : Type} (cmp : A -> A -> comparison) (x : A)
    (l : list A) : list A :=
  match l with
  | [] => [x]
  | y :: l' =>
      match cmp x y with
      | Gt => y :: insert cmp x l'
      | _ => x :: l
      end
  end.

Definition sort {A : Type} (cmp : A -> A -> comparison) (l : list A)
    : list A :=
  fold_right (insert cmp) [] l.

(** [a] is not placed after [b] by the comparison. *)
Definition not_after {A : Type} (cmp : A -> A -> comparison) (a b : A)
    : Prop :=
  cmp a b <> Gt.

(** What the comparisons of ORDER BY have in common: a total preorder
    given as a three-way comparison. *)
Class Ranking {A : Type} (cmp : A -> A -> comparison) : Prop := {
  rank_flip : forall a b, cmp b a = CompOpp (cmp a b);
  rank_lt_trans : forall a b c, cmp a b = Lt -> cmp b c = Lt -> cmp a c = Lt;
  rank_eq_l : forall a b c, cmp a b = Eq -> cmp a c = cmp b c
}.

Inductive paging : Type :=
| OffsetFetch (offset fetch : Z)   (* OFFSET @offset ROWS FETCH NEXT @limit ROWS ONLY *)
| Top (n : Z).                     (* SELECT TOP (@limit) *)

(** The SELECT statements of the listing, search and trending routes. *)
Record select : Type := {
  count_over : bool;               (* COUNT( * ) OVER() as total_count *)
  user_fields : option (option Z); (* has_applied, is_saved for @jobseekerId *)
  where_ : list cond;
  order_ : order_by;
  paging_ : paging
}.

(** A row of the record set: the columns of the select list are read off
    [job] and [company]; [total_count] and the two user columns are there
    when the statement selects them. *)
Record row : Type := {
  job : Job;
  company : Company;
  total_count : option Z;
  has_applied : option Z;
  is_saved : option Z
}.

(** The joined row a row of the record set was read from. *)
Definition source (r : row) : joined := (job r, company r).

(** [(SELECT COUNT( * ) FROM Applications WHERE job_id = j.job_id AND
    jobseeker_id = @jobseekerId)]; a NULL parameter matches no row. *)
Definition count_applications (db : Db) (jid : Z) (seeker : option Z) : Z :=
  match seeker with
  | None => 0
  | Some s =>
      Z.of_nat (List.length (filter
        (fun a => (a_job_id a =? jid) && (a_jobseeker_id a =? s))
        (Applications db)))
  end.

Definition count_saved (db : Db) (jid : Z) (seeker : option Z) : Z :=
  match seeker with
  | None => 0
  | Some s =>
      Z.of_nat (List.length (filter
        (fun a => (s_job_id a =? jid) && (s_jobseeker_id a =? s))
        (SavedJobs db)))
  end.

(** The rows the WHERE clause keeps, in ORDER BY order, before the window
    is cut. *)
Definition matching (now : Z) (db : Db) (s : select) : list joined :=
  filter (matches now (where_ s)) (inner_join db).

Definition ordered (now : Z) (db : Db) (s : select) : list joined :=
  sort (cmp_keys now (order_ s)) (matching now db s).

Definition project (db : Db) (s : select) (total : Z) (r : joined) : row :=
  {| job := fst r;
     company := snd r;
     total_count := if count_over s then Some total else None;
     has_applied :=
       option_map (count_applications db (job_id (fst r))) (user_fields s);
     is_saved :=
       option_map (count_saved db (job_id (fst r))) (user_fields s) |}.

(** The window.  The engine refuses a negative OFFSET, a FETCH below one
    row and a negative TOP. *)
Definition cut {A : Type} (p : paging) (l : list A) : option (list A) :=
  match p with
  | OffsetFetch offset fetch =>
      if (offset <? 0) || (fetch <? 1) then None
      else Some (firstn (Z.to_nat fetch) (skipn (Z.to_nat offset) l))
  | Top n =>
      if n <? 0 then None else Some (firstn (Z.to_nat n) l)
  end.

Definition run_select (now : Z) (db : Db) (s : select) : option (list row) :=
  let total := Z.of_nat (List.length (matching now db s)) in
  option_map (map (project db s total)) (cut (paging_ s) (ordered now db s)).

Inductive statement : Type :=
| Select (s : select)
| UpdateViews (ids : list Z).
     (* UPDATE Jobs SET views_count = views_count + 1 WHERE job_id IN (ids) *)

Definition bump_views (ids : list Z) (j : Job) : Job :=
  if existsb (Z.eqb (job_id j)) ids then
    {| job_id := job_id j; company_id := company_id j; title := title j;
       description := description j; requirements := requirements j;
       location := location j; remote_work_option := remote_work_option j;
       salary_min := salary_min j; salary_max := salary_max j;
       job_type := job_type j; experience_level := experience_level j;
       industry := industry j; posted_date := posted_date j;
       application_deadline := application_deadline j; status := status j;
       views_count := views_count j + 1;
       current_applications := current_applications j |}
  else j.

Definition run_update (ids : list Z) (db : Db) : Db :=
  {| Jobs := map (bump_views ids) (Jobs db);
     Companies := Companies db;
     Applications := Applications db;
     SavedJobs := SavedJobs db |}.

End Query.

(** ** [config/database.js]: the connection and [executeQuery] *)

Module Database.
Import Sql Schema Query.

(** The result of awaiting a promise. *)
Inductive settled (A : Type) : Type :=
| Resolved (a : A)
| Rejected.
Arguments Resolved {A} a.
Arguments Rejected {A}.

(** What a request runs against: the tables, the engine's clock
    ([GETDATE()]), for each coming call of [request.query] whether it
    throws (calls past the end of the list are served), the console, the
    module-level [poolPromise] (unset, or the settled promise of
    [new sql.ConnectionPool(dbConfig).connect()]), and what the server
    answers when a connection is opened. *)
Record World : Type := {
  db : Db;
  clock : Z;
  faults : list bool;
  console : list string;
  pool : option (settled unit);
  reachable : bool
}.

Definition log (line : string) (w : World) : World :=
  {| db := db w; clock := clock w; faults := faults w;
     console := console w ++ [line]; pool := pool w;
     reachable := reachable w |}.

Definition next_call (w : World) : bool * World :=
  match faults w with
  | [] => (false, w)
  | f :: rest =>
      (f, {| db := db w; clock := clock w; faults := rest;
             console := console w; pool := pool w;
             reachable := reachable w |})
  end.

Definition with_db (d : Db) (w : World) : World :=
  {| db := d; clock := clock w; faults := faults w; console := console w;
     pool := pool w; reachable := reachable w |}.

Definition with_faults (fs : list bool) (w : World) : World :=
  {| db := db w; clock := clock w; faults := fs; console := console w;
     pool := pool w; reachable := reachable w |}.

Definition with_pool (p : option (settled unit)) (w : World) : World :=
  {| db := db w; clock := clock w; faults := faults w; console := console w;
     pool := p; reachable := reachable w |}.

(** [connectDB]: [connect()] is called when [poolPromise] is unset. *)
Definition connectDB (w : World) : settled unit * World :=
  let w1 :=
    match pool w with
    | None =>
        with_pool (Some (if reachable w then Resolved tt else Rejected)) w
    | Some _ => w
    end in
  match pool w1 with
  | Some (Resolved p) =>
      (Resolved p, log "Connected to SQL Server database" w1)
  | _ => (Rejected, log "Database connection failed:" w1)
  end.

(** [getDB] *)
Definition getDB (w : World) : settled unit * World :=
  let (connected, w1) :=
    match pool w with
    | None => connectDB w
    | Some _ => (Resolved tt, w)
    end in
  match connected with
  | Rejected => (Rejected, log "Failed to get database connection:" w1)
  | Resolved _ =>
      match pool w1 with
      | Some (Resolved p) => (Resolved p, w1)
      | _ => (Rejected, log "Failed to get database connection:" w1)
      end
  end.

(** [executeQuery]: get the pool, run the statement on a request of it;
    on any error log ['Query execution failed:'] and rethrow. *)
Definition executeQuery (q : statement) (w : World)
    : settled (list row) * World :=
  match getDB w with
  | (Rejected, w0) => (Rejected, log "Query execution failed:" w0)
  | (Resolved _, w0) =>
      let (failed, w1) := next_call w0 in
      if failed then (Rejected, log "Query execution failed:" w1)
      else
        match q with
        | Select s =>
            match run_select (clock w1) (db w1) s with
            | Some recordset => (Resolved recordset, w1)
            | None => (Rejected, log "Query execution failed:" w1)
            end
        | UpdateViews ids =>
            (Resolved [], with_db (run_update ids (db w1)) w1)
        end
  end.

(** Does [getDB] hand out a pool?  A resolved [poolPromise] does, a
    rejected one never again, and an unset one when the server answers. *)
Definition up (w : World) : bool :=
  match pool w with
  | Some (Resolved _) => true
  | Some Rejected => false
  | None => reachable w
  end.

(** The lines [getDB] writes: none on a settled pool that resolved. *)
Definition getDB_lines (w : World) : list string :=
  match pool w with
  | Some (Resolved _) => []
  | Some Rejected => ["Failed to get database connection:"]
  | None =>
      if reachable w then ["Connected to SQL Server database"]
      else ["Database connection failed:";
            "Failed to get database connection:"]
  end.

(** The world after [getDB]. *)
Definition opened (w : World) : World :=
  {| db := db w; clock := clock w; faults := faults w;
     console := console w ++ getDB_lines w;
     pool := Some (if up w then Resolved tt else Rejected);
     reachable := reachable w |}.

(** The world a served call leaves behind. *)
Definition answered (w : World) : World :=
  {| db := db w; clock := clock w; faults := tl (faults w);
     console := console w ++ getDB_lines w;
     pool := Some (Resolved tt);
     reachable := reachable w |}.

(** The backend serves the next call of [executeQuery]: the pool is
    there and the request does not throw. *)
Definition served (w : World) : Prop :=
  up w = true /\ hd false (faults w) = false.

End Database.

(** ** [middleware/auth.js]: what [optionalAuth] leaves in [req.user] *)

Module Auth.

Record User : Type := {
  userId : Z;
  email : string;
  userType : string;
  companyId : option Z;
  jobseekerId : option Z
}.

End Auth.

(** ** [routes/jobs.js] *)

Module Jobs.
Import Sql Schema Query Database Auth.

(** *** Requests and responses *)

(** [req.query] of [GET /] as the handler uses it once the validation
    chain has let it through: texts are trimmed, integers and numerics
    are read as numbers.  [RawQuery] below is the query string before the
    chain, [read_query] the passage from one to the other. *)
Record ListQuery : Type := {
  q_page : option Z;
  q_limit : option Z;
  q_search : option string;
  q_location : option string;
  q_job_type : option string;
  q_experience_level : option string;
  q_remote_work_option : option string;
  q_salary_min : option Q;
  q_salary_max : option Q;
  q_industry : option string;
  q_sort_by : option string;
  q_sort_order : option string
}.

Record SalaryRange : Type := { min : option Q; max : option Q }.

(** The value of [remote_only] in the JSON body: a boolean, a number or a
    text.  (The other JSON values -- null, arrays, objects -- are not
    values of this type.) *)
Inductive Flag : Type :=
| FBool (b : bool)
| FNumber (n : Q)
| FText (s : string).

(** [req.body] of [POST /search].  [b_sort_order] stands for a
    [sort_order] key a client may send along: the handler never reads
    it. *)
Record SearchBody : Type := {
  b_keywords : option string;
  b_location : option string;
  b_radius : option Z;
  b_job_types : option (list string);
  b_experience_levels : option (list string);
  b_industries : option (list string);
  b_salary_range : option SalaryRange;
  b_remote_only : option Flag;
  b_posted_within_days : option Z;
  b_company_size : option (list string);
  b_sort_by : option string;
  b_sort_order : option string;
  b_page : option Z;
  b_limit : option Z
}.

Record Pagination : Type := {
  page : Z;
  limit : Z;
  total : Z;
  totalPages : Z
}.

Inductive Data : Type :=
| Listing (jobs : list row) (pagination : Pagination) (filters : ListQuery)
| Search (jobs : list row) (pagination : Pagination)
         (search_criteria : SearchBody)
| Trending (jobs : list row).

Inductive Response : Type :=
| Success (data : Data)               (* res.json({ success: true, data }) *)
| ValidationFailed (errors : list string)       (* res.status(400) *)
| Failed (message : string).                    (* res.status(500) *)

Definition http_status (r : Response) : Z :=
  match r with
  | Success _ => 200
  | ValidationFailed _ => 400
  | Failed _ => 500
  end.

Definition jobs_of (r : Response) : option (list row) :=
  match r with
  | Success (Listing js _ _) | Success (Search js _ _)
  | Success (Trending js) => Some js
  | _ => None
  end.

Definition pagination_of (r : Response) : option Pagination :=
  match r with
  | Success (Listing _ p _) | Success (Search _ p _) => Some p
  | _ => None
  end.

(** *** JavaScript helpers *)

Definition default {A : Type} (d : A) (o : option A) : A :=
  match o with Some a => a | None => d end.

(** [if (s)] on a string that may be undefined. *)
Definition truthy_string (o : option string) : option string :=
  match o with
  | Some EmptyString => None
  | other => other
  end.

(** [if (n)] on a number that may be undefined. *)
Definition truthy_number (o : option Q) : option Q :=
  match o with
  | Some q => if Qeq_bool q 0 then None else Some q
  | None => None
  end.

(** [if (a && a.length > 0)] *)
Definition non_empty (o : option (list string)) : option (list string) :=
  match o with
  | Some [] => None
  | other => other
  end.

(** [`%${s}%`] *)
Definition contains (s : string) : string := "%" ++ s ++ "%".

(** [Math.ceil(totalCount / limit)] *)
Definition ceil_div (totalCount limit : Z) : Z :=
  Qceiling (inject_Z totalCount / inject_Z limit).

(** *** The validation chains *)

Definition isIn (allowed : list string) (o : option string)
    (msg : string) : list string :=
  match o with
  | None => []
  | Some s => if existsb (String.eqb s) allowed then [] else [msg]
  end.

Definition isInt (lo : Z) (hi : option Z) (o : option Z)
    (msg : string) : list string :=
  match o with
  | None => []
  | Some n =>
      if (lo <=? n) && match hi with Some h => n <=? h | None => true end
      then [] else [msg]
  end.

(** [isBoolean()]: the value, written as a text, is one of ['true'],
    ['false'], ['1'], ['0']; a boolean is written ['true'] or ['false'],
    the numbers 1 and 0 are written ['1'] and ['0']. *)
Definition isBoolean (o : option Flag) (msg : string) : list string :=
  match o with
  | None | Some (FBool _) => []
  | Some (FNumber n) =>
      if Qeq_bool n 0 || Qeq_bool n 1 then [] else [msg]
  | Some (FText s) =>
      if existsb (String.eqb s) ["true"; "false"; "1"; "0"] then []
      else [msg]
  end.

(** *** The query string of [GET /] *)

(** [req.query] as Express hands it to the validation chain: every field
    is a text, or absent. *)
Record RawQuery : Type := {
  raw_page : option string;
  raw_limit : option string;
  raw_search : option string;
  raw_location : option string;
  raw_job_type : option string;
  raw_experience_level : option string;
  raw_remote_work_option : option string;
  raw_salary_min : option string;
  raw_salary_max : option string;
  raw_industry : option string;
  raw_sort_by : option string;
  raw_sort_order : option string
}.

Definition is_digit (c : ascii) : bool :=
  let n := N_of_ascii c in ((48 <=? n) && (n <=? 57))%N.

(** The number a text of decimal digits stands for, after [acc]; nothing
    when another character occurs in it. *)
Fixpoint digits (acc : Z) (s : string) : option Z :=
  match s with
  | EmptyString => Some acc
  | String c s' =>
      if is_digit c
      then digits (10 * acc + (Z.of_N (N_of_ascii c) - 48)) s'
      else None
  end.

(** A leading [-] or [+], and the rest. *)
Definition signed (s : string) : bool * string :=
  match s with
  | String "-" s' => (true, s')
  | String "+" s' => (false, s')
  | _ => (false, s)
  end.

(** The text before the first [.], and the text after it when there is
    one. *)
Fixpoint split_dot (s : string) : string * option string :=
  match s with
  | EmptyString => (EmptyString, None)
  | String "." s' => (EmptyString, Some s')
  | String c s' =>
      let (whole, fraction) := split_dot s' in (String c whole, fraction)
  end.

(** validator's [isInt]: the text matches [/^[-+]?[0-9]+$/]; the result
    is the number the text is then used as. *)
Definition int_of_text (s : string) : option Z :=
  let (negative, body) := signed s in
  match body with
  | EmptyString => None
  | _ => option_map (fun n => if negative then - n else n) (digits 0 body)
  end.

(** validator's [isNumeric]: the text matches
    [/^[+-]?([0-9]*[.])?[0-9]+$/]; the result is the number the text
    denotes, which is what [parseFloat] reads (here taken exactly). *)
Definition numeric_of_text (s : string) : option Q :=
  let (negative, body) := signed s in
  let sign (x : Q) : Q := if negative then (- x)%Q else x in
  match split_dot body with
  | (EmptyString, None) => None
  | (whole, None) => option_map (fun n => sign (inject_Z n)) (digits 0 whole)
  | (_, Some EmptyString) => None
  | (whole, Some fraction) =>
      match digits 0 whole, digits 0 fraction with
      | Some a, Some b =>
          Some (sign (inject_Z a
                      + inject_Z b
                        / inject_Z (10 ^ Z.of_nat (String.length fraction)))%Q)
      | _, _ => None
      end
  end.

(** [.isInt({ min, max })] on a field of the query string. *)
Definition int_field (lo : Z) (hi : option Z) (o : option string)
    (msg : string) : list string :=
  match o with
  | None => []
  | Some s =>
      match int_of_text s with
      | Some n => isInt lo hi (Some n) msg
      | None => [msg]
      end
  end.

(** [.isNumeric()] on a field of the query string. *)
Definition numeric_field (o : option string) (msg : string) : list string :=
  match o with
  | None => []
  | Some s =>
      match numeric_of_text s with
      | Some _ => []
      | None => [msg]
      end
  end.

(** [.trim()]: the blanks of ASCII are taken off both ends. *)
Definition is_blank (c : ascii) : bool :=
  let n := N_of_ascii c in (((9 <=? n) && (n <=? 13)) || (n =? 32))%N.

Fixpoint ltrim (l : list ascii) : list ascii :=
  match l with
  | c :: l' => if is_blank c then ltrim l' else l
  | [] => []
  end.

Definition trim (s : string) : string :=
  string_of_list_ascii (rev (ltrim (rev (ltrim (list_ascii_of_string s))))).

(** The validation chain of [GET /], in the order its errors are
    reported; [search], [location] and [industry] are only trimmed. *)
Definition validate_query (r : RawQuery) : list string :=
  int_field 1 None (raw_page r) "Page must be a positive integer"
  ++ int_field 1 (Some 50) (raw_limit r) "Limit must be between 1 and 50"
  ++ isIn ["Full-time"; "Part-time"; "Contract"; "Internship"; "Freelance"]
       (raw_job_type r) "Invalid value"
  ++ isIn ["Entry-level"; "Mid-level"; "Senior-level"; "Executive"]
       (raw_experience_level r) "Invalid value"
  ++ isIn ["Yes"; "No"; "Hybrid"] (raw_remote_work_option r) "Invalid value"
  ++ numeric_field (raw_salary_min r) "Invalid value"
  ++ numeric_field (raw_salary_max r) "Invalid value"
  ++ isIn ["posted_date"; "salary_min"; "title"; "company_name"]
       (raw_sort_by r) "Invalid value"
  ++ isIn ["asc"; "desc"] (raw_sort_order r) "Invalid value".

(** The fields as the handler uses them once the chain has passed. *)
Definition read_query (r : RawQuery) : ListQuery :=
  {| q_page := match raw_page r with
               | Some s => int_of_text s
               | None => None
               end;
     q_limit := match raw_limit r with
                | Some s => int_of_text s
                | None => None
                end;
     q_search := option_map trim (raw_search r);
     q_location := option_map trim (raw_location r);
     q_job_type := raw_job_type r;
     q_experience_level := raw_experience_level r;
     q_remote_work_option := raw_remote_work_option r;
     q_salary_min := match raw_salary_min r with
                     | Some s => numeric_of_text s
                     | None => None
                     end;
     q_salary_max := match raw_salary_max r with
                     | Some s => numeric_of_text s
                     | None => None
                     end;
     q_industry := option_map trim (raw_industry r);
     q_sort_by := raw_sort_by r;
     q_sort_order := raw_sort_order r |}.

(** What the chain asks of the fields once they are read as numbers. *)
Definition validate_list (q : ListQuery) : list string :=
  isInt 1 None (q_page q) "Page must be a positive integer"
  ++ isInt 1 (Some 50) (q_limit q) "Limit must be between 1 and 50"
  ++ isIn ["Full-time"; "Part-time"; "Contract"; "Internship"; "Freelance"]
       (q_job_type q) "Invalid value"
  ++ isIn ["Entry-level"; "Mid-level"; "Senior-level"; "Executive"]
       (q_experience_level q) "Invalid value"
  ++ isIn ["Yes"; "No"; "Hybrid"] (q_remote_work_option q) "Invalid value"
  ++ isIn ["posted_date"; "salary_min"; "title"; "company_name"]
       (q_sort_by q) "Invalid value"
  ++ isIn ["asc"; "desc"] (q_sort_order q) "Invalid value".

Definition validate_search (b : SearchBody) : list string :=
  isInt 1 (Some 100) (b_radius b) "Radius must be between 1 and 100 km"
  ++ isBoolean (b_remote_only b) "Invalid value"
  ++ isInt 1 (Some 365) (b_posted_within_days b) "Invalid value"
  ++ isIn ["relevance"; "posted_date"; "salary"; "company_name"]
       (b_sort_by b) "Invalid value"
  ++ isInt 1 None (b_page b) "Invalid value"
  ++ isInt 1 (Some 50) (b_limit b) "Invalid value".

(** *** Pieces of the statements *)

Definition status_active : cond := Equals (Col j_status) (Str "active").

(** [(j.application_deadline IS NULL OR j.application_deadline >=
    CAST(GETDATE() AS DATE))] *)
Definition deadline_open : cond :=
  Or (IsNull (Col j_application_deadline))
     (GreaterEq (Col j_application_deadline) GetDateAsDate).

(** [(j.salary_min >= @salaryMin OR j.salary_min IS NULL)] *)
Definition salary_min_clause (m : Q) : cond :=
  Or (GreaterEq (Col j_salary_min) (Param (VNum m))) (IsNull (Col j_salary_min)).

(** [(j.salary_max <= @salaryMax OR j.salary_max IS NULL)] *)
Definition salary_max_clause (m : Q) : cond :=
  Or (LessEq (Col j_salary_max) (Param (VNum m))) (IsNull (Col j_salary_max)).

(** The open-range policy in the spec's words: with a bound present, the
    field meets it or is unset. *)
Definition open_ge (bound field : option Q) : bool :=
  match bound, field with
  | Some m, Some x => Qle_bool m x
  | _, _ => true
  end.

Definition open_le (bound field : option Q) : bool :=
  match bound, field with
  | Some m, Some x => Qle_bool x m
  | _, _ => true
  end.

(** One [if (x) { whereClause += ' AND ...' }]. *)
Definition when_ {A : Type} (o : option A) (f : A -> cond) : list cond :=
  match o with Some a => [f a] | None => [] end.

Definition texts (l : list string) : list value := map VText l.

(** The two sub-selects added for a job seeker. *)
Definition user_columns (user : option User) : option (option Z) :=
  match user with
  | Some u =>
      if String.eqb (userType u) "jobseeker" then Some (jobseekerId u)
      else None
  | None => None
  end.

(** [req.user && req.user.userType === 'jobseeker'] *)
Definition is_jobseeker (user : option User) : bool :=
  match user with
  | Some u => String.eqb (userType u) "jobseeker"
  | None => false
  end.

(** A row of the record set without the two user columns. *)
Definition bare (r : row) : row :=
  {| job := job r; company := company r; total_count := total_count r;
     has_applied := None; is_saved := None |}.

(** Does the row carry both user columns, or neither? *)
Definition annotated (r : row) : bool :=
  match has_applied r, is_saved r with
  | Some _, Some _ => true
  | _, _ => false
  end.

Definition unannotated (r : row) : bool :=
  match has_applied r, is_saved r with
  | None, None => true
  | _, _ => false
  end.

(** *** [GET /] *)

Definition list_keywords (s : string) : cond :=
  Or (Or (Like (Col j_title) (contains s))
         (Like (Col j_description) (contains s)))
     (Like (Col c_company_name) (contains s)).

Definition list_where (q : ListQuery) : list cond :=
  [status_active]
  ++ when_ (truthy_string (q_search q)) list_keywords
  ++ when_ (truthy_string (q_location q))
       (fun s => Like (Col j_location) (contains s))
  ++ when_ (truthy_string (q_job_type q))
       (fun s => Equals (Col j_job_type) (Param (VText s)))
  ++ when_ (truthy_string (q_experience_level q))
       (fun s => Equals (Col j_experience_level) (Param (VText s)))
  ++ when_ (truthy_string (q_remote_work_option q))
       (fun s => Equals (Col j_remote_work_option) (Param (VText s)))
  ++ when_ (q_salary_min q) salary_min_clause
  ++ when_ (q_salary_max q) salary_max_clause
  ++ when_ (truthy_string (q_industry q))
       (fun s => Like (Col j_industry) (contains s))
  ++ [deadline_open].

(** The same request without its salary bounds. *)
Definition without_salary (q : ListQuery) : ListQuery :=
  {| q_page := q_page q; q_limit := q_limit q; q_search := q_search q;
     q_location := q_location q; q_job_type := q_job_type q;
     q_experience_level := q_experience_level q;
     q_remote_work_option := q_remote_work_option q;
     q_salary_min := None; q_salary_max := None;
     q_industry := q_industry q; q_sort_by := q_sort_by q;
     q_sort_order := q_sort_order q |}.

(** [sort_order.toUpperCase()] read as a direction. *)
Definition direction_of (sort_order : string) : direction :=
  if String.eqb sort_order "asc" then ASC else DESC.

Definition list_order (sort_by sort_order : string) : order_by :=
  [ ( (if String.eqb sort_by "salary_min" then By (Col j_salary_min)
       else if String.eqb sort_by "title" then By (Col j_title)
       else if String.eqb sort_by "company_name" then By (Col c_company_name)
       else By (Col j_posted_date)),
      direction_of sort_order ) ].

Definition list_statement (user : option User) (q : ListQuery) : select :=
  let page := default 1 (q_page q) in
  let limit := default 20 (q_limit q) in
  let offset := (page - 1) * limit in
  {| count_over := true;
     user_fields := user_columns user;
     where_ := list_where q;
     order_ := list_order (default "posted_date" (q_sort_by q))
                          (default "desc" (q_sort_order q));
     paging_ := OffsetFetch offset limit |}.

(** [recordset.length > 0 ? recordset[0].total_count : 0] *)
Definition totalCount_of (recordset : list row) : Z :=
  match recordset with
  | r :: _ => default 0 (total_count r)
  | [] => 0
  end.

(** The [filters] echoed in the response: the request's fields, with the
    defaults of [sort_by] and [sort_order] filled in; [page] and [limit]
    are not among them. *)
Definition echo_list (q : ListQuery) : ListQuery :=
  {| q_page := None; q_limit := None; q_search := q_search q;
     q_location := q_location q; q_job_type := q_job_type q;
     q_experience_level := q_experience_level q;
     q_remote_work_option := q_remote_work_option q;
     q_salary_min := q_salary_min q; q_salary_max := q_salary_max q;
     q_industry := q_industry q;
     q_sort_by := Some (default "posted_date" (q_sort_by q));
     q_sort_order := Some (default "desc" (q_sort_order q)) |}.

(** [pagination: { page: parseInt(page), limit: parseInt(limit),
    total: totalCount, totalPages: Math.ceil(totalCount / limit) }] *)
Definition listing_pagination (q : ListQuery) (recordset : list row)
    : Pagination :=
  let totalCount := totalCount_of recordset in
  let limit := default 20 (q_limit q) in
  {| page := default 1 (q_page q);
     limit := limit;
     total := totalCount;
     totalPages := ceil_div totalCount limit |}.

(** The view-count update of [GET /]: started, not awaited; its rejection
    goes to [console.error]. *)
Definition update_views (recordset : list row) (w : World) : World :=
  match recordset with
  | [] => w
  | _ :: _ =>
      match executeQuery
              (UpdateViews (map (fun r => job_id (job r)) recordset)) w with
      | (Resolved _, w') => w'
      | (Rejected, w') => log "Failed to update view counts:" w'
      end
  end.

Definition get_jobs (user : option User) (q : ListQuery) (w : World)
    : Response * World :=
  match validate_list q with
  | (_ :: _) as errors => (ValidationFailed errors, w)
  | [] =>
      match executeQuery (Select (list_statement user q)) w with
      | (Rejected, w1) => (Failed "Failed to get jobs", log "Get jobs error:" w1)
      | (Resolved recordset, w1) =>
          let w2 := update_views recordset w1 in
          (Success (Listing recordset (listing_pagination q recordset)
                      (echo_list q)),
           w2)
      end
  end.

(** [GET /] from the query string: the validation chain, then the
    handler on the fields it let through. *)
Definition list_jobs (user : option User) (r : RawQuery) (w : World)
    : Response * World :=
  match validate_query r with
  | (_ :: _) as errors => (ValidationFailed errors, w)
  | [] => get_jobs user (read_query r) w
  end.

(** *** [POST /search] *)

Definition search_keywords (s : string) : cond :=
  Or (Or (Or (Like (Col j_title) (contains s))
             (Like (Col j_description) (contains s)))
         (Like (Col j_requirements) (contains s)))
     (Like (Col c_company_name) (contains s)).

(** [if (salary_range) { if (salary_range.min) ..; if (salary_range.max) .. }];
    the bounds arrive as JSON numbers. *)
Definition salary_range_clauses (o : option SalaryRange) : list cond :=
  match o with
  | None => []
  | Some sr =>
      when_ (truthy_number (min sr)) salary_min_clause
      ++ when_ (truthy_number (max sr)) salary_max_clause
  end.

Definition truthy_int (o : option Z) : option Z :=
  match o with
  | Some 0 => None
  | other => other
  end.

(** [if (remote_only)]: [false], [0] and the empty text are falsy, every
    other value is truthy, the texts ['false'] and ['0'] too. *)
Definition truthy_flag (o : option Flag) : option Flag :=
  match o with
  | Some (FBool false) | Some (FText EmptyString) | None => None
  | Some (FNumber n) => if Qeq_bool n 0 then None else Some (FNumber n)
  | other => other
  end.

Definition search_where (b : SearchBody) : list cond :=
  [status_active]
  ++ when_ (truthy_string (b_keywords b)) search_keywords
  ++ when_ (truthy_string (b_location b))
       (fun s => Like (Col j_location) (contains s))
  ++ when_ (non_empty (b_job_types b))
       (fun l => IsIn (Col j_job_type) (texts l))
  ++ when_ (non_empty (b_experience_levels b))
       (fun l => IsIn (Col j_experience_level) (texts l))
  ++ when_ (non_empty (b_industries b))
       (fun l => IsIn (Col j_industry) (texts l))
  ++ salary_range_clauses (b_salary_range b)
  ++ when_ (truthy_flag (b_remote_only b))
       (fun _ => IsIn (Col j_remote_work_option) (texts ["Yes"; "Hybrid"]))
  ++ when_ (truthy_int (b_posted_within_days b))
       (fun n => GreaterEq (Col j_posted_date) (DateAddDay (- n)))
  ++ when_ (non_empty (b_company_size b))
       (fun l => IsIn (Col c_company_size) (texts l)).

(** [CASE WHEN j.title LIKE @keywords THEN 1 WHEN c.company_name LIKE
    @keywords THEN 2 WHEN j.description LIKE @keywords THEN 3 ELSE 4 END] *)
Definition relevance_case (s : string) : order_expr :=
  ByCase [ (Like (Col j_title) (contains s), 1);
           (Like (Col c_company_name) (contains s), 2);
           (Like (Col j_description) (contains s), 3) ] 4.

(** ['j.salary_max DESC, j.salary_min DESC'] *)
Definition salary_order : order_by :=
  [(By (Col j_salary_max), DESC); (By (Col j_salary_min), DESC)].

(** The tier [relevance_case] gives a row. *)
Definition tier (s : string) (r : joined) : Z :=
  if like (title (fst r)) (contains s) then 1
  else if like (company_name (snd r)) (contains s) then 2
  else if like (description (fst r)) (contains s) then 3
  else 4.

Definition relevance_order (s : string) : order_by :=
  [(relevance_case s, ASC); (By (Col j_posted_date), DESC)].

Definition search_order (sort_by : string) (keywords : option string)
    : order_by :=
  if String.eqb sort_by "posted_date" then [(By (Col j_posted_date), DESC)]
  else if String.eqb sort_by "salary" then salary_order
  else if String.eqb sort_by "company_name" then
    [(By (Col c_company_name), ASC)]
  else (* relevance *)
    match truthy_string keywords with
    | Some s => relevance_order s
    | None => [(By (Col j_posted_date), DESC)]
    end.

Definition search_statement (user : option User) (b : SearchBody) : select :=
  let page := default 1 (b_page b) in
  let limit := default 20 (b_limit b) in
  let offset := (page - 1) * limit in
  {| count_over := true;
     user_fields := user_columns user;
     where_ := search_where b;
     order_ := search_order (default "relevance" (b_sort_by b)) (b_keywords b);
     paging_ := OffsetFetch offset limit |}.

(** The [search_criteria] echoed in the response; [page], [limit] and
    anything the handler did not read are not among them. *)
Definition echo_search (b : SearchBody) : SearchBody :=
  {| b_keywords := b_keywords b; b_location := b_location b;
     b_radius := b_radius b; b_job_types := b_job_types b;
     b_experience_levels := b_experience_levels b;
     b_industries := b_industries b; b_salary_range := b_salary_range b;
     b_remote_only := b_remote_only b;
     b_posted_within_days := b_posted_within_days b;
     b_company_size := b_company_size b;
     b_sort_by := Some (default "relevance" (b_sort_by b));
     b_sort_order := None; b_page := None; b_limit := None |}.

Definition search_pagination (b : SearchBody) (recordset : list row)
    : Pagination :=
  let totalCount := totalCount_of recordset in
  let limit := default 20 (b_limit b) in
  {| page := default 1 (b_page b);
     limit := limit;
     total := totalCount;
     totalPages := ceil_div totalCount limit |}.

(** The same body without its [salary_range]. *)
Definition without_salary_range (b : SearchBody) : SearchBody :=
  {| b_keywords := b_keywords b; b_location := b_location b;
     b_radius := b_radius b; b_job_types := b_job_types b;
     b_experience_levels := b_experience_levels b;
     b_industries := b_industries b; b_salary_range := None;
     b_remote_only := b_remote_only b;
     b_posted_within_days := b_posted_within_days b;
     b_company_size := b_company_size b; b_sort_by := b_sort_by b;
     b_sort_order := b_sort_order b; b_page := b_page b;
     b_limit := b_limit b |}.

(** The same body with another [sort_order] key. *)
Definition with_sort_order (o : option string) (b : SearchBody)
    : SearchBody :=
  {| b_keywords := b_keywords b; b_location := b_location b;
     b_radius := b_radius b; b_job_types := b_job_types b;
     b_experience_levels := b_experience_levels b;
     b_industries := b_industries b; b_salary_range := b_salary_range b;
     b_remote_only := b_remote_only b;
     b_posted_within_days := b_posted_within_days b;
     b_company_size := b_company_size b; b_sort_by := b_sort_by b;
     b_sort_order := o; b_page := b_page b; b_limit := b_limit b |}.

Definition post_search (user : option User) (b : SearchBody) (w : World)
    : Response * World :=
  match validate_search b with
  | (_ :: _) as errors => (ValidationFailed errors, w)
  | [] =>
      match executeQuery (Select (search_statement user b)) w with
      | (Rejected, w1) =>
          (Failed "Failed to search jobs", log "Advanced search error:" w1)
      | (Resolved recordset, w1) =>
          (Success (Search recordset (search_pagination b recordset)
                      (echo_search b)),
           w1)
      end
  end.

(** *** [GET /trending/popular] *)

(** [(j.views_count * 0.7 + j.current_applications * 0.3)] *)
Definition trending_score : term :=
  Plus (Times (Col j_views_count) (7 # 10))
       (Times (Col j_current_applications) (3 # 10)).

(** The number [trending_score] stands for on a row of [Jobs]. *)
Definition score_of (j : Job) : Q :=
  inject_Z (views_count j) * (7 # 10)
  + inject_Z (current_applications j) * (3 # 10).

Definition trending_order : order_by :=
  [ (By trending_score, DESC); (By (Col j_posted_date), DESC) ].

Definition trending_statement (limit : Z) : select :=
  {| count_over := false;
     user_fields := None;
     where_ := [ status_active;
                 GreaterEq (Col j_posted_date) (DateAddDay (- 30)) ];
     order_ := trending_order;
     paging_ := Top limit |}.

Definition get_trending (limit : option Z) (w : World) : Response * World :=
  match executeQuery (Select (trending_statement (default 10 limit))) w with
  | (Rejected, w1) =>
      (Failed "Failed to get trending jobs",
       log "Get trending jobs error:" w1)
  | (Resolved recordset, w1) => (Success (Trending recordset), w1)
  end.

End Jobs.

(** ** Reading the routes together *)

Module Follow.
Import Sql Schema Query Database Auth Jobs.

(** A row of the record set, and a joined row, after the view-count
    update for [ids] has run. *)
Definition bump_row (ids : list Z) (r : row) : row :=
  {| job := bump_views ids (job r); company := company r;
     total_count := total_count r; has_applied := has_applied r;
     is_saved := is_saved r |}.

Definition bump_joined (ids : list Z) (r : joined) : joined :=
  (bump_views ids (fst r), snd r).

(** Does a piece of a statement read [j.views_count]? *)
Fixpoint term_reads_views (t : term) : bool :=
  match t with
  | Col j_views_count => true
  | Times t' _ => term_reads_views t'
  | Plus a b => term_reads_views a || term_reads_views b
  | _ => false
  end.

Fixpoint cond_reads_views (c : cond) : bool :=
  match c with
  | Equals a b | GreaterEq a b | LessEq a b =>
      term_reads_views a || term_reads_views b
  | Like a _ | IsIn a _ | IsNull a => term_reads_views a
  | Or x y => cond_reads_views x || cond_reads_views y
  end.

Definition order_reads_views (e : order_expr) : bool :=
  match e with
  | By t => term_reads_views t
  | ByCase whens _ => existsb (fun wn => cond_reads_views (fst wn)) whens
  end.

Definition select_reads_views (s : select) : bool :=
  existsb cond_reads_views (where_ s)
  || existsb (fun k => order_reads_views (fst k)) (order_ s).

(** The same body, asking for another page. *)
Definition with_page (p : Z) (b : SearchBody) : SearchBody :=
  {| b_keywords := b_keywords b; b_location := b_location b;
     b_radius := b_radius b; b_job_types := b_job_types b;
     b_experience_levels := b_experience_levels b;
     b_industries := b_industries b; b_salary_range := b_salary_range b;
     b_remote_only := b_remote_only b;
     b_posted_within_days := b_posted_within_days b;
     b_company_size := b_company_size b; b_sort_by := b_sort_by b;
     b_sort_order := b_sort_order b; b_page := Some p;
     b_limit := b_limit b |}.

(** The rows of pages [1 .. n] of a search, one after the other, each
    page asked of the same world. *)
Definition pages (user : option User) (b : SearchBody) (w : World)
    (n : nat) : list (option (list row)) :=
  map (fun k => jobs_of (fst (post_search user
                                (with_page (Z.of_nat k) b) w)))
      (seq 1 n).

(** *** The WHERE clauses in plain terms *)

(** Equality of two texts under the collation. *)
Definition same_text (a b : string) : bool :=
  String.eqb (lower_string a) (lower_string b).


(** A text filter: no text, no restriction; with a text, the field must
    be set and match [%text%]. *)
Definition mentions (o : option string) (field : option string) : bool :=
  match o with
  | None => true
  | Some s =>
      match field with
      | Some x => like x (contains s)
      | None => false
      end
  end.

Definition is_exactly (o : option string) (field : string) : bool :=
  match o with
  | None => true
  | Some s => same_text field s
  end.

Definition deadline_ok (now : Z) (deadline : option Z) : bool :=
  match deadline with
  | None => true
  | Some d => day * (now / day) <=? d
  end.

(** What the WHERE clause of [GET /] asks of a joined row. *)
Definition listing_filter (now : Z) (q : ListQuery) (r : joined) : bool :=
  let (j, c) := r in
  same_text (status j) "active"
  && match truthy_string (q_search q) with
     | Some s => like (title j) (contains s)
                 || like (description j) (contains s)
                 || like (company_name c) (contains s)
     | None => true
     end
  && mentions (truthy_string (q_location q)) (Some (location j))
  && is_exactly (truthy_string (q_job_type q)) (job_type j)
  && is_exactly (truthy_string (q_experience_level q)) (experience_level j)
  && is_exactly (truthy_string (q_remote_work_option q))
       (remote_work_option j)
  && open_ge (q_salary_min q) (salary_min j)
  && open_le (q_salary_max q) (salary_max j)
  && mentions (truthy_string (q_industry q)) (industry j)
  && deadline_ok now (application_deadline j).


End Follow.

(** ** [config/database.js]: the connection pool *)

Module Connection.
Import Database.

(** The module-level [poolPromise] (unset, or the settled promise of
    [new sql.ConnectionPool(dbConfig).connect()]), the console, and the
    number of times [connect()] has been called. *)
Record State : Type := {
  poolPromise : option (settled unit);
  output : list string;
  connects : nat
}.

Definition start : State :=
  {| poolPromise := None; output := []; connects := 0 |}.

Definition say (line : string) (st : State) : State :=
  {| poolPromise := poolPromise st; output := output st ++ [line];
     connects := connects st |}.

(** [connectDB].  [reachable] is what the server would answer if a
    connection were opened now. *)
Definition connectDB (reachable : bool) (st : State) : settled unit * State :=
  let st1 :=
    match poolPromise st with
    | None =>
        {| poolPromise := Some (if reachable then Resolved tt else Rejected);
           output := output st; connects := S (connects st) |}
    | Some _ => st
    end in
  match poolPromise st1 with
  | Some (Resolved pool) =>
      (Resolved pool, say "Connected to SQL Server database" st1)
  | _ => (Rejected, say "Database connection failed:" st1)
  end.

(** [getDB] *)
Definition getDB (reachable : bool) (st : State) : settled unit * State :=
  let (connected, st1) :=
    match poolPromise st with
    | None => connectDB reachable st
    | Some _ => (Resolved tt, st)
    end in
  match connected with
  | Rejected => (Rejected, say "Failed to get database connection:" st1)
  | Resolved _ =>
      match poolPromise st1 with
      | Some (Resolved pool) => (Resolved pool, st1)
      | _ => (Rejected, say "Failed to get database connection:" st1)
      end
  end.

(** One call of [getDB] after the other; each call comes with what the
    server would answer at that moment. *)
Fixpoint calls (reachable : list bool) (st : State)
    : list (settled unit) * State :=
  match reachable with
  | [] => ([], st)
  | r :: rest =>
      let (result, st1) := getDB r st in
      let (results, st2) := calls rest st1 in
      (result :: results, st2)
  end.

End Connection.

(** ** [middleware/auth.js]: the middlewares *)

Module Middleware.
Import Database Auth.

(** What [jwt.verify] does with a token: the decoded payload's [userId],
    or an error with its [name]. *)
Inductive verified : Type :=
| Payload (userId : option Z)
| Throws (name : string).

(** The rows [getUserById] reads: [Users], and the [user_id] columns of
    [Companies] and [JobSeekers]. *)
Record Account : Type := {
  user_id : Z;
  acc_email : string;
  user_type : string;
  is_verified : bool
}.

Record Accounts : Type := {
  Users : list Account;
  CompanyOwners : list (Z * Z);      (* company_id, user_id *)
  SeekerOwners : list (Z * Z)        (* jobseeker_id, user_id *)
}.

(** A row of [Users u LEFT JOIN Companies c .. LEFT JOIN JobSeekers js ..]. *)
Definition joined_account : Type := (Account * option Z * option Z)%type.

(** [LEFT JOIN]: the matching rows, or one NULL row when there is none. *)
Definition left_join (uid : Z) (owners : list (Z * Z)) : list (option Z) :=
  match filter (fun o => snd o =? uid) owners with
  | [] => [None]
  | matching => map (fun o => Some (fst o)) matching
  end.

(** [dbHelpers.getUserById]: [recordset[0]] of the joined rows with
    [u.user_id = @userId]; [up] is whether the backend serves the query. *)
Definition getUserById (up : bool) (t : Accounts) (userId : option Z)
    : settled (option joined_account) :=
  if up then
    Resolved
      (hd_error
         (flat_map
            (fun u =>
               flat_map
                 (fun c => map (fun s => (u, c, s))
                               (left_join (user_id u) (SeekerOwners t)))
                 (left_join (user_id u) (CompanyOwners t)))
            (filter (fun u => match userId with
                              | Some i => user_id u =? i
                              | None => false
                              end)
                    (Users t))))
  else Rejected.

(** [{ userId: user.user_id, email: user.email, userType: user.user_type,
    companyId: user.company_id, jobseekerId: user.jobseeker_id }] *)
Definition req_user (a : joined_account) : User :=
  let '(u, c, s) := a in
  {| userId := user_id u; email := acc_email u; userType := user_type u;
     companyId := c; jobseekerId := s |}.

(** [" "]-separated pieces of a string, as [String.prototype.split]. *)
Fixpoint split_space (s : string) : list string :=
  match s with
  | EmptyString => [EmptyString]
  | String c s' =>
      if Ascii.eqb c " " then EmptyString :: split_space s'
      else
        match split_space s' with
        | piece :: pieces => String c piece :: pieces
        | [] => [String c EmptyString]
        end
  end.

(** [authHeader && authHeader.split(' ')[1]], when it is truthy. *)
Definition token_of (authorization : option string) : option string :=
  match authorization with
  | None | Some EmptyString => None
  | Some header =>
      match nth_error (split_space header) 1 with
      | Some EmptyString | None => None
      | Some token => Some token
      end
  end.

(** A word: a text without a space in it. *)
Definition is_word (s : string) : bool :=
  forallb (fun c => negb (Ascii.eqb c " ")) (list_ascii_of_string s).

(** What a middleware does: it answers, or it calls [next()]. *)
Inductive step (A : Type) : Type :=
| Reply (status : Z) (message : string)
| Next (passed : A).
Arguments Reply {A} status message.
Arguments Next {A} passed.

Section Verify.
Variable verify : string -> verified.

(** [authenticateToken]; with what it leaves in [req.user], and the
    lines it writes to the console. *)
Definition authenticateToken (authorization : option string) (up : bool)
    (t : Accounts) : step User * list string :=
  match token_of authorization with
  | None => (Reply 401 "Access token required", [])
  | Some token =>
      match verify token with
      | Throws name =>
          if String.eqb name "JsonWebTokenError"
          then (Reply 401 "Invalid token", [])
          else if String.eqb name "TokenExpiredError"
          then (Reply 401 "Token expired", [])
          else (Reply 500 "Authentication failed", ["Authentication error:"])
      | Payload userId =>
          match getUserById up t userId with
          | Rejected =>
              (Reply 500 "Authentication failed",
               ["Query execution failed:"; "Authentication error:"])
          | Resolved None => (Reply 401 "User not found", [])
          | Resolved (Some a) =>
              if is_verified (fst (fst a)) then (Next (req_user a), [])
              else (Reply 401 "Please verify your email address", [])
          end
      end
  end.


End Verify.

(** [requireCompany] and [requireJobSeeker] *)
Definition requireCompany (user : User) : step User :=
  if String.eqb (userType user) "company" then Next user
  else Reply 403 "Company account required".

Definition requireJobSeeker (user : User) : step User :=
  if String.eqb (userType user) "jobseeker" then Next user
  else Reply 403 "Job seeker account required".

(** [router.use(authenticateToken); router.use(requireCompany)] of the
    company routes, and the like of the job-seeker routes. *)
Definition company_only (verify : string -> verified)
    (authorization : option string) (up : bool) (t : Accounts) : step User :=
  match fst (authenticateToken verify authorization up t) with
  | Next user => requireCompany user
  | Reply status message => Reply status message
  end.

Definition jobseeker_only (verify : string -> verified)
    (authorization : option string) (up : bool) (t : Accounts) : step User :=
  match fst (authenticateToken verify authorization up t) with
  | Next user => requireJobSeeker user
  | Reply status message => Reply status message
  end.


End Middleware.

(** ** [routes/jobs.js]: [GET /skills/all] *)

Module Skills.
Import Sql Query Database.

(** A row of [Skills]. *)
Record Skill : Type := {
  skill_id : Z;
  skill_name : string;
  category : option string
}.

(** [{ skill_id: skill.skill_id, skill_name: skill.skill_name }] *)
Definition entry : Type := (Z * string)%type.


(** [ORDER BY category, skill_name] *)
Definition by_category_then_name (a b : Skill) : comparison :=
  match vcmp (Schema.nullable VText (category a))
             (Schema.nullable VText (category b)) with
  | Eq => vcmp (VText (skill_name a)) (VText (skill_name b))
  | c => c
  end.

(** [SELECT skill_id, skill_name, category FROM Skills
    [WHERE category = @category] ORDER BY category, skill_name];
    the WHERE clause is there when [req.query.category] is truthy. *)
Definition select_skills (wanted : option string) (table : list Skill)
    : list Skill :=
  sort by_category_then_name
    (match Jobs.truthy_string wanted with
     | Some c =>
         filter (fun s => is_true (tv_cmp is_eq
                                     (Schema.nullable VText (category s))
                                     (VText c)))
                table
     | None => table
     end).



(** The accumulator of the [reduce]: the object's own keys with their
    arrays.  (The order of the keys is the order of insertion here; it
    carries no meaning.) *)
Definition groups : Type := list (string * list entry).





Inductive Response : Type :=
| Success (skills : list Skill) (skills_by_category : groups)
| Failed (message : string).          (* res.status(500) *)


End Skills.

(** ** [executeQuery] for the statements of the other routes *)

Module Backend.
Import Sql Schema Query Database.

(** [executeQuery] on a statement that reads: [run] is what the engine
    returns for it, or nothing when the engine refuses it. *)
Definition query {A : Type} (run : Z -> Db -> option A) (w : World)
    : settled A * World :=
  match getDB w with
  | (Rejected, w0) => (Rejected, log "Query execution failed:" w0)
  | (Resolved _, w0) =>
      let (failed, w1) := next_call w0 in
      if failed then (Rejected, log "Query execution failed:" w1)
      else
        match run (clock w1) (db w1) with
        | Some a => (Resolved a, w1)
        | None => (Rejected, log "Query execution failed:" w1)
        end
  end.

(** [ORDER BY j.posted_date DESC] *)
Definition latest_first (a b : Job) : comparison :=
  CompOpp (vcmp (num (posted_date a)) (num (posted_date b))).

(** [j.status = 'active'] on a row of [Jobs]. *)
Definition is_active (j : Job) : bool :=
  is_true (tv_cmp is_eq (VText (status j)) (VText "active")).

End Backend.

(** ** [routes/jobs.js]: [GET /company/:companyId] *)

Module CompanyJobs.
Import Sql Schema Query Database Auth Jobs Backend.

(** [req.query] after the validation chain. *)
Record PageQuery : Type := { c_page : option Z; c_limit : option Z }.

Definition validate (q : PageQuery) : list string :=
  isInt 1 None (c_page q) "Invalid value"
  ++ isInt 1 (Some 50) (c_limit q) "Invalid value".

(** A row of the jobs query: the listing it was taken from (the statement
    selects fourteen of its columns), [total_count] and, for a job seeker,
    the two user columns. *)
Record job_row : Type := {
  the_job : Job;
  its_total_count : Z;
  its_has_applied : option Z;
  its_is_saved : option Z
}.

Inductive Response : Type :=
| Found (company : Company) (jobs : list job_row) (pagination : Pagination)
| NotFound (message : string)                   (* res.status(404) *)
| Invalid (errors : list string)                (* res.status(400) *)
| Failed (message : string).                    (* res.status(500) *)

(** [SELECT .. FROM Companies WHERE company_id = @companyId] *)
Definition select_company (companyId : Z) (now : Z) (d : Db)
    : option (list Company) :=
  Some (filter (fun c => c_company_id c =? companyId) (Companies d)).

(** The rows [WHERE j.company_id = @companyId AND j.status = 'active']
    keeps. *)
Definition company_matching (companyId : Z) (d : Db) : list Job :=
  filter (fun j => (company_id j =? companyId) && is_active j) (Jobs d).

Definition select_company_jobs (user : option User) (companyId : Z)
    (offset limit : Z) (now : Z) (d : Db) : option (list job_row) :=
  let rows := company_matching companyId d in
  option_map
    (map (fun j =>
            {| the_job := j;
               its_total_count := Z.of_nat (List.length rows);
               its_has_applied :=
                 option_map (count_applications d (job_id j))
                            (user_columns user);
               its_is_saved :=
                 option_map (count_saved d (job_id j)) (user_columns user) |}))
    (cut (OffsetFetch offset limit) (sort latest_first rows)).

(** The handler; [companyId] is the integer that
    [param('companyId').isInt()] let through. *)
Definition get_company_jobs (user : option User) (companyId : Z)
    (q : PageQuery) (w : World) : Response * World :=
  match validate q with
  | (_ :: _) as errors => (Invalid errors, w)
  | [] =>
      let page := default 1 (c_page q) in
      let limit := default 10 (c_limit q) in
      let offset := (page - 1) * limit in
      match query (select_company companyId) w with
      | (Rejected, w1) =>
          (Failed "Failed to get company jobs",
           log "Get jobs by company error:" w1)
      | (Resolved [], w1) => (NotFound "Company not found", w1)
      | (Resolved (company :: _), w1) =>
          match query (select_company_jobs user companyId offset limit)
                      w1 with
          | (Rejected, w2) =>
              (Failed "Failed to get company jobs",
               log "Get jobs by company error:" w2)
          | (Resolved recordset, w2) =>
              let totalCount :=
                match recordset with
                | r :: _ => its_total_count r
                | [] => 0
                end in
              (Found company recordset
                 {| page := page; limit := limit; total := totalCount;
                    totalPages := ceil_div totalCount limit |},
               w2)
          end
      end
  end.

End CompanyJobs.

(** ** [routes/jobs.js]: [GET /:jobId] *)

Module Detail.
Import Sql Schema Query Database Auth Jobs Backend.

(** A row of [JobSkills]. *)
Record JobSkill : Type := {
  js_job_id : Z;
  js_skill_id : Z;
  required_level : string;
  is_required : bool
}.

(** The two tables the skills query reads. *)
Record SkillTables : Type := {
  JobSkills : list JobSkill;
  AllSkills : list Skills.Skill
}.

(** [FROM JobSkills js INNER JOIN Skills s ON js.skill_id = s.skill_id
    WHERE js.job_id = @jobId ORDER BY js.is_required DESC, s.skill_name] *)
Definition required_first (a b : JobSkill * Skills.Skill) : comparison :=
  match directed DESC (Bool.compare (is_required (fst a))
                                    (is_required (fst b))) with
  | Eq => vcmp (VText (Skills.skill_name (snd a)))
               (VText (Skills.skill_name (snd b)))
  | c => c
  end.

Definition select_job_skills (t : SkillTables) (jobId : Z)
    : list (JobSkill * Skills.Skill) :=
  sort required_first
    (flat_map
       (fun js =>
          map (fun s => (js, s))
              (filter (fun s => js_skill_id js =? Skills.skill_id s)
                      (AllSkills t)))
       (filter (fun js => js_job_id js =? jobId) (JobSkills t))).

(** [WHERE j.job_id = @jobId AND j.status = 'active'], with the user
    columns for a job seeker. *)
Definition select_job (user : option User) (jobId : Z) (now : Z) (d : Db)
    : option (list row) :=
  Some
    (map (fun r =>
            {| job := fst r; company := snd r; total_count := None;
               has_applied :=
                 option_map (count_applications d (job_id (fst r)))
                            (user_columns user);
               is_saved :=
                 option_map (count_saved d (job_id (fst r)))
                            (user_columns user) |})
         (filter (fun r => (job_id (fst r) =? jobId) && is_active (fst r))
                 (inner_join d))).

(** [(j.industry = @industry OR j.job_type = @jobType OR
    j.experience_level = @experienceLevel)], bound to the columns of the
    job that was found. *)
Definition alike (found : Job) : cond :=
  Or (Or (Equals (Col j_industry) (Param (nullable VText (industry found))))
         (Equals (Col j_job_type) (Param (VText (job_type found)))))
     (Equals (Col j_experience_level)
             (Param (VText (experience_level found)))).

(** [SELECT TOP 5 .. WHERE j.job_id != @jobId AND j.status = 'active' AND
    (..) ORDER BY j.posted_date DESC] *)
Definition select_similar (found : Job) (jobId : Z) (now : Z) (d : Db)
    : option (list joined) :=
  Some
    (firstn 5
       (sort (cmp_keys now [(By (Col j_posted_date), DESC)])
          (filter (fun r => negb (job_id (fst r) =? jobId)
                            && matches now [status_active; alike found] r)
                  (inner_join d)))).

Inductive Response : Type :=
| Shown (found : row) (skills : list (JobSkill * Skills.Skill))
        (similar_jobs : list joined)
| NotFound (message : string)                   (* res.status(404) *)
| Failed (message : string).                    (* res.status(500) *)

(** The view-count update of the detail route: started, not awaited. *)
Definition count_view (jobId : Z) (w : World) : World :=
  match executeQuery (UpdateViews [jobId]) w with
  | (Resolved _, w') => w'
  | (Rejected, w') => log "Failed to update view count:" w'
  end.

(** The handler; [jobId] is the integer that [param('jobId').isInt()]
    let through.  The three queries are awaited in turn, the update is
    not. *)
Definition get_job (user : option User) (t : SkillTables) (jobId : Z)
    (w : World) : Response * World :=
  match query (select_job user jobId) w with
  | (Rejected, w1) =>
      (Failed "Failed to get job details", log "Get job details error:" w1)
  | (Resolved [], w1) => (NotFound "Job not found", w1)
  | (Resolved (found :: _), w1) =>
      match query (fun _ _ => Some (select_job_skills t jobId)) w1 with
      | (Rejected, w2) =>
          (Failed "Failed to get job details",
           log "Get job details error:" w2)
      | (Resolved skills, w2) =>
          match query (select_similar (job found) jobId) w2 with
          | (Rejected, w3) =>
              (Failed "Failed to get job details",
               log "Get job details error:" w3)
          | (Resolved similar, w3) =>
              (Shown found skills similar, count_view jobId w3)
          end
      end
  end.

End Detail.

(** Accounts and tokens for the closed examples. *)
Module Fixtures.
Import Middleware.

Definition accounts : Accounts :=
  {| Users := [ {| user_id := 7; acc_email := "a@b.c";
                   user_type := "jobseeker"; is_verified := true |};
                {| user_id := 8; acc_email := "hr@acme.example";
                   user_type := "company"; is_verified := true |};
                {| user_id := 9; acc_email := "new@b.c";
                   user_type := "jobseeker"; is_verified := false |} ];
     CompanyOwners := [(1, 8)];
     SeekerOwners := [(3, 7); (4, 9)] |}.

(** A verifier that knows three tokens. *)
Definition verify (token : string) : verified :=
  if String.eqb token "seeker" then Payload (Some 7)
  else if String.eqb token "company" then Payload (Some 8)
  else if String.eqb token "unverified" then Payload (Some 9)
  else if String.eqb token "old" then Throws "TokenExpiredError"
  else Throws "JsonWebTokenError".

Definition skills : list Skills.Skill :=
  [ {| Skills.skill_id := 1; Skills.skill_name := "Rocq";
       Skills.category := Some "Proof" |};
    {| Skills.skill_id := 2; Skills.skill_name := "Welding";
       Skills.category := None |};
    {| Skills.skill_id := 3; Skills.skill_name := "Agda";
       Skills.category := Some "Proof" |};
    {| Skills.skill_id := 4; Skills.skill_name := "Juggling";
       Skills.category := Some "" |} ].

End Fixtures.

(** ** Sample rows, used in the closed examples below *)

Module Sample.
Import Sql Schema Query Database Auth Jobs.

Definition a_job (id : Z) (t d : string) (req : option string)
    (lo hi : option Q) (posted : Z) (deadline : option Z)
    (views applications : Z) : Job :=
  {| job_id := id; company_id := 1; title := t; description := d;
     requirements := req; location := "Cape Town";
     remote_work_option := "No"; salary_min := lo; salary_max := hi;
     job_type := "Full-time"; experience_level := "Mid-level";
     industry := Some "Software"; posted_date := posted;
     application_deadline := deadline; status := "active";
     views_count := views; current_applications := applications |}.

Definition acme : Company :=
  {| c_company_id := 1; company_name := "Acme"; company_size := Some "11-50" |}.

(** Day 110 on the engine's clock, a little after midnight. *)
Definition today : Z := 110 * day + 5.

Definition engineer : Job :=
  a_job 1 "Software Engineer" "Build things" None None None
        (100 * day) None 100 10.

(** Its deadline, day 50, is long past. *)
Definition expired : Job :=
  a_job 2 "Developer" "We need an engineer" (Some "python")
        (Some (60000 # 1)) (Some (90000 # 1)) (101 * day) (Some (50 * day))
        80 40.

Definition analyst : Job :=
  a_job 3 "Analyst" "Reports" (Some "python")
        (Some (30000 # 1)) (Some (40000 # 1)) (100 * day) None 5 1.

Definition tables (js : list Job) : Db :=
  {| Jobs := js; Companies := [acme]; Applications := []; SavedJobs := [] |}.

Definition world (js : list Job) (fs : list bool) : World :=
  {| db := tables js; clock := today; faults := fs; console := [];
     pool := Some (Resolved tt); reachable := true |}.

Definition any_query : ListQuery :=
  {| q_page := None; q_limit := None; q_search := None; q_location := None;
     q_job_type := None; q_experience_level := None;
     q_remote_work_option := None; q_salary_min := None;
     q_salary_max := None; q_industry := None; q_sort_by := None;
     q_sort_order := None |}.

Definition any_body : SearchBody :=
  {| b_keywords := None; b_location := None; b_radius := None;
     b_job_types := None; b_experience_levels := None; b_industries := None;
     b_salary_range := None; b_remote_only := None;
     b_posted_within_days := None; b_company_size := None;
     b_sort_by := None; b_sort_order := None; b_page := None;
     b_limit := None |}.

Definition seeker : User :=
  {| userId := 7; email := "a@b.c"; userType := "jobseeker";
     companyId := None; jobseekerId := Some 3 |}.

(** [GET /?page=2] and [POST /search] with [{ page: 2 }]. *)
Definition page_two : ListQuery :=
  {| q_page := Some 2; q_limit := None; q_search := None; q_location := None;
     q_job_type := None; q_experience_level := None;
     q_remote_work_option := None; q_salary_min := None;
     q_salary_max := None; q_industry := None; q_sort_by := None;
     q_sort_order := None |}.

Definition body_page_two : SearchBody :=
  {| b_keywords := None; b_location := None; b_radius := None;
     b_job_types := None; b_experience_levels := None; b_industries := None;
     b_salary_range := None; b_remote_only := None;
     b_posted_within_days := None; b_company_size := None;
     b_sort_by := None; b_sort_order := None; b_page := Some 2;
     b_limit := None |}.

Definition senior : Job :=
  a_job 4 "Senior Engineer" "Lead things" None
        (Some (80000 # 1)) (Some (120000 # 1)) (102 * day) None 7 2.

(** [GET /?sort_by=...&sort_order=...] *)
Definition sorted_query (sort_by sort_order : string) : ListQuery :=
  {| q_page := None; q_limit := None; q_search := None; q_location := None;
     q_job_type := None; q_experience_level := None;
     q_remote_work_option := None; q_salary_min := None;
     q_salary_max := None; q_industry := None; q_sort_by := Some sort_by;
     q_sort_order := Some sort_order |}.

(** [POST /search] with [{ keywords, sort_by, sort_order }]. *)
Definition sorted_body (keywords sort_by sort_order : option string)
    : SearchBody :=
  {| b_keywords := keywords; b_location := None; b_radius := None;
     b_job_types := None; b_experience_levels := None; b_industries := None;
     b_salary_range := None; b_remote_only := None;
     b_posted_within_days := None; b_company_size := None;
     b_sort_by := sort_by; b_sort_order := sort_order; b_page := None;
     b_limit := None |}.

(** [POST /search] with [{ salary_range: { min: 50000 } }]. *)
Definition from_50000 : SearchBody :=
  {| b_keywords := None; b_location := None; b_radius := None;
     b_job_types := None; b_experience_levels := None; b_industries := None;
     b_salary_range := Some {| min := Some (50000 # 1); max := None |};
     b_remote_only := None; b_posted_within_days := None;
     b_company_size := None; b_sort_by := None; b_sort_order := None;
     b_page := None; b_limit := None |}.


(** [GET /?page=..&limit=..&salary_min=..] *)
Definition raw (page limit salary_min : option string) : RawQuery :=
  {| raw_page := page; raw_limit := limit; raw_search := None;
     raw_location := None; raw_job_type := None;
     raw_experience_level := None; raw_remote_work_option := None;
     raw_salary_min := salary_min; raw_salary_max := None;
     raw_industry := None; raw_sort_by := None; raw_sort_order := None |}.

(** [GET /?salary_min=50000] *)
Definition at_least_50000 : ListQuery :=
  {| q_page := None; q_limit := None; q_search := None; q_location := None;
     q_job_type := None; q_experience_level := None;
     q_remote_work_option := None; q_salary_min := Some (50000 # 1);
     q_salary_max := None; q_industry := None; q_sort_by := None;
     q_sort_order := None |}.

(** [POST /search] with [{ keywords: "engineer" }]. *)
Definition for_engineer : SearchBody := sorted_body (Some "engineer") None None.

(** [GET /?search=...] *)
Definition searching (text : string) : ListQuery :=
  {| q_page := None; q_limit := None; q_search := Some text;
     q_location := None; q_job_type := None; q_experience_level := None;
     q_remote_work_option := None; q_salary_min := None;
     q_salary_max := None; q_industry := None; q_sort_by := None;
     q_sort_order := None |}.

Definition recruiter : User :=
  {| userId := 8; email := "hr@acme.example"; userType := "company";
     companyId := Some 1; jobseekerId := None |}.

(** The seeker of [seeker] has applied to listing 1 and saved listing 4. *)
Definition busy_tables (js : list Job) : Db :=
  {| Jobs := js; Companies := [acme];
     Applications := [{| a_job_id := 1; a_jobseeker_id := 3 |}];
     SavedJobs := [{| s_job_id := 4; s_jobseeker_id := 3 |}] |}.

Definition busy_world (js : list Job) (fs : list bool) : World :=
  {| db := busy_tables js; clock := today; faults := fs; console := [];
     pool := Some (Resolved tt); reachable := true |}.

(** [POST /search] with [{ limit: 2 }]. *)
Definition two_per_page : SearchBody :=
  {| b_keywords := None; b_location := None; b_radius := None;
     b_job_types := None; b_experience_levels := None; b_industries := None;
     b_salary_range := None; b_remote_only := None;
     b_posted_within_days := None; b_company_size := None;
     b_sort_by := None; b_sort_order := None; b_page := None;
     b_limit := Some 2 |}.

Definition ids (r : Response) : option (list Z) :=
  option_map (map (fun x => job_id (job x))) (jobs_of r).

(** A listing that was closed, and one of another company in another
    line of work. *)
Definition retired : Job :=
  {| job_id := 5; company_id := 1; title := "Tester"; description := "Test";
     requirements := None; location := "Cape Town";
     remote_work_option := "No"; salary_min := None; salary_max := None;
     job_type := "Full-time"; experience_level := "Mid-level";
     industry := Some "Software"; posted_date := 103 * day;
     application_deadline := None; status := "closed";
     views_count := 9; current_applications := 0 |}.

Definition designer : Job :=
  {| job_id := 6; company_id := 2; title := "Designer"; description := "Draw";
     requirements := None; location := "Durban";
     remote_work_option := "Yes"; salary_min := None; salary_max := None;
     job_type := "Contract"; experience_level := "Senior";
     industry := None; posted_date := 104 * day;
     application_deadline := None; status := "active";
     views_count := 3; current_applications := 0 |}.

Definition globex : Company :=
  {| c_company_id := 2; company_name := "Globex"; company_size := None |}.

Definition board : list Job :=
  [engineer; expired; analyst; senior; retired; designer].

(** A world met by the first query of a process: [poolPromise] is still
    unset, and the server answers the connection or does not. *)
Definition first_call (answers : bool) (w : World) : World :=
  {| db := db w; clock := clock w; faults := faults w; console := console w;
     pool := None; reachable := answers |}.

(** A world whose [poolPromise] was rejected earlier on. *)
Definition refused (w : World) : World := with_pool (Some Rejected) w.

Definition two_companies (fs : list bool) : World :=
  {| db := {| Jobs := board; Companies := [acme; globex];
              Applications := []; SavedJobs := [] |};
     clock := today; faults := fs; console := [];
     pool := Some (Resolved tt); reachable := true |}.

Definition first_page : CompanyJobs.PageQuery :=
  {| CompanyJobs.c_page := None; CompanyJobs.c_limit := None |}.

(** Listing 1 asks for SQL (required) and for Python. *)
Definition skill_tables : Detail.SkillTables :=
  {| Detail.JobSkills :=
       [ {| Detail.js_job_id := 1; Detail.js_skill_id := 11;
            Detail.required_level := "Intermediate";
            Detail.is_required := false |};
         {| Detail.js_job_id := 1; Detail.js_skill_id := 12;
            Detail.required_level := "Advanced";
            Detail.is_required := true |};
         {| Detail.js_job_id := 3; Detail.js_skill_id := 11;
            Detail.required_level := "Beginner";
            Detail.is_required := true |} ];
     Detail.AllSkills :=
       [ {| Skills.skill_id := 11; Skills.skill_name := "Python";
            Skills.category := Some "Programming" |};
         {| Skills.skill_id := 12; Skills.skill_name := "SQL";
            Skills.category := Some "Databases" |} ] |}.

End Sample.

Import Sql Schema Query Database Auth Jobs.

(** * [getDB] and [executeQuery], call by call *)

Lemma getDB_step (w : World) :
  getDB w = (if up w then Resolved tt else Rejected, opened w).
Proof.
  unfold getDB, connectDB, up, opened, getDB_lines, up, log, with_pool.
  destruct w as [d t fs out p r]. cbn [pool reachable db clock faults console].
  destruct p as [[[]|]|]; cbn [pool reachable db clock faults console].
  - now rewrite app_nil_r.
  - reflexivity.
  - destruct r; cbn [pool reachable db clock faults console];
      [reflexivity|]. now rewrite <- app_assoc.
Qed.

Lemma next_call_opened (w : World) :
  up w = true ->
  next_call (opened w) = (hd false (faults w), answered w).
Proof.
  unfold next_call, opened, answered. intros ->.
  cbn [pool reachable db clock faults console].
  now destruct (faults w).
Qed.

Lemma executeQuery_step (q : statement) (w : World) :
  executeQuery q w
  = if up w then
      if hd false (faults w)
      then (Rejected, log "Query execution failed:" (answered w))
      else
        match q with
        | Select s =>
            match run_select (clock w) (db w) s with
            | Some recordset => (Resolved recordset, answered w)
            | None => (Rejected, log "Query execution failed:" (answered w))
            end
        | UpdateViews ids =>
            (Resolved [], with_db (run_update ids (db w)) (answered w))
        end
    else (Rejected, log "Query execution failed:" (opened w)).
Proof.
  unfold executeQuery. rewrite getDB_step.
  destruct (up w) eqn:U; [|reflexivity].
  rewrite (next_call_opened w U).
  destruct (hd false (faults w)); reflexivity.
Qed.

(** What a call that gets the pool writes while getting it: the line of
    [connectDB] when [poolPromise] was unset, and nothing otherwise. *)
Lemma getDB_lines_up (w : World) :
  up w = true ->
  getDB_lines w
  = match pool w with
    | None => ["Connected to SQL Server database"]
    | Some _ => []
    end.
Proof.
  unfold up, getDB_lines. destruct (pool w) as [[[]|]|]; try discriminate.
  - reflexivity.
  - now intros ->.
Qed.

Lemma up_answered (w : World) : up (answered w) = true.
Proof. reflexivity. Qed.

(** ** The engine: WHERE, ORDER BY and the window *)

Section Where.
Variable now : Z.

Lemma fold_tv_and (r : joined) (cs : list cond) (acc : tv) :
  is_true (fold_left (fun a c => tv_and a (eval_cond now r c)) cs acc)
  = is_true acc && forallb (fun c => is_true (eval_cond now r c)) cs.
Proof.
  revert acc. induction cs as [|c cs IH]; intros acc; simpl.
  - now rewrite andb_true_r.
  - rewrite IH.
    destruct acc as [[|]|], (eval_cond now r c) as [[|]|]; simpl;
      reflexivity.
Qed.

(** A row passes the WHERE clause exactly when every appended clause is
    TRUE on it. *)
Lemma matches_forallb (cs : list cond) (r : joined) :
  matches now cs r = forallb (fun c => is_true (eval_cond now r c)) cs.
Proof. unfold matches, eval_where. now rewrite fold_tv_and. Qed.

Lemma matches_app (cs ds : list cond) (r : joined) :
  matches now (cs ++ ds) r = matches now cs r && matches now ds r.
Proof. rewrite !matches_forallb. apply forallb_app. Qed.

Lemma matches_In (cs : list cond) (r : joined) (c : cond) :
  matches now cs r = true -> In c cs -> is_true (eval_cond now r c) = true.
Proof.
  rewrite matches_forallb, forallb_forall. intros H Hin. now apply H.
Qed.
End Where.

Section Sorting.
Context {A : Type} (cmp : A -> A -> comparison).

Hypothesis cmp_flip : forall a b, cmp b a = CompOpp (cmp a b).

Lemma insert_In (x y : A) (l : list A) :
  In y (insert cmp x l) <-> y = x \/ In y l.
Proof.
  induction l as [|z l IH]; simpl.
  - intuition.
  - destruct (cmp x z); simpl; try rewrite IH; intuition.
Qed.

Lemma sort_In (y : A) (l : list A) : In y (sort cmp l) <-> In y l.
Proof.
  induction l as [|x l IH]; simpl; [tauto|].
  rewrite insert_In, IH. intuition.
Qed.

Lemma insert_length (x : A) (l : list A) :
  List.length (insert cmp x l) = S (List.length l).
Proof.
  induction l as [|z l IH]; simpl; [reflexivity|].
  destruct (cmp x z); simpl; congruence.
Qed.

Lemma sort_length (l : list A) : List.length (sort cmp l) = List.length l.
Proof.
  induction l as [|x l IH]; simpl; [reflexivity|].
  now rewrite insert_length, IH.
Qed.

Lemma insert_HdRel (a x : A) (l : list A) :
  not_after cmp a x -> HdRel (not_after cmp) a l -> HdRel (not_after cmp) a (insert cmp x l).
Proof.
  intros Hax Hal. destruct l as [|z l]; simpl.
  - now constructor.
  - inversion Hal; subst. destruct (cmp x z); now constructor.
Qed.

Lemma insert_Sorted (x : A) (l : list A) :
  Sorted (not_after cmp) l -> Sorted (not_after cmp) (insert cmp x l).
Proof.
  induction 1 as [|z l Hs IH Hd]; simpl.
  - repeat constructor.
  - destruct (cmp x z) eqn:E.
    + constructor; [now constructor|]. constructor. unfold not_after. now rewrite E.
    + constructor; [now constructor|]. constructor. unfold not_after. now rewrite E.
    + constructor; [exact IH|]. apply insert_HdRel; [|exact Hd].
      unfold not_after. rewrite cmp_flip, E. discriminate.
Qed.

Lemma sort_Sorted (l : list A) : Sorted (not_after cmp) (sort cmp l).
Proof.
  induction l as [|x l IH]; simpl; [constructor|].
  now apply insert_Sorted.
Qed.
End Sorting.

Section Rankings.
Context {A : Type}.

Lemma rank_refl (cmp : A -> A -> comparison) (Hcmp : Ranking cmp) (a : A) :
  cmp a a = Eq.
Proof.
  pose proof (rank_flip a a) as H. destruct (cmp a a); simpl in H;
    congruence.
Qed.

Lemma rank_eq_r (cmp : A -> A -> comparison) (Hcmp : Ranking cmp) (a b c : A) :
  cmp b c = Eq -> cmp a b = cmp a c.
Proof.
  intros H. rewrite (rank_flip b a), (rank_flip c a). f_equal.
  symmetry. apply rank_eq_l. rewrite rank_flip, H. reflexivity.
Qed.

Lemma not_after_trans (cmp : A -> A -> comparison) (Hcmp : Ranking cmp)
    (a b c : A) :
  not_after cmp a b -> not_after cmp b c -> not_after cmp a c.
Proof.
  unfold not_after. intros Hab Hbc.
  destruct (cmp a b) eqn:Eab; [| |congruence].
  - now rewrite (rank_eq_l a b c Eab).
  - destruct (cmp b c) eqn:Ebc; [| |congruence].
    + rewrite <- (rank_eq_r cmp _ a b c Ebc), Eab. discriminate.
    + rewrite (rank_lt_trans a b c Eab Ebc). discriminate.
Qed.

(** Ranking by a key, in either direction. *)
Lemma ranking_on {B : Type} (cmp : B -> B -> comparison) (Hcmp : Ranking cmp)
    (key : A -> B) (d : direction) :
  Ranking (fun a b => directed d (cmp (key a) (key b))).
Proof.
  split; intros a b; destruct d; simpl.
  - apply rank_flip.
  - now rewrite (rank_flip (key a) (key b)).
  - intros c. apply rank_lt_trans.
  - intros c Hab Hbc.
    rewrite (rank_flip (key c) (key a)).
    rewrite (rank_flip (key b) (key a)) in Hab.
    rewrite (rank_flip (key c) (key b)) in Hbc.
    rewrite CompOpp_involutive in *.
    now rewrite (rank_lt_trans _ _ _ Hbc Hab).
  - intros c. apply rank_eq_l.
  - intros c Hab. f_equal. apply rank_eq_l.
    destruct (cmp (key a) (key b)); simpl in Hab; congruence.
Qed.

(** Ranking by a first comparison, ties broken by a second. *)
Lemma ranking_then (c1 c2 : A -> A -> comparison)
    (H1 : Ranking c1) (H2 : Ranking c2) :
  Ranking (fun a b => match c1 a b with Eq => c2 a b | c => c end).
Proof.
  split.
  - intros a b. rewrite (rank_flip (cmp := c1) a b).
    destruct (c1 a b); simpl; auto using rank_flip.
  - intros a b c.
    destruct (c1 a b) eqn:Eab; try discriminate;
      destruct (c1 b c) eqn:Ebc; try discriminate; intros L1 L2.
    + rewrite (rank_eq_l a b c Eab), Ebc. eapply rank_lt_trans; eauto.
    + now rewrite (rank_eq_l a b c Eab), Ebc.
    + now rewrite <- (rank_eq_r c1 _ a b c Ebc), Eab.
    + now rewrite (rank_lt_trans a b c Eab Ebc).
  - intros a b c.
    destruct (c1 a b) eqn:Eab; try discriminate. intros H.
    rewrite (rank_eq_l a b c Eab).
    destruct (c1 b c); auto using rank_eq_l.
Qed.

Lemma ranking_none : Ranking (fun _ _ : A => Eq).
Proof. split; intros; simpl; congruence. Qed.
End Rankings.

Lemma vcmp_ranking : Ranking vcmp.
Proof.
  split.
  - intros [|x|x] [|y|y]; simpl; try reflexivity.
    + symmetry. apply Qcompare_antisym.
    + apply String.compare_antisym.
  - intros [|x|x] [|y|y] [|z|z]; simpl; try congruence.
    + rewrite <- !Qlt_alt. apply Qlt_trans.
    + change String.compare with String_as_OT.cmp.
      rewrite !String_as_OT.cmp_lt. apply String_as_OT.lt_trans.
  - intros [|x|x] [|y|y] [|z|z]; simpl; try congruence.
    + intros H. apply Qeq_alt in H. now rewrite H.
    + intros H. apply String.compare_eq_iff in H. now rewrite H.
Qed.

Lemma cmp_keys_ranking (now : Z) (keys : order_by) :
  Ranking (cmp_keys now keys).
Proof.
  induction keys as [|[e d] keys IH]; simpl.
  - apply ranking_none.
  - apply (ranking_then
             (fun a b => directed d (vcmp (eval_order now a e)
                                          (eval_order now b e)))
             (cmp_keys now keys)); [|exact IH].
    apply (ranking_on vcmp vcmp_ranking (fun a => eval_order now a e) d).
Qed.

Section Window.
Context {A : Type} (R : A -> A -> Prop).

Lemma Sorted_skipn (n : nat) (l : list A) :
  Sorted R l -> Sorted R (skipn n l).
Proof.
  revert l. induction n as [|n IH]; intros l Hl; simpl; [exact Hl|].
  destruct l as [|x l]; [constructor|]. apply IH. now inversion Hl.
Qed.

Lemma Sorted_firstn (n : nat) (l : list A) :
  Sorted R l -> Sorted R (firstn n l).
Proof.
  revert l. induction n as [|n IH]; intros l Hl; simpl; [constructor|].
  destruct l as [|x l]; [constructor|].
  inversion Hl as [|? ? Hs Hd]; subst. constructor; [now apply IH|].
  destruct n; simpl; [constructor|].
  destruct l; [constructor|]. inversion Hd; subst. now constructor.
Qed.

Lemma cut_Sorted (p : paging) (l l' : list A) :
  Sorted R l -> cut p l = Some l' -> Sorted R l'.
Proof.
  intros Hl. destruct p as [offset fetch|n]; simpl.
  - destruct ((offset <? 0) || (fetch <? 1)); [discriminate|].
    intros [= <-]. now apply Sorted_firstn, Sorted_skipn.
  - destruct (n <? 0); [discriminate|].
    intros [= <-]. now apply Sorted_firstn.
Qed.

End Window.

Section WindowContents.
Context {A : Type}.

Lemma In_skipn (n : nat) (l : list A) (x : A) : In x (skipn n l) -> In x l.
Proof.
  revert l. induction n as [|n IH]; intros l; simpl; [trivial|].
  destruct l as [|y l]; simpl; [trivial|]. intros H. right. now apply IH.
Qed.

Lemma In_firstn (n : nat) (l : list A) (x : A) : In x (firstn n l) -> In x l.
Proof.
  revert l. induction n as [|n IH]; intros l; simpl; [tauto|].
  destruct l as [|y l]; simpl; [trivial|]. intros [H|H]; [now left|].
  right. now apply IH.
Qed.

Lemma cut_In (p : paging) (l l' : list A) (x : A) :
  cut p l = Some l' -> In x l' -> In x l.
Proof.
  destruct p as [offset fetch|n]; simpl.
  - destruct ((offset <? 0) || (fetch <? 1)); [discriminate|].
    intros [= <-] H. now apply In_skipn with (n := Z.to_nat offset),
                                  In_firstn with (n := Z.to_nat fetch).
  - destruct (n <? 0); [discriminate|].
    intros [= <-]. apply In_firstn.
Qed.

Lemma cut_length (p : paging) (l l' : list A) :
  cut p l = Some l' -> (List.length l' <= List.length l)%nat.
Proof.
  destruct p as [offset fetch|n]; simpl.
  - destruct ((offset <? 0) || (fetch <? 1)); [discriminate|].
    intros [= <-]. rewrite length_firstn, length_skipn. lia.
  - destruct (n <? 0); [discriminate|].
    intros [= <-]. rewrite length_firstn. lia.
Qed.
End WindowContents.

(** *** What a record set is made of *)

Lemma source_project (db : Db) (s : select) (total : Z) (r : joined) :
  source (project db s total r) = r.
Proof. now destruct r. Qed.

Lemma map_source_project (db : Db) (s : select) (total : Z) (l : list joined) :
  map source (map (project db s total) l) = l.
Proof.
  rewrite map_map. rewrite <- (map_id l) at 2. apply map_ext.
  intros r. apply source_project.
Qed.

Section RecordSet.
Variables (now : Z) (db : Db) (s : select) (recordset : list row).
Hypothesis Hrun : run_select now db s = Some recordset.

Lemma recordset_cut :
  cut (paging_ s) (ordered now db s) = Some (map source recordset)
  /\ recordset
     = map (project db s (Z.of_nat (List.length (matching now db s))))
           (map source recordset).
Proof.
  unfold run_select in Hrun.
  destruct (cut (paging_ s) (ordered now db s)) as [l|]; [|discriminate].
  injection Hrun as <-. now rewrite !map_source_project.
Qed.

(** The record set is in ORDER BY order. *)
Lemma recordset_Sorted :
  Sorted (not_after (cmp_keys now (order_ s))) (map source recordset).
Proof.
  destruct recordset_cut as [Hcut _].
  eapply cut_Sorted; [|exact Hcut].
  apply sort_Sorted. apply (@rank_flip _ _ (cmp_keys_ranking now (order_ s))).
Qed.

(** Every row of it is a joined row that passes the WHERE clause. *)
Lemma recordset_matches (r : row) :
  In r recordset ->
  In (source r) (inner_join db) /\ matches now (where_ s) (source r) = true.
Proof.
  intros Hin. destruct recordset_cut as [Hcut _].
  assert (In (source r) (ordered now db s)) as H.
  { eapply cut_In; [exact Hcut|]. now apply in_map. }
  unfold ordered in H. rewrite sort_In in H.
  unfold matching in H. now apply filter_In in H.
Qed.

(** [COUNT( * ) OVER()] on every row is the number of matching rows. *)
Lemma recordset_total_count (r : row) :
  In r recordset ->
  total_count r
  = if count_over s
    then Some (Z.of_nat (List.length (matching now db s))) else None.
Proof.
  intros Hin. destruct recordset_cut as [_ Heq]. rewrite Heq in Hin.
  apply in_map_iff in Hin as (x & <- & _). reflexivity.
Qed.

Lemma recordset_user_fields (r : row) :
  In r recordset ->
  has_applied r
  = option_map (count_applications db (job_id (job r))) (user_fields s)
  /\ is_saved r
     = option_map (count_saved db (job_id (job r))) (user_fields s).
Proof.
  intros Hin. destruct recordset_cut as [_ Heq]. rewrite Heq in Hin.
  apply in_map_iff in Hin as (x & <- & _). now split.
Qed.
End RecordSet.

Lemma recordset_StronglySorted (now : Z) (db : Db) (s : select)
    (recordset : list row) :
  run_select now db s = Some recordset ->
  StronglySorted (not_after (cmp_keys now (order_ s))) (map source recordset).
Proof.
  intros Hrun. apply Sorted_StronglySorted.
  - intros a b c. apply not_after_trans, cmp_keys_ranking.
  - exact (recordset_Sorted _ _ _ _ Hrun).
Qed.

(** *** [executeQuery] and the three routes, read backwards *)

Lemma executeQuery_select (s : select) (w w1 : World) (rs : list row) :
  executeQuery (Select s) w = (Resolved rs, w1) ->
  run_select (clock w) (db w) s = Some rs
  /\ db w1 = db w /\ w1 = answered w /\ served w.
Proof.
  rewrite executeQuery_step. unfold served.
  destruct (up w); [|discriminate].
  destruct (hd false (faults w)); [discriminate|].
  destruct (run_select (clock w) (db w) s); [|discriminate].
  intros [= -> <-]. auto.
Qed.

(** A SELECT never writes to the tables, served or not. *)
Lemma executeQuery_select_db (s : select) (w : World) :
  db (snd (executeQuery (Select s) w)) = db w.
Proof.
  rewrite executeQuery_step.
  destruct (up w); [|reflexivity].
  destruct (hd false (faults w)); [reflexivity|].
  now destruct (run_select (clock w) (db w) s).
Qed.

Lemma executeQuery_served (s : select) (w : World) (rs : list row) :
  served w -> run_select (clock w) (db w) s = Some rs ->
  fst (executeQuery (Select s) w) = Resolved rs.
Proof.
  intros [Hu Hs] Hrun. now rewrite executeQuery_step, Hu, Hs, Hrun.
Qed.

Lemma get_jobs_inv (user : option User) (q : ListQuery) (w : World)
    (js : list row) :
  jobs_of (fst (get_jobs user q w)) = Some js ->
  validate_list q = []
  /\ run_select (clock w) (db w) (list_statement user q) = Some js
  /\ fst (get_jobs user q w)
     = Success (Listing js (listing_pagination q js) (echo_list q)).
Proof.
  unfold get_jobs. destruct (validate_list q); [|discriminate].
  destruct (executeQuery (Select (list_statement user q)) w)
    as [[rs|] w1] eqn:E; simpl; [|discriminate].
  intros [= <-]. apply executeQuery_select in E as (Hrun & _). auto.
Qed.

Lemma post_search_inv (user : option User) (b : SearchBody) (w : World)
    (js : list row) :
  jobs_of (fst (post_search user b w)) = Some js ->
  validate_search b = []
  /\ run_select (clock w) (db w) (search_statement user b) = Some js
  /\ fst (post_search user b w)
     = Success (Search js (search_pagination b js) (echo_search b)).
Proof.
  unfold post_search. destruct (validate_search b); [|discriminate].
  destruct (executeQuery (Select (search_statement user b)) w)
    as [[rs|] w1] eqn:E; simpl; [|discriminate].
  intros [= <-]. apply executeQuery_select in E as (Hrun & _). auto.
Qed.

Lemma get_trending_inv (limit : option Z) (w : World) (js : list row) :
  jobs_of (fst (get_trending limit w)) = Some js ->
  run_select (clock w) (db w) (trending_statement (default 10 limit))
  = Some js.
Proof.
  unfold get_trending.
  destruct (executeQuery (Select (trending_statement (default 10 limit))) w)
    as [[rs|] w1] eqn:E; simpl; [|discriminate].
  intros [= <-]. now apply executeQuery_select in E as (Hrun & _).
Qed.

(** ** Pagination: the total and the pages past the end *)

(** On a page that has rows, [total] is the number of rows the WHERE
    clause keeps. *)
Lemma total_on_a_page_with_rows (user : option User) (q : ListQuery)
    (w : World) (js : list row) :
  jobs_of (fst (get_jobs user q w)) = Some js -> js <> [] ->
  option_map total (pagination_of (fst (get_jobs user q w)))
  = Some (Z.of_nat (List.length
            (matching (clock w) (db w) (list_statement user q)))).
Proof.
  intros Hjs Hne. apply get_jobs_inv in Hjs as (_ & Hrun & ->). simpl.
  destruct js as [|r js]; [congruence|]. simpl.
  rewrite (recordset_total_count _ _ _ _ Hrun r (or_introl eq_refl)).
  reflexivity.
Qed.

Lemma ceil_div_covers (count limit : Z) :
  0 < limit -> count <= ceil_div count limit * limit.
Proof.
  intros Hl. unfold ceil_div.
  set (x := (inject_Z count / inject_Z limit)%Q).
  assert (inject_Z 0 < inject_Z limit)%Q as Hq
    by (rewrite <- Zlt_Qlt; exact Hl).
  change (inject_Z 0) with 0%Q in Hq.
  assert (x * inject_Z limit <= inject_Z (Qceiling x) * inject_Z limit)%Q as H.
  { apply Qmult_le_compat_r; [apply Qle_ceiling|]. now apply Qlt_le_weak. }
  unfold x in H at 1. rewrite Qmult_comm, Qmult_div_r in H.
  - rewrite <- inject_Z_mult, <- Zle_Qle in H. exact H.
  - intros E. rewrite E in Hq. now apply Qlt_irrefl in Hq.
Qed.

Lemma skipn_past_end {A : Type} (n : nat) (l : list A) :
  (List.length l <= n)%nat -> skipn n l = [].
Proof. intros H. now apply skipn_all2. Qed.

(** A valid page past the last one is served, and is empty. *)
Lemma page_past_last_is_empty (user : option User) (q : ListQuery)
    (w : World) :
  validate_list q = [] -> served w ->
  ceil_div (Z.of_nat (List.length
              (matching (clock w) (db w) (list_statement user q))))
           (default 20 (q_limit q))
  < default 1 (q_page q) ->
  jobs_of (fst (get_jobs user q w)) = Some [].
Proof.
  intros Hv Hs Hpage.
  assert (1 <= default 1 (q_page q) /\ 1 <= default 20 (q_limit q)) as [Hp Hl].
  { unfold validate_list in Hv.
    apply app_eq_nil in Hv as [Hv1 Hv2]. apply app_eq_nil in Hv2 as [Hv2 _].
    unfold isInt in Hv1, Hv2.
    destruct (q_page q) as [p|], (q_limit q) as [l|]; simpl in *; try lia.
    - destruct (1 <=? p) eqn:E1; [|discriminate].
      destruct ((1 <=? l) && (l <=? 50)) eqn:E2; [|discriminate]. lia.
    - destruct (1 <=? p) eqn:E1; [|discriminate]. lia.
    - destruct ((1 <=? l) && (l <=? 50)) eqn:E2; [|discriminate]. lia. }
  set (n := List.length (matching (clock w) (db w) (list_statement user q)))
    in *.
  pose proof (ceil_div_covers (Z.of_nat n) (default 20 (q_limit q))) as Hc.
  assert (run_select (clock w) (db w) (list_statement user q) = Some []) as Hrun.
  { unfold run_select. simpl paging_. unfold cut.
    set (offset := (default 1 (q_page q) - 1) * default 20 (q_limit q)).
    assert ((offset <? 0) || (default 20 (q_limit q) <? 1) = false) as ->.
    { apply orb_false_iff. split; apply Z.ltb_ge; unfold offset; nia. }
    rewrite skipn_past_end; [now rewrite firstn_nil|].
    unfold ordered. rewrite sort_length. fold n. unfold offset. nia. }
  unfold get_jobs. rewrite Hv.
  pose proof (executeQuery_served _ _ _ Hs Hrun) as E.
  destruct (executeQuery (Select (list_statement user q)) w) as [o w1].
  simpl in E. now subst o.
Qed.

(** C1 (the code misses it).  [total] is read off the first row of the
    page, so on a page past the last one it is 0 whatever the number of
    matching rows: with one matching listing, page 2 of the listing and of
    the advanced search come back empty, served, with [total = 0] and
    [totalPages = 0]. *)
Theorem total_is_zero_past_the_last_page :
  let w := Sample.world [Sample.engineer] [] in
  List.length (matching (clock w) (db w)
                 (list_statement None Sample.page_two)) = 1%nat
  /\ fst (get_jobs None Sample.page_two w)
     = Success (Listing []
                  {| page := 2; limit := 20; total := 0; totalPages := 0 |}
                  (echo_list Sample.page_two))
  /\ List.length (matching (clock w) (db w)
                    (search_statement None Sample.body_page_two)) = 1%nat
  /\ fst (post_search None Sample.body_page_two w)
     = Success (Search []
                  {| page := 2; limit := 20; total := 0; totalPages := 0 |}
                  (echo_search Sample.body_page_two)).
Proof. vm_compute. repeat split. Qed.

(** ** The implicit predicate: active, deadline not passed *)

Lemma vcmp_num (a b : Z) : vcmp (num a) (num b) = (a ?= b).
Proof.
  unfold num, vcmp, Qcompare, inject_Z. simpl. now rewrite !Z.mul_1_r.
Qed.

Lemma tv_cmp_num (ok : comparison -> bool) (a b : Z) :
  tv_cmp ok (num a) (num b) = Some (ok (a ?= b)).
Proof. rewrite <- vcmp_num. reflexivity. Qed.

Lemma status_active_spec (now : Z) (r : joined) :
  is_true (eval_cond now r status_active) = true
  <-> lower_string (status (fst r)) = "active".
Proof.
  destruct r as [j c].
  assert (eval_cond now (j, c) status_active
          = Some (is_eq (String.compare (lower_string (status j)) "active")))
    as -> by reflexivity.
  simpl fst.
  destruct (String.compare (lower_string (status j)) "active") eqn:E; simpl.
  - apply String.compare_eq_iff in E. tauto.
  - split; [discriminate|]. intros H. rewrite H in E. discriminate.
  - split; [discriminate|]. intros H. rewrite H in E. discriminate.
Qed.

Lemma deadline_open_spec (now : Z) (r : joined) :
  is_true (eval_cond now r deadline_open)
  = match application_deadline (fst r) with
    | None => true
    | Some d => day * (now / day) <=? d
    end.
Proof.
  destruct r as [j c]. unfold deadline_open.
  cbn [eval_cond eval_term column_value nullable fst].
  destruct (application_deadline j) as [d|]; cbn [nullable]; [|reflexivity].
  rewrite tv_cmp_num. unfold num at 1. cbn [tv_or].
  rewrite Z.leb_antisym, Z.ltb_compare.
  now destruct (d ?= day * (now / day)).
Qed.

(** The listing endpoint returns only active listings whose deadline, if
    set, is not before today, whatever the client sent. *)
Lemma listing_rows_active_and_open (user : option User) (q : ListQuery)
    (w : World) (js : list row) (r : row) :
  jobs_of (fst (get_jobs user q w)) = Some js -> In r js ->
  lower_string (status (job r)) = "active"
  /\ match application_deadline (job r) with
     | None => True
     | Some d => day * (clock w / day) <= d
     end.
Proof.
  intros Hjs Hin. apply get_jobs_inv in Hjs as (_ & Hrun & _).
  destruct (recordset_matches _ _ _ _ Hrun r Hin) as [_ Hm].
  simpl where_ in Hm. split.
  - apply (status_active_spec (clock w) (source r)).
    apply (matches_In _ _ _ _ Hm). unfold list_where. simpl. now left.
  - assert (is_true (eval_cond (clock w) (source r) deadline_open) = true)
      as H.
    { apply (matches_In _ _ _ _ Hm). unfold list_where.
      rewrite !in_app_iff. simpl. intuition. }
    rewrite deadline_open_spec in H. simpl in H.
    destruct (application_deadline (job r)); [now apply Z.leb_le|exact I].
Qed.

(** The advanced search returns only active listings. *)
Lemma search_rows_active (user : option User) (b : SearchBody)
    (w : World) (js : list row) (r : row) :
  jobs_of (fst (post_search user b w)) = Some js -> In r js ->
  lower_string (status (job r)) = "active".
Proof.
  intros Hjs Hin. apply post_search_inv in Hjs as (_ & Hrun & _).
  destruct (recordset_matches _ _ _ _ Hrun r Hin) as [_ Hm].
  apply (status_active_spec (clock w) (source r)).
  apply (matches_In _ _ _ _ Hm). unfold search_statement, search_where.
  simpl. now left.
Qed.

(** C2 (the code misses it).  [POST /search] never appends the deadline
    clause that [GET /] appends: an active listing whose deadline was day
    50 is returned by the advanced search on day 110, and not by the
    listing endpoint. *)
Theorem search_returns_a_listing_past_its_deadline :
  let w := Sample.world [Sample.expired] [] in
  application_deadline Sample.expired = Some (50 * day)
  /\ clock w / day = 110
  /\ Sample.ids (fst (post_search None Sample.any_body w)) = Some [2]
  /\ Sample.ids (fst (get_jobs None Sample.any_query w)) = Some [].
Proof. vm_compute. repeat split. Qed.

(** ** Trending *)

Lemma trending_score_value (now : Z) (r : joined) :
  eval_term now r trending_score = VNum (score_of (fst r)).
Proof. now destruct r. Qed.

(** The trending order in plain terms: higher score first, and among
    equal scores the later [posted_date] first. *)
Lemma trending_order_cmp (now : Z) (a b : joined) :
  cmp_keys now trending_order a b
  = match (score_of (fst b) ?= score_of (fst a))%Q with
    | Eq => posted_date (fst b) ?= posted_date (fst a)
    | c => c
    end.
Proof.
  unfold trending_order. cbn [cmp_keys eval_order directed].
  rewrite !trending_score_value. cbn [vcmp]. rewrite Qcompare_antisym.
  destruct (score_of (fst b) ?= score_of (fst a))%Q; try reflexivity.
  destruct a as [ja ca], b as [jb cb]. cbn [eval_term column_value fst].
  rewrite vcmp_num, <- Z.compare_antisym.
  now destruct (posted_date jb ?= posted_date ja).
Qed.

Lemma posted_within_spec (now n : Z) (r : joined) :
  is_true (eval_cond now r (GreaterEq (Col j_posted_date) (DateAddDay n)))
  = (now + n * day <=? posted_date (fst r)).
Proof.
  destruct r as [j c]. cbn [eval_cond eval_term column_value fst].
  rewrite tv_cmp_num. cbn [is_true].
  rewrite Z.leb_antisym, Z.ltb_compare.
  now destruct (posted_date j ?= now + n * day).
Qed.

Lemma run_select_total (now : Z) (db : Db) (s : select) :
  match paging_ s with
  | OffsetFetch offset fetch => 0 <= offset /\ 1 <= fetch
  | Top n => 0 <= n
  end ->
  exists rs, run_select now db s = Some rs.
Proof.
  unfold run_select, cut. destruct (paging_ s) as [offset fetch|n]; intros H.
  - assert ((offset <? 0) || (fetch <? 1) = false) as ->.
    { apply orb_false_iff. split; apply Z.ltb_ge; lia. }
    simpl. eauto.
  - assert ((n <? 0) = false) as -> by (apply Z.ltb_ge; lia).
    simpl. eauto.
Qed.

(** C3, with the arithmetic put right.  The trending route leaves the
    tables as they are; when it answers, the console has got nothing but
    the line of [connectDB], and that only when this was the first query
    of the process.  What it returns are active listings posted within the last 30 days, at most
    [limit] of them, in the order of
    [0.7 * views_count + 0.3 * current_applications] descending and then
    [posted_date] descending; it returns whenever the backend serves the
    call and [limit] is not negative.  A listing with 100 views and 10
    applications scores 73 (not 82), one with 80 views and 40
    applications scores 68, and the first ranks before the second. *)
Theorem trending_is_recent_active_by_score (limit : option Z) (w : World) :
  db (snd (get_trending limit w)) = db w
  /\ (forall js, jobs_of (fst (get_trending limit w)) = Some js ->
        Forall (fun r => lower_string (status (job r)) = "active"
                         /\ clock w - 30 * day <= posted_date (job r)) js
        /\ StronglySorted (not_after (cmp_keys (clock w) trending_order))
                          (map source js)
        /\ Z.of_nat (List.length js) <= default 10 limit
        /\ console (snd (get_trending limit w))
           = (console w
              ++ match pool w with
                 | None => ["Connected to SQL Server database"]
                 | Some _ => []
                 end)%list)
  /\ (served w -> 0 <= default 10 limit ->
      exists js, jobs_of (fst (get_trending limit w)) = Some js)
  /\ (forall a b : joined,
        cmp_keys (clock w) trending_order a b
        = match (score_of (fst b) ?= score_of (fst a))%Q with
          | Eq => posted_date (fst b) ?= posted_date (fst a)
          | c => c
          end)
  /\ (forall a b : joined,
        views_count (fst a) = 100 -> current_applications (fst a) = 10 ->
        views_count (fst b) = 80 -> current_applications (fst b) = 40 ->
        (score_of (fst a) == 73)%Q /\ (score_of (fst b) == 68)%Q
        /\ cmp_keys (clock w) trending_order a b = Lt).
Proof.
  split; [|split; [|split; [|split]]].
  - unfold get_trending.
    pose proof (executeQuery_select_db
                  (trending_statement (default 10 limit)) w) as H.
    destruct (executeQuery _ w) as [[rs|] w1]; simpl in *; exact H.
  - intros js Hjs. apply get_trending_inv in Hjs as Hrun.
    split; [|split; [|split]].
    + apply Forall_forall. intros r Hin.
      destruct (recordset_matches _ _ _ _ Hrun r Hin) as [_ Hm].
      simpl where_ in Hm. split.
      * apply (status_active_spec (clock w) (source r)).
        apply (matches_In _ _ _ _ Hm). simpl. now left.
      * assert (is_true (eval_cond (clock w) (source r)
                  (GreaterEq (Col j_posted_date) (DateAddDay (- 30)))) = true)
          as H by (apply (matches_In _ _ _ _ Hm); simpl; auto).
        rewrite posted_within_spec in H. apply Z.leb_le in H.
        unfold source in H. cbn [fst] in H. lia.
    + exact (recordset_StronglySorted _ _ _ _ Hrun).
    + destruct (recordset_cut _ _ _ _ Hrun) as [Hcut _].
      simpl paging_ in Hcut. unfold cut in Hcut.
      destruct (default 10 limit <? 0) eqn:E; [discriminate|].
      injection Hcut as Hcut. apply Z.ltb_ge in E.
      apply (f_equal (@List.length joined)) in Hcut.
      rewrite length_firstn, length_map in Hcut. lia.
    + unfold get_trending in *.
      destruct (executeQuery _ w) as [[rs|] w1] eqn:E; [|discriminate].
      apply executeQuery_select in E as (_ & _ & -> & [Hu _]).
      cbn [snd answered console]. now rewrite (getDB_lines_up w Hu).
  - intros Hs Hl.
    destruct (run_select_total (clock w) (db w)
                (trending_statement (default 10 limit)) Hl) as [rs Hrun].
    exists rs. unfold get_trending.
    pose proof (executeQuery_served _ _ _ Hs Hrun) as E.
    destruct (executeQuery _ w) as [o w1]. simpl in E. now subst o.
  - intros a b. apply trending_order_cmp.
  - intros a b Va Aa Vb Ab.
    assert ((score_of (fst a) == 73)%Q /\ (score_of (fst b) == 68)%Q)
      as [Ha Hb].
    { unfold score_of. rewrite Va, Aa, Vb, Ab. split; reflexivity. }
    repeat split; trivial.
    rewrite trending_order_cmp.
    now rewrite (Qcompare_comp _ _ Hb _ _ Ha).
Qed.

Lemma trending_is_recent_active_by_score_witness :
  Sample.ids (fst (get_trending None
                     (Sample.world [Sample.expired; Sample.engineer] [])))
  = Some [1; 2]
  /\ StronglySorted (not_after (cmp_keys Sample.today trending_order))
       [(Sample.engineer, Sample.acme); (Sample.expired, Sample.acme)]
  /\ cmp_keys Sample.today trending_order
       (Sample.engineer, Sample.acme) (Sample.expired, Sample.acme) = Lt.
Proof.
  destruct (trending_is_recent_active_by_score None
              (Sample.world [Sample.expired; Sample.engineer] []))
    as (_ & Hrows & _ & _ & Hrank).
  split; [reflexivity|]. split.
  - destruct (Hrows _ eq_refl) as (_ & Hsorted & _). exact Hsorted.
  - apply (Hrank (Sample.engineer, Sample.acme)
                 (Sample.expired, Sample.acme));
      reflexivity.
Defined.

(** C3 as written fails: the score of 100 views and 10 applications is 73,
    not 82. *)
Lemma trending_score_of_100_and_10_is_not_82 :
  views_count Sample.engineer = 100
  /\ current_applications Sample.engineer = 10
  /\ eval_term Sample.today (Sample.engineer, Sample.acme) trending_score
     = VNum (score_of Sample.engineer)
  /\ (score_of Sample.engineer == 73)%Q
  /\ ~ (score_of Sample.engineer == 82)%Q.
Proof. repeat split; try reflexivity. intros H. discriminate H. Qed.

(** ** The order of the results *)

Lemma list_order_other (sort_by sort_order : string) :
  sort_by <> "salary_min" -> sort_by <> "title" ->
  sort_by <> "company_name" ->
  list_order sort_by sort_order
  = [(By (Col j_posted_date), direction_of sort_order)].
Proof.
  intros H1 H2 H3. unfold list_order.
  apply String.eqb_neq in H1, H2, H3. now rewrite H1, H2, H3.
Qed.

Lemma search_order_other (sort_by : string) (keywords : option string) :
  sort_by <> "posted_date" -> sort_by <> "salary" ->
  sort_by <> "company_name" ->
  search_order sort_by keywords
  = match truthy_string keywords with
    | Some s => relevance_order s
    | None => [(By (Col j_posted_date), DESC)]
    end.
Proof.
  intros H1 H2 H3. unfold search_order.
  apply String.eqb_neq in H1, H2, H3. now rewrite H1, H2, H3.
Qed.

(** C4, as the code has it.  The results of both endpoints are in the
    lexicographic order of the keys the route derives from the sort key,
    and nothing is appended to them.  On the listing endpoint [salary_min]
    selects the column [j.salary_min], [title] the column [j.title],
    [company_name] the column [c.company_name], and [posted_date], no
    sort key or any other one the column [j.posted_date]; the direction
    is ascending for [asc] and descending otherwise, the default.  On the
    advanced search [posted_date] gives [j.posted_date] desc, [salary]
    gives [j.salary_max] desc then [j.salary_min] desc, [company_name]
    gives [c.company_name] asc, and [relevance], no sort key or any other
    one gives, with keywords, the tier (1 for a title match, 2 for a
    company-name match, 3 for a description match, else 4) asc then
    [j.posted_date] desc, and without keywords [j.posted_date] desc.  The
    comparison along any such list is a total preorder; rows that agree
    on the keys come in the engine's order: no row identifier breaks the
    tie. *)
Theorem results_follow_the_sort_keys (user : option User) (w : World) :
  (forall q js,
      jobs_of (fst (get_jobs user q w)) = Some js ->
      StronglySorted
        (not_after (cmp_keys (clock w)
           (list_order (default "posted_date" (q_sort_by q))
                       (default "desc" (q_sort_order q)))))
        (map source js))
  /\ (forall b js,
        jobs_of (fst (post_search user b w)) = Some js ->
        StronglySorted
          (not_after (cmp_keys (clock w)
             (search_order (default "relevance" (b_sort_by b))
                           (b_keywords b))))
          (map source js))
  /\ (forall sort_order,
        list_order "salary_min" sort_order
        = [(By (Col j_salary_min), direction_of sort_order)]
        /\ list_order "title" sort_order
           = [(By (Col j_title), direction_of sort_order)]
        /\ list_order "company_name" sort_order
           = [(By (Col c_company_name), direction_of sort_order)]
        /\ list_order "posted_date" sort_order
           = [(By (Col j_posted_date), direction_of sort_order)]
        /\ forall sort_by,
             sort_by <> "salary_min" -> sort_by <> "title" ->
             sort_by <> "company_name" ->
             list_order sort_by sort_order
             = [(By (Col j_posted_date), direction_of sort_order)])
  /\ (direction_of "asc" = ASC
      /\ forall sort_order, sort_order <> "asc" ->
                            direction_of sort_order = DESC)
  /\ (forall keywords,
        search_order "posted_date" keywords = [(By (Col j_posted_date), DESC)]
        /\ search_order "salary" keywords
           = [(By (Col j_salary_max), DESC); (By (Col j_salary_min), DESC)]
        /\ search_order "company_name" keywords
           = [(By (Col c_company_name), ASC)]
        /\ forall sort_by,
             sort_by <> "posted_date" -> sort_by <> "salary" ->
             sort_by <> "company_name" ->
             search_order sort_by keywords
             = match truthy_string keywords with
               | Some s =>
                   [(ByCase [(Like (Col j_title) (contains s), 1);
                             (Like (Col c_company_name) (contains s), 2);
                             (Like (Col j_description) (contains s), 3)] 4,
                     ASC);
                    (By (Col j_posted_date), DESC)]
               | None => [(By (Col j_posted_date), DESC)]
               end)
  /\ (forall keys, Ranking (cmp_keys (clock w) keys)).
Proof.
  split; [|split; [|split; [|split; [|split]]]].
  - intros q js Hjs. apply get_jobs_inv in Hjs as (_ & Hrun & _).
    exact (recordset_StronglySorted _ _ _ _ Hrun).
  - intros b js Hjs. apply post_search_inv in Hjs as (_ & Hrun & _).
    exact (recordset_StronglySorted _ _ _ _ Hrun).
  - intros sort_order. do 4 (split; [reflexivity|]).
    intros sort_by. apply list_order_other.
  - split; [reflexivity|]. intros sort_order H. unfold direction_of.
    apply String.eqb_neq in H. now rewrite H.
  - intros keywords. do 3 (split; [reflexivity|]).
    intros sort_by. apply search_order_other.
  - apply cmp_keys_ranking.
Qed.

Lemma results_follow_the_sort_keys_witness :
  Sample.ids (fst (get_jobs None (Sample.sorted_query "title" "asc")
                     (Sample.world
                        [Sample.senior; Sample.analyst; Sample.engineer] [])))
  = Some [3; 4; 1]
  /\ StronglySorted
       (not_after (cmp_keys Sample.today [(By (Col j_title), ASC)]))
       [(Sample.analyst, Sample.acme); (Sample.senior, Sample.acme);
        (Sample.engineer, Sample.acme)].
Proof.
  split; [reflexivity|].
  destruct (results_follow_the_sort_keys None
              (Sample.world [Sample.senior; Sample.analyst; Sample.engineer]
                 [])) as (Hlist & _).
  exact (Hlist (Sample.sorted_query "title" "asc") _ eq_refl).
Defined.

(** C4 as written fails: the ORDER BY of a default request is
    [posted_date] alone (and that of a request sorted by title is [title]
    alone), two listings posted at the same instant tie under it whatever
    their identifiers, and the result lists them in table order. *)
Lemma ties_are_not_broken_by_an_identifier :
  order_ (list_statement None Sample.any_query)
  = [(By (Col j_posted_date), DESC)]
  /\ order_ (list_statement None (Sample.sorted_query "title" "asc"))
     = [(By (Col j_title), ASC)]
  /\ order_ (search_statement None Sample.any_body)
     = [(By (Col j_posted_date), DESC)]
  /\ job_id Sample.engineer <> job_id Sample.analyst
  /\ cmp_keys Sample.today (order_ (list_statement None Sample.any_query))
       (Sample.engineer, Sample.acme) (Sample.analyst, Sample.acme) = Eq
  /\ Sample.ids (fst (get_jobs None Sample.any_query
                        (Sample.world [Sample.analyst; Sample.engineer] [])))
     = Some [3; 1]
  /\ Sample.ids (fst (get_jobs None Sample.any_query
                        (Sample.world [Sample.engineer; Sample.analyst] [])))
     = Some [1; 3].
Proof. vm_compute. repeat split. discriminate. Qed.

(** *** Sorting by salary *)

(** What [salary_order] means for two rows whose salaries are known: the
    higher [salary_max] first, and at equal [salary_max] the higher
    [salary_min] first. *)
Lemma salary_order_highest_first (now : Z) (a b : joined) (x y : Q) :
  not_after (cmp_keys now salary_order) a b ->
  salary_max (fst a) = Some x -> salary_max (fst b) = Some y ->
  (y <= x)%Q
  /\ forall u v, (x == y)%Q ->
       salary_min (fst a) = Some u -> salary_min (fst b) = Some v ->
       (v <= u)%Q.
Proof.
  destruct a as [ja ca], b as [jb cb]. unfold not_after, salary_order.
  cbn [cmp_keys eval_order eval_term column_value directed fst].
  intros H Hx Hy. rewrite Hx, Hy in H. cbn [nullable vcmp] in H.
  rewrite Qcompare_antisym in H.
  split.
  - apply Qle_alt. destruct (y ?= x)%Q; congruence.
  - intros u v Exy Hu Hv. rewrite Hu, Hv in H. cbn [nullable vcmp] in H.
    symmetry in Exy. apply Qeq_alt in Exy. rewrite Exy in H.
    rewrite Qcompare_antisym in H. apply Qle_alt.
    destruct (v ?= u)%Q; congruence.
Qed.

(** C5, as the code has it.  On the advanced search, sort key [salary]
    orders by [salary_max] descending, then [salary_min] descending; a
    [sort_order] sent along changes neither the ORDER BY nor the response.
    On the listing endpoint the salary key is [salary_min]: it orders by
    [salary_min] alone, in the requested direction. *)
Theorem salary_sort_is_highest_first (user : option User) (b : SearchBody)
    (w : World) :
  b_sort_by b = Some "salary" ->
  (forall o,
      order_ (search_statement user (with_sort_order o b)) = salary_order
      /\ fst (post_search user (with_sort_order o b) w)
         = fst (post_search user b w))
  /\ (forall js,
        jobs_of (fst (post_search user b w)) = Some js ->
        StronglySorted (not_after (cmp_keys (clock w) salary_order))
                       (map source js))
  /\ (forall r1 r2 x y,
        not_after (cmp_keys (clock w) salary_order) r1 r2 ->
        salary_max (fst r1) = Some x -> salary_max (fst r2) = Some y ->
        (y <= x)%Q
        /\ forall u v, (x == y)%Q ->
             salary_min (fst r1) = Some u -> salary_min (fst r2) = Some v ->
             (v <= u)%Q)
  /\ (forall sort_order,
        list_order "salary_min" sort_order
        = [(By (Col j_salary_min), direction_of sort_order)]).
Proof.
  intros Hsort. split; [|split; [|split]].
  - intros o. split.
    + unfold search_statement. cbn [order_ with_sort_order b_sort_by].
      now rewrite Hsort.
    + reflexivity.
  - intros js Hjs. apply post_search_inv in Hjs as (_ & Hrun & _).
    pose proof (recordset_StronglySorted _ _ _ _ Hrun) as H.
    unfold search_statement in H. cbn [order_] in H.
    now rewrite Hsort in H.
  - intros r1 r2 x y. apply salary_order_highest_first.
  - reflexivity.
Qed.

Lemma salary_sort_is_highest_first_witness :
  Sample.ids
    (fst (post_search None
            (Sample.sorted_body None (Some "salary") (Some "asc"))
            (Sample.world [Sample.analyst; Sample.engineer; Sample.senior]
               [])))
  = Some [4; 3; 1]
  /\ StronglySorted (not_after (cmp_keys Sample.today salary_order))
       [(Sample.senior, Sample.acme); (Sample.analyst, Sample.acme);
        (Sample.engineer, Sample.acme)].
Proof.
  split; [reflexivity|].
  destruct (salary_sort_is_highest_first None
              (Sample.sorted_body None (Some "salary") (Some "asc"))
              (Sample.world [Sample.analyst; Sample.engineer; Sample.senior]
                 [])
              eq_refl) as (_ & Hsorted & _).
  exact (Hsorted _ eq_refl).
Defined.

(** C5 as written fails on the listing endpoint: sorted by its salary
    key, ascending, the listing with the lower salaries comes first, and
    the order flips with the requested direction. *)
Lemma listing_salary_sort_follows_the_requested_direction :
  order_ (list_statement None (Sample.sorted_query "salary_min" "asc"))
  = [(By (Col j_salary_min), ASC)]
  /\ salary_max Sample.analyst = Some (40000 # 1)
  /\ salary_max Sample.senior = Some (120000 # 1)
  /\ Sample.ids (fst (get_jobs None (Sample.sorted_query "salary_min" "asc")
                        (Sample.world [Sample.senior; Sample.analyst] [])))
     = Some [3; 4]
  /\ Sample.ids (fst (get_jobs None (Sample.sorted_query "salary_min" "desc")
                        (Sample.world [Sample.senior; Sample.analyst] [])))
     = Some [4; 3].
Proof. vm_compute. repeat split. Qed.

(** ** Salary bounds *)

Lemma matches_when_ {A : Type} (now : Z) (o : option A) (f : A -> cond)
    (r : joined) :
  matches now (when_ o f) r
  = match o with
    | Some a => is_true (eval_cond now r (f a))
    | None => true
    end.
Proof.
  rewrite matches_forallb. destruct o; simpl; [|reflexivity].
  apply andb_true_r.
Qed.

Lemma is_le_Qle (x m : Q) : is_le (x ?= m)%Q = Qle_bool x m.
Proof. reflexivity. Qed.

Lemma is_ge_Qle (x m : Q) : is_ge (x ?= m)%Q = Qle_bool m x.
Proof.
  rewrite <- is_le_Qle, <- Qcompare_antisym. now destruct (m ?= x)%Q.
Qed.

Lemma salary_min_clause_spec (now : Z) (r : joined) (m : Q) :
  is_true (eval_cond now r (salary_min_clause m))
  = open_ge (Some m) (salary_min (fst r)).
Proof.
  destruct r as [j c]. unfold salary_min_clause.
  cbn [eval_cond eval_term column_value fst].
  destruct (salary_min j) as [x|]; cbn; [|reflexivity].
  rewrite <- is_ge_Qle. now destruct (is_ge (x ?= m)%Q).
Qed.

Lemma salary_max_clause_spec (now : Z) (r : joined) (m : Q) :
  is_true (eval_cond now r (salary_max_clause m))
  = open_le (Some m) (salary_max (fst r)).
Proof.
  destruct r as [j c]. unfold salary_max_clause.
  cbn [eval_cond eval_term column_value fst].
  destruct (salary_max j) as [x|]; cbn; [|reflexivity].
  rewrite <- is_le_Qle. now destruct (is_le (x ?= m)%Q).
Qed.

Lemma matches_salary_min (now : Z) (o : option Q) (r : joined) :
  matches now (when_ o salary_min_clause) r = open_ge o (salary_min (fst r)).
Proof.
  rewrite matches_when_. destruct o; [apply salary_min_clause_spec|].
  reflexivity.
Qed.

Lemma matches_salary_max (now : Z) (o : option Q) (r : joined) :
  matches now (when_ o salary_max_clause) r = open_le o (salary_max (fst r)).
Proof.
  rewrite matches_when_. destruct o; [apply salary_max_clause_spec|].
  reflexivity.
Qed.

Lemma list_where_salary (now : Z) (q : ListQuery) (r : joined) :
  matches now (list_where q) r
  = matches now (list_where (without_salary q)) r
    && open_ge (q_salary_min q) (salary_min (fst r))
    && open_le (q_salary_max q) (salary_max (fst r)).
Proof.
  unfold list_where. cbn [without_salary q_search q_location q_job_type
    q_experience_level q_remote_work_option q_salary_min q_salary_max
    q_industry].
  rewrite !matches_app, !matches_salary_min, !matches_salary_max.
  cbn [open_ge open_le]. btauto.
Qed.

Lemma search_where_salary (now : Z) (b : SearchBody) (r : joined) :
  matches now (search_where b) r
  = matches now (search_where (without_salary_range b)) r
    && match b_salary_range b with
       | Some sr =>
           open_ge (truthy_number (min sr)) (salary_min (fst r))
           && open_le (truthy_number (max sr)) (salary_max (fst r))
       | None => true
       end.
Proof.
  unfold search_where. cbn [without_salary_range b_keywords b_location
    b_job_types b_experience_levels b_industries b_salary_range
    b_remote_only b_posted_within_days b_company_size].
  rewrite !matches_app.
  destruct (b_salary_range b) as [sr|]; cbn [salary_range_clauses].
  - rewrite matches_app, matches_salary_min, matches_salary_max.
    change (matches now [] r) with true. btauto.
  - change (matches now [] r) with true. btauto.
Qed.

Lemma open_ge_truthy (bound field : option Q) :
  open_ge bound field = true -> open_ge (truthy_number bound) field = true.
Proof.
  intros H. destruct bound as [m|]; simpl in *; trivial.
  destruct (Qeq_bool m 0); simpl; trivial.
Qed.

Lemma open_le_truthy (bound field : option Q) :
  open_le bound field = true -> open_le (truthy_number bound) field = true.
Proof.
  intros H. destruct bound as [m|]; simpl in *; trivial.
  destruct (Qeq_bool m 0); simpl; trivial.
Qed.

(** A first page that has room for every matching row holds them all. *)
Lemma first_page_holds_every_match (now : Z) (d : Db) (s : select)
    (js : list row) (limit : Z) (r : joined) :
  run_select now d s = Some js ->
  paging_ s = OffsetFetch 0 limit ->
  Z.of_nat (List.length (matching now d s)) <= limit ->
  In r (matching now d s) -> In r (map source js).
Proof.
  intros Hrun Hp Hfit Hin.
  destruct (recordset_cut _ _ _ _ Hrun) as [Hcut _].
  rewrite Hp in Hcut. unfold cut in Hcut.
  destruct ((0 <? 0) || (limit <? 1)); [discriminate|].
  injection Hcut as <-. change (Z.to_nat 0) with 0%nat. cbn [skipn].
  rewrite firstn_all2.
  - unfold ordered. now apply sort_In.
  - unfold ordered. rewrite sort_length. lia.
Qed.

(** C6.  The salary clauses are the only ones that read the salary
    columns, and each lets a row through when its field meets the bound or
    is NULL: on the listing endpoint a row passes the WHERE clause exactly
    when it passes it without the salary bounds and [salary_min] is unset
    or at least the minimum and [salary_max] is unset or at most the
    maximum; on the advanced search likewise for the bounds the body
    gives, so a row whose fields meet the given bounds or are unset is
    never excluded by them.  In particular a row with [salary_min] NULL
    passes a search with [salary_range.min = 50000] exactly when it passes
    the same search without the salary range, and is then among the rows
    the pages of that search are cut from.  So it is with what the two
    routes return: every listing on a returned page meets the bounds or
    has the field unset, and on a first page that has room for every
    match, every joined row that passes the other filters and meets the
    bounds or has the field unset is returned -- a listing without a
    minimum salary among them. *)
Theorem salary_range_is_one_sided_open (now : Z) (r : joined) :
  (forall q,
      matches now (list_where q) r
      = matches now (list_where (without_salary q)) r
        && open_ge (q_salary_min q) (salary_min (fst r))
        && open_le (q_salary_max q) (salary_max (fst r)))
  /\ (forall b sr,
        b_salary_range b = Some sr ->
        matches now (search_where b) r
        = matches now (search_where (without_salary_range b)) r
          && open_ge (truthy_number (min sr)) (salary_min (fst r))
          && open_le (truthy_number (max sr)) (salary_max (fst r)))
  /\ (forall b sr,
        b_salary_range b = Some sr ->
        open_ge (min sr) (salary_min (fst r)) = true ->
        open_le (max sr) (salary_max (fst r)) = true ->
        matches now (search_where b) r
        = matches now (search_where (without_salary_range b)) r)
  /\ (forall b sr,
        b_salary_range b = Some sr ->
        min sr = Some (50000 # 1) -> max sr = None ->
        salary_min (fst r) = None ->
        matches now (search_where b) r
        = matches now (search_where (without_salary_range b)) r)
  /\ (forall user d b sr,
        b_salary_range b = Some sr ->
        min sr = Some (50000 # 1) -> max sr = None ->
        salary_min (fst r) = None ->
        In r (inner_join d) ->
        matches now (search_where (without_salary_range b)) r = true ->
        In r (matching now d (search_statement user b)))
  /\ (forall user q w js,
        jobs_of (fst (get_jobs user q w)) = Some js ->
        (forall x, In x js ->
                   open_ge (q_salary_min q) (salary_min (job x)) = true
                   /\ open_le (q_salary_max q) (salary_max (job x)) = true)
        /\ (default 1 (q_page q) = 1 ->
            Z.of_nat (List.length
                        (matching (clock w) (db w) (list_statement user q)))
            <= default 20 (q_limit q) ->
            In r (inner_join (db w)) ->
            matches (clock w) (list_where (without_salary q)) r = true ->
            open_ge (q_salary_min q) (salary_min (fst r)) = true ->
            open_le (q_salary_max q) (salary_max (fst r)) = true ->
            In r (map source js)))
  /\ (forall user b sr w js,
        b_salary_range b = Some sr ->
        jobs_of (fst (post_search user b w)) = Some js ->
        (forall x, In x js ->
                   open_ge (truthy_number (min sr)) (salary_min (job x))
                   = true
                   /\ open_le (truthy_number (max sr)) (salary_max (job x))
                      = true)
        /\ (default 1 (b_page b) = 1 ->
            Z.of_nat (List.length
                        (matching (clock w) (db w) (search_statement user b)))
            <= default 20 (b_limit b) ->
            In r (inner_join (db w)) ->
            matches (clock w) (search_where (without_salary_range b)) r
            = true ->
            open_ge (min sr) (salary_min (fst r)) = true ->
            open_le (max sr) (salary_max (fst r)) = true ->
            In r (map source js))).
Proof.
  split; [|split; [|split; [|split; [|split; [|split]]]]].
  - intros q. apply list_where_salary.
  - intros b sr Hsr. rewrite search_where_salary, Hsr. apply andb_assoc.
  - intros b sr Hsr Hmin Hmax. rewrite search_where_salary, Hsr.
    rewrite (open_ge_truthy _ _ Hmin), (open_le_truthy _ _ Hmax).
    apply andb_true_r.
  - intros b sr Hsr Hmin Hmax Hnull. rewrite search_where_salary, Hsr.
    rewrite Hmin, Hmax, Hnull. apply andb_true_r.
  - intros user d b sr Hsr Hmin Hmax Hnull Hin Hrest.
    unfold matching. apply filter_In. split; [exact Hin|].
    cbn [where_ search_statement]. rewrite search_where_salary, Hsr.
    rewrite Hmin, Hmax, Hnull, Hrest. reflexivity.
  - intros user q w js Hjs.
    apply get_jobs_inv in Hjs as (_ & Hrun & _). split.
    + intros x Hx.
      destruct (recordset_matches _ _ _ _ Hrun x Hx) as [_ Hm].
      cbn [where_ list_statement] in Hm. rewrite list_where_salary in Hm.
      apply andb_true_iff in Hm as [Hm Hle].
      apply andb_true_iff in Hm as [_ Hge]. now split.
    + intros Hp Hfit Hin Hrest Hge Hle.
      apply (first_page_holds_every_match (clock w) (db w)
               (list_statement user q) js (default 20 (q_limit q)));
        trivial.
      * cbn [paging_ list_statement]. now rewrite Hp.
      * unfold matching. apply filter_In. split; [exact Hin|].
        cbn [where_ list_statement].
        now rewrite list_where_salary, Hrest, Hge, Hle.
  - intros user b sr w js Hsr Hjs.
    apply post_search_inv in Hjs as (_ & Hrun & _). split.
    + intros x Hx.
      destruct (recordset_matches _ _ _ _ Hrun x Hx) as [_ Hm].
      cbn [where_ search_statement] in Hm.
      rewrite search_where_salary, Hsr in Hm.
      apply andb_true_iff in Hm as [_ Hm].
      apply andb_true_iff in Hm as [Hge Hle]. now split.
    + intros Hp Hfit Hin Hrest Hge Hle.
      apply (first_page_holds_every_match (clock w) (db w)
               (search_statement user b) js (default 20 (b_limit b)));
        trivial.
      * cbn [paging_ search_statement]. now rewrite Hp.
      * unfold matching. apply filter_In. split; [exact Hin|].
        cbn [where_ search_statement].
        rewrite search_where_salary, Hsr, Hrest.
        now rewrite (open_ge_truthy _ _ Hge), (open_le_truthy _ _ Hle).
Qed.

Lemma salary_range_is_one_sided_open_witness :
  salary_min Sample.engineer = None
  /\ matches Sample.today (search_where Sample.from_50000)
       (Sample.engineer, Sample.acme)
     = matches Sample.today
         (search_where (without_salary_range Sample.from_50000))
         (Sample.engineer, Sample.acme)
  /\ Sample.ids
       (fst (post_search None Sample.from_50000
               (Sample.world
                  [Sample.engineer; Sample.analyst; Sample.senior] [])))
     = Some [4; 1]
  /\ (exists js,
         jobs_of (fst (post_search None Sample.from_50000
                         (Sample.world
                            [Sample.engineer; Sample.analyst; Sample.senior]
                            [])))
         = Some js
         /\ In (Sample.engineer, Sample.acme) (map source js))
  /\ (exists js,
         jobs_of (fst (get_jobs None Sample.at_least_50000
                         (Sample.world
                            [Sample.engineer; Sample.analyst; Sample.senior]
                            [])))
         = Some js
         /\ In (Sample.engineer, Sample.acme) (map source js)).
Proof.
  split; [reflexivity|].
  destruct (salary_range_is_one_sided_open Sample.today
              (Sample.engineer, Sample.acme))
    as (_ & _ & _ & H & _ & Hlist & Hsearch).
  split; [exact (H Sample.from_50000 _ eq_refl eq_refl eq_refl eq_refl)|].
  split; [reflexivity|]. split.
  - eexists. split; [reflexivity|].
    apply (proj2 (Hsearch None Sample.from_50000 _
                    (Sample.world
                       [Sample.engineer; Sample.analyst; Sample.senior] [])
                    _ eq_refl eq_refl));
      try reflexivity.
    + vm_compute. discriminate.
    + now left.
  - eexists. split; [reflexivity|].
    apply (proj2 (Hlist None Sample.at_least_50000
                    (Sample.world
                       [Sample.engineer; Sample.analyst; Sample.senior] [])
                    _ eq_refl));
      try reflexivity.
    + vm_compute. discriminate.
    + now left.
Defined.

(** ** LIKE and substrings *)

Lemma list_ascii_of_string_app (a b : string) :
  list_ascii_of_string (a ++ b)
  = (list_ascii_of_string a ++ list_ascii_of_string b)%list.
Proof. induction a as [|c a IH]; simpl; [reflexivity|]. now rewrite IH. Qed.

Lemma like_percent (t : list ascii) : like_chars ["%"%char] t = true.
Proof. induction t as [|d t IH]; [reflexivity|exact IH]. Qed.

(** A pattern of literal characters followed by [%]: a prefix test. *)
Lemma like_literal_prefix (k t : list ascii) :
  forallb (fun c => negb (is_wildcard c)) k = true ->
  like_chars (k ++ ["%"%char]) t = starts_with k t.
Proof.
  revert t. induction k as [|c k IH]; intros t Hk.
  - apply like_percent.
  - simpl in Hk. apply andb_true_iff in Hk as [Hc Hk].
    unfold is_wildcard in Hc. apply negb_true_iff in Hc.
    apply orb_false_iff in Hc as [Hc _]. apply orb_false_iff in Hc as [H1 H2].
    cbn [app like_chars]. rewrite H1, H2.
    destruct t as [|d t]; [reflexivity|].
    cbn [orb starts_with]. now rewrite IH.
Qed.

(** [%k%] with [k] literal: a substring test. *)
Lemma like_contains_chars (k t : list ascii) :
  forallb (fun c => negb (is_wildcard c)) k = true ->
  like_chars ("%"%char :: k ++ ["%"%char]) t = occurs_in_chars k t.
Proof.
  intros Hk. cbn [like_chars]. change (Ascii.eqb "%" "%") with true.
  cbv iota.
  induction t as [|d t IH].
  - now rewrite (like_literal_prefix k [] Hk).
  - rewrite (like_literal_prefix k (d :: t) Hk).
    cbn [occurs_in_chars]. now rewrite <- IH.
Qed.

Lemma like_contains (s t : string) :
  literal s = true -> like t (contains s) = occurs_in s t.
Proof.
  intros Hs. unfold like, contains, occurs_in.
  rewrite !list_ascii_of_string_app. now apply like_contains_chars.
Qed.

(** [occurs_in_chars] is the substring relation up to letter case. *)
Lemma starts_with_spec (k t : list ascii) :
  starts_with k t = true
  <-> exists mid post,
        t = (mid ++ post)%list
        /\ Forall2 (fun c d => ci_eqb c d = true) k mid.
Proof.
  revert t. induction k as [|c k IH]; intros t; simpl.
  - split; [|trivial]. intros _. exists [], t. split; [reflexivity|constructor].
  - destruct t as [|d t].
    + split; [discriminate|]. intros (mid & post & E & F).
      inversion F; subst. discriminate.
    + rewrite andb_true_iff, IH. split.
      * intros (Hcd & mid & post & -> & F).
        exists (d :: mid), post. split; [reflexivity|]. now constructor.
      * intros (mid & post & E & F). inversion F as [|? d' ? mid' Hcd F']; subst.
        injection E as -> ->. split; [exact Hcd|]. now exists mid', post.
Qed.

Lemma occurs_in_chars_spec (k t : list ascii) :
  occurs_in_chars k t = true
  <-> exists pre mid post,
        t = (pre ++ mid ++ post)%list
        /\ Forall2 (fun c d => ci_eqb c d = true) k mid.
Proof.
  induction t as [|d t IH]; cbn [occurs_in_chars].
  - rewrite orb_false_r, starts_with_spec. split.
    + intros (mid & post & E & F). now exists [], mid, post.
    + intros (pre & mid & post & E & F). symmetry in E.
      apply app_eq_nil in E as [-> E]. now exists mid, post.
  - rewrite orb_true_iff, IH, starts_with_spec. split.
    + intros [(mid & post & E & F)|(pre & mid & post & E & F)].
      * now exists [], mid, post.
      * exists (d :: pre), mid, post. split; [|exact F]. simpl. now rewrite E.
    + intros (pre & mid & post & E & F). destruct pre as [|p pre].
      * left. now exists mid, post.
      * right. injection E as -> ->. now exists pre, mid, post.
Qed.

(** ** Relevance *)

Lemma is_true_Some (b : bool) : is_true (Some b) = b.
Proof. now destruct b. Qed.

Lemma like_column_title (now : Z) (r : joined) (p : string) :
  is_true (eval_cond now r (Like (Col j_title) p)) = like (title (fst r)) p.
Proof. destruct r. apply is_true_Some. Qed.

Lemma like_column_description (now : Z) (r : joined) (p : string) :
  is_true (eval_cond now r (Like (Col j_description) p))
  = like (description (fst r)) p.
Proof. destruct r. apply is_true_Some. Qed.

Lemma like_column_company_name (now : Z) (r : joined) (p : string) :
  is_true (eval_cond now r (Like (Col c_company_name) p))
  = like (company_name (snd r)) p.
Proof. destruct r. apply is_true_Some. Qed.

Lemma relevance_case_value (now : Z) (r : joined) (s : string) :
  eval_order now r (relevance_case s) = num (tier s r).
Proof.
  unfold relevance_case, tier. cbn [eval_order eval_case].
  rewrite like_column_title, like_column_company_name,
    like_column_description.
  reflexivity.
Qed.

Lemma relevance_order_cmp (now : Z) (s : string) (x y : joined) :
  cmp_keys now (relevance_order s) x y
  = match tier s x ?= tier s y with
    | Eq => posted_date (fst y) ?= posted_date (fst x)
    | c => c
    end.
Proof.
  unfold relevance_order. cbn [cmp_keys directed].
  rewrite !relevance_case_value, vcmp_num.
  destruct (tier s x ?= tier s y); try reflexivity.
  destruct x as [jx cx], y as [jy cy].
  cbn [eval_order eval_term column_value fst].
  rewrite vcmp_num, <- Z.compare_antisym.
  now destruct (posted_date jy ?= posted_date jx).
Qed.

Lemma StronglySorted_later {A : Type} (R : A -> A -> Prop)
    (before after : list A) (y x : A) :
  StronglySorted R (before ++ y :: after) -> In x after -> R y x.
Proof.
  induction before as [|z before IH]; simpl; intros Hs Hin.
  - apply StronglySorted_inv in Hs as [_ Hall].
    rewrite Forall_forall in Hall. now apply Hall.
  - apply StronglySorted_inv in Hs as [Hs _]. now apply IH.
Qed.

(** A row whose title matches is ranked strictly before one that matches
    neither in its title nor in its company name. *)
Lemma title_match_ranks_first (now : Z) (s : string) (x y : joined) :
  like (title (fst x)) (contains s) = true ->
  like (title (fst y)) (contains s) = false ->
  like (company_name (snd y)) (contains s) = false ->
  cmp_keys now (relevance_order s) x y = Lt.
Proof.
  intros Hx Hy1 Hy2. rewrite relevance_order_cmp. unfold tier.
  rewrite Hx, Hy1, Hy2. now destruct (like (description (fst y)) (contains s)).
Qed.

(** C7.  On the advanced search with the relevance sort key (the default)
    and keywords given, the ORDER BY is the tier ascending -- 1 when the
    title matches, else 2 when the company name matches, else 3 when the
    description matches, else 4 -- then [posted_date] descending; the
    result is in that order, so no row whose title matches comes after a
    row that matches only in its description.  Without keywords the ORDER
    BY is [posted_date] descending. *)
Theorem relevance_ranks_by_tier (user : option User) (b : SearchBody)
    (w : World) :
  b_sort_by b = None \/ b_sort_by b = Some "relevance" ->
  (forall s,
      truthy_string (b_keywords b) = Some s ->
      order_ (search_statement user b) = relevance_order s
      /\ (forall r, eval_order (clock w) r (relevance_case s) = num (tier s r))
      /\ (forall x y,
            cmp_keys (clock w) (relevance_order s) x y
            = match tier s x ?= tier s y with
              | Eq => posted_date (fst y) ?= posted_date (fst x)
              | c => c
              end)
      /\ (forall js,
            jobs_of (fst (post_search user b w)) = Some js ->
            StronglySorted
              (not_after (cmp_keys (clock w) (relevance_order s)))
              (map source js)
            /\ forall before y after x,
                 map source js = (before ++ y :: after)%list ->
                 In x after ->
                 like (title (fst x)) (contains s) = true ->
                 like (title (fst y)) (contains s) = false ->
                 like (company_name (snd y)) (contains s) = false ->
                 False))
  /\ (truthy_string (b_keywords b) = None ->
      order_ (search_statement user b) = [(By (Col j_posted_date), DESC)]
      /\ forall js,
           jobs_of (fst (post_search user b w)) = Some js ->
           StronglySorted
             (not_after (cmp_keys (clock w) [(By (Col j_posted_date), DESC)]))
             (map source js)).
Proof.
  intros Hsort.
  assert (order_ (search_statement user b)
          = match truthy_string (b_keywords b) with
            | Some s => relevance_order s
            | None => [(By (Col j_posted_date), DESC)]
            end) as Horder.
  { unfold search_statement. cbn [order_].
    destruct Hsort as [-> | ->]; reflexivity. }
  split.
  - intros s Hs. rewrite Hs in Horder. split; [exact Horder|].
    split; [intros r; apply relevance_case_value|].
    split; [intros x y; apply relevance_order_cmp|].
    intros js Hjs. apply post_search_inv in Hjs as (_ & Hrun & _).
    pose proof (recordset_StronglySorted _ _ _ _ Hrun) as Hsorted.
    rewrite Horder in Hsorted. split; [exact Hsorted|].
    intros before y after x Hsplit Hin Hx Hy1 Hy2.
    rewrite Hsplit in Hsorted.
    apply (StronglySorted_later _ _ _ _ _ Hsorted Hin).
    pose proof (title_match_ranks_first (clock w) s x y Hx Hy1 Hy2) as Hlt.
    pose proof (@rank_flip _ _ (cmp_keys_ranking (clock w) (relevance_order s))
                  x y) as Hflip.
    rewrite Hlt in Hflip. exact Hflip.
  - intros Hs. rewrite Hs in Horder. split; [exact Horder|].
    intros js Hjs. apply post_search_inv in Hjs as (_ & Hrun & _).
    pose proof (recordset_StronglySorted _ _ _ _ Hrun) as Hsorted.
    now rewrite Horder in Hsorted.
Qed.

Lemma relevance_ranks_by_tier_witness :
  title Sample.engineer = "Software Engineer"
  /\ tier "engineer" (Sample.engineer, Sample.acme) = 1
  /\ tier "engineer" (Sample.expired, Sample.acme) = 3
  /\ posted_date Sample.engineer < posted_date Sample.expired
  /\ Sample.ids
       (fst (post_search None Sample.for_engineer
               (Sample.world [Sample.expired; Sample.engineer] [])))
     = Some [1; 2]
  /\ StronglySorted
       (not_after (cmp_keys Sample.today (relevance_order "engineer")))
       [(Sample.engineer, Sample.acme); (Sample.expired, Sample.acme)].
Proof.
  do 5 (split; [reflexivity|]).
  destruct (relevance_ranks_by_tier None Sample.for_engineer
              (Sample.world [Sample.expired; Sample.engineer] [])
              (or_introl eq_refl)) as [Hwith _].
  destruct (Hwith "engineer" eq_refl) as (_ & _ & _ & Hjs).
  exact (proj1 (Hjs _ eq_refl)).
Defined.

(** ** The keywords filter *)

Lemma list_keywords_spec (now : Z) (r : joined) (s : string) :
  is_true (eval_cond now r (list_keywords s))
  = like (title (fst r)) (contains s)
    || like (description (fst r)) (contains s)
    || like (company_name (snd r)) (contains s).
Proof.
  destruct r as [j c]. unfold list_keywords.
  cbn [eval_cond eval_term column_value tv_like fst snd].
  destruct (like (title j) (contains s)),
    (like (description j) (contains s)),
    (like (company_name c) (contains s)); reflexivity.
Qed.

Lemma search_keywords_spec (now : Z) (r : joined) (s : string) :
  is_true (eval_cond now r (search_keywords s))
  = like (title (fst r)) (contains s)
    || like (description (fst r)) (contains s)
    || match requirements (fst r) with
       | Some t => like t (contains s)
       | None => false
       end
    || like (company_name (snd r)) (contains s).
Proof.
  destruct r as [j c]. unfold search_keywords.
  cbn [eval_cond eval_term column_value tv_like fst snd].
  destruct (requirements j) as [t|]; cbn [nullable tv_like];
    [destruct (like t (contains s))|];
    destruct (like (title j) (contains s)),
      (like (description j) (contains s)),
      (like (company_name c) (contains s)); reflexivity.
Qed.

(** C8, as the code has it.  For a keyword text with no [LIKE] wildcard
    in it, a row satisfies the keywords clause of the listing endpoint
    exactly when the text occurs, letter case aside, in its title, its
    description or its company name; the clause of the advanced search is
    satisfied also when the text occurs in its requirements.  The clause
    is in the WHERE clause whenever the keyword text is not empty. *)
Theorem keywords_match_as_substrings (now : Z) (r : joined) (s : string) :
  literal s = true ->
  is_true (eval_cond now r (list_keywords s))
  = occurs_in s (title (fst r))
    || occurs_in s (description (fst r))
    || occurs_in s (company_name (snd r))
  /\ is_true (eval_cond now r (search_keywords s))
     = occurs_in s (title (fst r))
       || occurs_in s (description (fst r))
       || match requirements (fst r) with
          | Some t => occurs_in s t
          | None => false
          end
       || occurs_in s (company_name (snd r))
  /\ (forall q, truthy_string (q_search q) = Some s ->
                In (list_keywords s) (list_where q))
  /\ (forall b, truthy_string (b_keywords b) = Some s ->
                In (search_keywords s) (search_where b)).
Proof.
  intros Hs. split; [|split; [|split]].
  - rewrite list_keywords_spec. now rewrite !(like_contains s _ Hs).
  - rewrite search_keywords_spec. rewrite !(like_contains s _ Hs).
    destruct (requirements (fst r)) as [t|]; [|reflexivity].
    now rewrite (like_contains s t Hs).
  - intros q Hq. unfold list_where. rewrite Hq. simpl. auto.
  - intros b Hb. unfold search_where. rewrite Hb. simpl. auto.
Qed.

Lemma keywords_match_as_substrings_witness :
  is_true (eval_cond Sample.today (Sample.expired, Sample.acme)
             (list_keywords "ENGINEER"))
  = occurs_in "ENGINEER" "Developer"
    || occurs_in "ENGINEER" "We need an engineer"
    || occurs_in "ENGINEER" "Acme"
  /\ occurs_in "ENGINEER" "We need an engineer" = true.
Proof.
  split; [|reflexivity].
  exact (proj1 (keywords_match_as_substrings Sample.today
                  (Sample.expired, Sample.acme) "ENGINEER" eq_refl)).
Defined.

(** C8 as written fails twice over.  The advanced search also matches the
    requirements column: a listing with "python" only in its requirements
    is found by the keyword "python".  And the keyword is a [LIKE]
    pattern: "An_lyst" finds the title "Analyst", of which it is no
    substring. *)
Lemma keywords_match_more_than_the_three_columns :
  requirements Sample.analyst = Some "python"
  /\ occurs_in "python" (title Sample.analyst) = false
  /\ occurs_in "python" (description Sample.analyst) = false
  /\ occurs_in "python" (company_name Sample.acme) = false
  /\ is_true (eval_cond Sample.today (Sample.analyst, Sample.acme)
                (search_keywords "python")) = true
  /\ Sample.ids (fst (post_search None
                        (Sample.sorted_body (Some "python") None None)
                        (Sample.world [Sample.analyst] [])))
     = Some [3]
  /\ occurs_in "An_lyst" (title Sample.analyst) = false
  /\ occurs_in "An_lyst" (description Sample.analyst) = false
  /\ occurs_in "An_lyst" (company_name Sample.acme) = false
  /\ is_true (eval_cond Sample.today (Sample.analyst, Sample.acme)
                (list_keywords "An_lyst")) = true
  /\ Sample.ids (fst (get_jobs None (Sample.searching "An_lyst")
                        (Sample.world [Sample.analyst] [])))
     = Some [3].
Proof. vm_compute. repeat split. Qed.

(** ** The user columns *)

Lemma user_columns_is_jobseeker (user : option User) :
  user_columns user
  = if is_jobseeker user then option_map jobseekerId user else None.
Proof.
  destruct user as [u|]; simpl; [|reflexivity].
  now destruct (String.eqb (userType u) "jobseeker").
Qed.

Section SameRows.
Variables s s' : select.
Hypothesis Hcount : count_over s' = count_over s.
Hypothesis Hwhere : where_ s' = where_ s.
Hypothesis Horder : order_ s' = order_ s.
Hypothesis Hpaging : paging_ s' = paging_ s.
Hypothesis Hnone : user_fields s' = None.

(** Two statements that differ in the user columns only select the
    same rows, in the same order, with the same [total_count]. *)
Lemma run_select_bare (now : Z) (d : Db) :
  run_select now d s' = option_map (map bare) (run_select now d s).
Proof.
  unfold run_select, ordered, matching.
  rewrite Hwhere, Horder, Hpaging.
  destruct (cut (paging_ s) _) as [l|]; simpl; [|reflexivity].
  f_equal. rewrite !map_map. apply map_ext. intros r.
  unfold project, bare. simpl. now rewrite Hcount, Hnone.
Qed.

Lemma executeQuery_bare (w : World) :
  fst (executeQuery (Select s') w)
  = match fst (executeQuery (Select s) w) with
    | Resolved rs => Resolved (map bare rs)
    | Rejected => Rejected
    end.
Proof.
  rewrite !executeQuery_step. destruct (up w); [|reflexivity].
  destruct (hd false (faults w)); [reflexivity|].
  rewrite run_select_bare.
  now destruct (run_select (clock w) (db w) s).
Qed.
End SameRows.

Lemma totalCount_of_bare (rs : list row) :
  totalCount_of (map bare rs) = totalCount_of rs.
Proof. now destruct rs. Qed.

Lemma get_jobs_bare (user : option User) (q : ListQuery) (w : World) :
  fst (get_jobs None q w)
  = match fst (get_jobs user q w) with
    | Success (Listing js p f) => Success (Listing (map bare js) p f)
    | other => other
    end.
Proof.
  unfold get_jobs. destruct (validate_list q); [|reflexivity].
  pose proof (executeQuery_bare (list_statement user q)
                (list_statement None q) eq_refl eq_refl eq_refl eq_refl
                eq_refl w) as H.
  destruct (executeQuery (Select (list_statement None q)) w) as [o0 w0].
  destruct (executeQuery (Select (list_statement user q)) w) as [o1 w1].
  simpl in H. subst o0. destruct o1 as [rs|]; simpl; [|reflexivity].
  unfold listing_pagination. now rewrite totalCount_of_bare.
Qed.

Lemma post_search_bare (user : option User) (b : SearchBody) (w : World) :
  fst (post_search None b w)
  = match fst (post_search user b w) with
    | Success (Search js p f) => Success (Search (map bare js) p f)
    | other => other
    end.
Proof.
  unfold post_search. destruct (validate_search b); [|reflexivity].
  pose proof (executeQuery_bare (search_statement user b)
                (search_statement None b) eq_refl eq_refl eq_refl eq_refl
                eq_refl w) as H.
  destruct (executeQuery (Select (search_statement None b)) w) as [o0 w0].
  destruct (executeQuery (Select (search_statement user b)) w) as [o1 w1].
  simpl in H. subst o0. destruct o1 as [rs|]; simpl; [|reflexivity].
  unfold search_pagination. now rewrite totalCount_of_bare.
Qed.

Lemma rows_annotated_iff_jobseeker (now : Z) (db : Db) (s : select)
    (user : option User) (js : list row) :
  user_fields s = user_columns user ->
  run_select now db s = Some js ->
  Forall (fun r => if is_jobseeker user then annotated r = true
                   else unannotated r = true) js.
Proof.
  intros Hu Hrun. apply Forall_forall. intros r Hin.
  destruct (recordset_user_fields _ _ _ _ Hrun r Hin) as [Ha Hs].
  unfold annotated, unannotated. rewrite Ha, Hs, Hu.
  rewrite user_columns_is_jobseeker.
  destruct (is_jobseeker user) eqn:E; [|reflexivity].
  destruct user; [reflexivity|discriminate].
Qed.

(** C9.  The rows of a response carry [has_applied] and [is_saved]
    exactly when [req.user] is set and its [userType] is [jobseeker];
    with no identity, or another role, no row carries them.  Nothing else
    depends on the identity: the response to the same request without an
    identity is the same response -- same status, same rows in the same
    order, same pagination and echo -- with the two columns taken off. *)
Theorem annotation_only_adds_the_user_columns (user : option User)
    (w : World) :
  (forall q,
      fst (get_jobs None q w)
      = match fst (get_jobs user q w) with
        | Success (Listing js p f) => Success (Listing (map bare js) p f)
        | other => other
        end)
  /\ (forall q js,
        jobs_of (fst (get_jobs user q w)) = Some js ->
        Forall (fun r => if is_jobseeker user then annotated r = true
                         else unannotated r = true) js
        /\ jobs_of (fst (get_jobs None q w)) = Some (map bare js)
        /\ pagination_of (fst (get_jobs None q w))
           = pagination_of (fst (get_jobs user q w)))
  /\ (forall b,
        fst (post_search None b w)
        = match fst (post_search user b w) with
          | Success (Search js p f) => Success (Search (map bare js) p f)
          | other => other
          end)
  /\ (forall b js,
        jobs_of (fst (post_search user b w)) = Some js ->
        Forall (fun r => if is_jobseeker user then annotated r = true
                         else unannotated r = true) js
        /\ jobs_of (fst (post_search None b w)) = Some (map bare js)
        /\ pagination_of (fst (post_search None b w))
           = pagination_of (fst (post_search user b w))).
Proof.
  split; [|split; [|split]].
  - intros q. apply get_jobs_bare.
  - intros q js Hjs. rewrite (get_jobs_bare user q w).
    apply get_jobs_inv in Hjs as (_ & Hrun & ->). split; [|now split].
    apply (rows_annotated_iff_jobseeker (clock w) (db w)
             (list_statement user q) user js); [reflexivity|exact Hrun].
  - intros b. apply post_search_bare.
  - intros b js Hjs. rewrite (post_search_bare user b w).
    apply post_search_inv in Hjs as (_ & Hrun & ->). split; [|now split].
    apply (rows_annotated_iff_jobseeker (clock w) (db w)
             (search_statement user b) user js); [reflexivity|exact Hrun].
Qed.

Lemma annotation_only_adds_the_user_columns_witness :
  option_map (map (fun r => (job_id (job r), has_applied r, is_saved r)))
    (jobs_of (fst (get_jobs (Some Sample.seeker) Sample.any_query
                     (Sample.busy_world [Sample.engineer; Sample.senior] []))))
  = Some [(4, Some 0, Some 1); (1, Some 1, Some 0)]
  /\ option_map (map (fun r => (job_id (job r), has_applied r, is_saved r)))
       (jobs_of (fst (get_jobs None Sample.any_query
                        (Sample.busy_world [Sample.engineer; Sample.senior]
                           []))))
     = Some [(4, None, None); (1, None, None)]
  /\ option_map (map unannotated)
       (jobs_of (fst (get_jobs (Some Sample.recruiter) Sample.any_query
                        (Sample.busy_world [Sample.engineer; Sample.senior]
                           []))))
     = Some [true; true]
  /\ pagination_of
       (fst (get_jobs None Sample.any_query
               (Sample.busy_world [Sample.engineer; Sample.senior] [])))
     = pagination_of
         (fst (get_jobs (Some Sample.seeker) Sample.any_query
                 (Sample.busy_world [Sample.engineer; Sample.senior] []))).
Proof.
  do 3 (split; [reflexivity|]).
  destruct (annotation_only_adds_the_user_columns (Some Sample.seeker)
              (Sample.busy_world [Sample.engineer; Sample.senior] []))
    as (_ & H & _).
  exact (proj2 (proj2 (H Sample.any_query _ eq_refl))).
Defined.

(** ** The view-count update *)

Lemma validate_list_bounds (q : ListQuery) :
  validate_list q = [] ->
  1 <= default 1 (q_page q) /\ 1 <= default 20 (q_limit q) <= 50.
Proof.
  unfold validate_list. intros Hv.
  apply app_eq_nil in Hv as [Hv1 Hv2]. apply app_eq_nil in Hv2 as [Hv2 _].
  unfold isInt in Hv1, Hv2.
  destruct (q_page q) as [p|], (q_limit q) as [l|]; simpl in *; try lia.
  - destruct (1 <=? p) eqn:E1; [|discriminate].
    destruct ((1 <=? l) && (l <=? 50)) eqn:E2; [|discriminate]. lia.
  - destruct (1 <=? p) eqn:E1; [|discriminate]. lia.
  - destruct ((1 <=? l) && (l <=? 50)) eqn:E2; [|discriminate]. lia.
Qed.

(** A validated listing request that the backend serves gets its rows. *)
Lemma list_statement_runs (user : option User) (q : ListQuery) (now : Z)
    (d : Db) :
  validate_list q = [] ->
  exists rs, run_select now d (list_statement user q) = Some rs.
Proof.
  intros Hv. apply validate_list_bounds in Hv as [Hp Hl].
  apply run_select_total. simpl. nia.
Qed.

(** * Further properties of the routes *)

Import Follow Middleware.

(** ** Page size and total *)

Lemma validate_search_bounds (b : SearchBody) :
  validate_search b = [] ->
  1 <= default 1 (b_page b) /\ 1 <= default 20 (b_limit b) <= 50.
Proof.
  unfold validate_search. intros Hv.
  apply app_eq_nil in Hv as [_ Hv]. apply app_eq_nil in Hv as [_ Hv].
  apply app_eq_nil in Hv as [_ Hv]. apply app_eq_nil in Hv as [_ Hv].
  apply app_eq_nil in Hv as [Hv1 Hv2].
  unfold isInt in Hv1, Hv2.
  destruct (b_page b) as [p|], (b_limit b) as [l|]; simpl in *; try lia.
  - destruct (1 <=? p) eqn:E1; [|discriminate].
    destruct ((1 <=? l) && (l <=? 50)) eqn:E2; [|discriminate]. lia.
  - destruct (1 <=? p) eqn:E1; [|discriminate]. lia.
  - destruct ((1 <=? l) && (l <=? 50)) eqn:E2; [|discriminate]. lia.
Qed.

(** A window of [fetch] rows has at most [fetch] rows, and no more than
    the WHERE clause kept. *)
Lemma recordset_length (now : Z) (d : Db) (s : select) (offset fetch : Z)
    (rs : list row) :
  paging_ s = OffsetFetch offset fetch ->
  run_select now d s = Some rs ->
  Z.of_nat (List.length rs) <= fetch
  /\ (List.length rs <= List.length (matching now d s))%nat.
Proof.
  intros Hp Hrun. destruct (recordset_cut _ _ _ _ Hrun) as [Hcut _].
  split.
  - rewrite Hp in Hcut. unfold cut in Hcut.
    destruct ((offset <? 0) || (fetch <? 1)) eqn:E; [discriminate|].
    apply orb_false_iff in E as [_ E]. apply Z.ltb_ge in E.
    injection Hcut as Hcut. apply (f_equal (@List.length joined)) in Hcut.
    rewrite length_firstn, length_map in Hcut. lia.
  - apply cut_length in Hcut. rewrite length_map in Hcut.
    unfold ordered in Hcut. now rewrite sort_length in Hcut.
Qed.

Lemma totalCount_of_recordset (now : Z) (d : Db) (s : select)
    (rs : list row) :
  count_over s = true -> run_select now d s = Some rs -> rs <> [] ->
  totalCount_of rs = Z.of_nat (List.length (matching now d s)).
Proof.
  intros Hc Hrun Hne. destruct rs as [|r rs]; [congruence|]. simpl.
  rewrite (recordset_total_count _ _ _ _ Hrun r (or_introl eq_refl)), Hc.
  reflexivity.
Qed.

(** X1.  A page never holds more rows than [limit], which is at most 50,
    and never more rows than the [total] it reports. *)
Theorem page_holds_at_most_limit_rows (user : option User) (w : World) :
  (forall q js p,
      jobs_of (fst (get_jobs user q w)) = Some js ->
      pagination_of (fst (get_jobs user q w)) = Some p ->
      Z.of_nat (List.length js) <= limit p <= 50
      /\ Z.of_nat (List.length js) <= total p)
  /\ (forall b js p,
        jobs_of (fst (post_search user b w)) = Some js ->
        pagination_of (fst (post_search user b w)) = Some p ->
        Z.of_nat (List.length js) <= limit p <= 50
        /\ Z.of_nat (List.length js) <= total p).
Proof.
  split.
  - intros q js p Hjs Hp. apply get_jobs_inv in Hjs as (Hv & Hrun & E).
    rewrite E in Hp. injection Hp as <-. cbn [limit total listing_pagination].
    apply validate_list_bounds in Hv as [_ Hl].
    destruct (recordset_length (clock w) (db w) (list_statement user q)
                ((default 1 (q_page q) - 1) * default 20 (q_limit q))
                (default 20 (q_limit q)) js eq_refl Hrun) as [H1 H2].
    split; [lia|]. destruct js as [|r js]; [simpl; lia|].
    rewrite (totalCount_of_recordset (clock w) (db w) (list_statement user q)
               _ eq_refl Hrun); [lia|discriminate].
  - intros b js p Hjs Hp. apply post_search_inv in Hjs as (Hv & Hrun & E).
    rewrite E in Hp. injection Hp as <-. cbn [limit total search_pagination].
    apply validate_search_bounds in Hv as [_ Hl].
    destruct (recordset_length (clock w) (db w) (search_statement user b)
                ((default 1 (b_page b) - 1) * default 20 (b_limit b))
                (default 20 (b_limit b)) js eq_refl Hrun) as [H1 H2].
    split; [lia|]. destruct js as [|r js]; [simpl; lia|].
    rewrite (totalCount_of_recordset (clock w) (db w)
               (search_statement user b) _ eq_refl Hrun); [lia|discriminate].
Qed.

Lemma page_holds_at_most_limit_rows_witness :
  Sample.ids (fst (get_jobs None Sample.any_query
                     (Sample.world [Sample.engineer; Sample.senior] [])))
  = Some [4; 1]
  /\ (2 <= 20 <= 50 /\ 2 <= 2).
Proof.
  split; [reflexivity|].
  destruct (page_holds_at_most_limit_rows None
              (Sample.world [Sample.engineer; Sample.senior] [])) as [H _].
  exact (H Sample.any_query _ _ eq_refl eq_refl).
Defined.

(** X2.  On a page that has rows, [total] is the number of rows the WHERE
    clause of the request keeps, and [totalPages] is that number divided
    by [limit], rounded up. *)
Theorem total_counts_the_matching_rows (user : option User) (w : World) :
  (forall q js p,
      jobs_of (fst (get_jobs user q w)) = Some js -> js <> [] ->
      pagination_of (fst (get_jobs user q w)) = Some p ->
      total p = Z.of_nat (List.length
                  (matching (clock w) (db w) (list_statement user q)))
      /\ totalPages p = ceil_div (total p) (limit p)
      /\ total p <= totalPages p * limit p)
  /\ (forall b js p,
        jobs_of (fst (post_search user b w)) = Some js -> js <> [] ->
        pagination_of (fst (post_search user b w)) = Some p ->
        total p = Z.of_nat (List.length
                    (matching (clock w) (db w) (search_statement user b)))
        /\ totalPages p = ceil_div (total p) (limit p)
        /\ total p <= totalPages p * limit p).
Proof.
  split.
  - intros q js p Hjs Hne Hp. apply get_jobs_inv in Hjs as (Hv & Hrun & E).
    rewrite E in Hp. injection Hp as <-.
    cbn [limit total totalPages listing_pagination].
    apply validate_list_bounds in Hv as [_ Hl].
    split; [|split; [reflexivity|apply ceil_div_covers; lia]].
    exact (totalCount_of_recordset (clock w) (db w) (list_statement user q)
             js eq_refl Hrun Hne).
  - intros b js p Hjs Hne Hp. apply post_search_inv in Hjs as (Hv & Hrun & E).
    rewrite E in Hp. injection Hp as <-.
    cbn [limit total totalPages search_pagination].
    apply validate_search_bounds in Hv as [_ Hl].
    split; [|split; [reflexivity|apply ceil_div_covers; lia]].
    exact (totalCount_of_recordset (clock w) (db w)
             (search_statement user b) js eq_refl Hrun Hne).
Qed.

Lemma total_counts_the_matching_rows_witness :
  option_map total
    (pagination_of
       (fst (post_search None Sample.for_engineer
               (Sample.world
                  [Sample.expired; Sample.analyst; Sample.engineer] []))))
  = Some 2
  /\ 2 = Z.of_nat (List.length
           (matching Sample.today
              (Sample.tables [Sample.expired; Sample.analyst; Sample.engineer])
              (search_statement None Sample.for_engineer))).
Proof.
  split; [reflexivity|].
  destruct (total_counts_the_matching_rows None
              (Sample.world [Sample.expired; Sample.analyst; Sample.engineer]
                 [])) as [_ H].
  refine (proj1 (H Sample.for_engineer _ _ eq_refl _ eq_refl)).
  discriminate.
Defined.

Lemma run_select_past_end (now : Z) (d : Db) (s : select)
    (offset fetch : Z) :
  paging_ s = OffsetFetch offset fetch ->
  1 <= fetch ->
  Z.of_nat (List.length (matching now d s)) <= offset ->
  run_select now d s = Some [].
Proof.
  intros Hp Hf Ho. unfold run_select. rewrite Hp. unfold cut.
  assert ((offset <? 0) || (fetch <? 1) = false) as ->.
  { apply orb_false_iff. split; apply Z.ltb_ge; lia. }
  rewrite skipn_past_end; [now rewrite firstn_nil|].
  unfold ordered. rewrite sort_length. lia.
Qed.

(** X3.  A valid request for a page past the last one is served, with
    status 200 and no rows, on both endpoints. *)
Theorem valid_page_past_the_last_is_served_empty (user : option User)
    (w : World) :
  served w ->
  (forall q,
      validate_list q = [] ->
      ceil_div (Z.of_nat (List.length
                  (matching (clock w) (db w) (list_statement user q))))
               (default 20 (q_limit q))
      < default 1 (q_page q) ->
      jobs_of (fst (get_jobs user q w)) = Some []
      /\ http_status (fst (get_jobs user q w)) = 200)
  /\ (forall b,
        validate_search b = [] ->
        ceil_div (Z.of_nat (List.length
                    (matching (clock w) (db w) (search_statement user b))))
                 (default 20 (b_limit b))
        < default 1 (b_page b) ->
        jobs_of (fst (post_search user b w)) = Some []
        /\ http_status (fst (post_search user b w)) = 200).
Proof.
  intros Hs. split.
  - intros q Hv Hpage.
    pose proof (page_past_last_is_empty user q w Hv Hs Hpage) as H.
    split; [exact H|].
    apply get_jobs_inv in H as (_ & _ & ->). reflexivity.
  - intros b Hv Hpage.
    pose proof (validate_search_bounds b Hv) as [Hp Hl].
    set (n := List.length
                (matching (clock w) (db w) (search_statement user b))) in *.
    pose proof (ceil_div_covers (Z.of_nat n) (default 20 (b_limit b))) as Hc.
    assert (run_select (clock w) (db w) (search_statement user b) = Some [])
      as Hrun.
    { apply (run_select_past_end _ _ _
               ((default 1 (b_page b) - 1) * default 20 (b_limit b))
               (default 20 (b_limit b))); [reflexivity|lia|].
      fold n. nia. }
    unfold post_search. rewrite Hv.
    pose proof (executeQuery_served _ _ _ Hs Hrun) as E.
    destruct (executeQuery (Select (search_statement user b)) w) as [o w1].
    simpl in E. subst o. now split.
Qed.

Lemma valid_page_past_the_last_is_served_empty_witness :
  jobs_of (fst (post_search None Sample.body_page_two
                  (Sample.world [Sample.engineer; Sample.senior] [])))
  = Some []
  /\ http_status (fst (post_search None Sample.body_page_two
                         (Sample.world [Sample.engineer; Sample.senior] [])))
     = 200.
Proof.
  destruct (valid_page_past_the_last_is_served_empty None
              (Sample.world [Sample.engineer; Sample.senior] [])
              (conj eq_refl eq_refl))
    as [_ H].
  apply (H Sample.body_page_two eq_refl). reflexivity.
Defined.

(** X4.  Whatever the client sends, every row the listing endpoint
    returns is an active listing whose deadline, if it has one, is not
    before today's midnight; every row the advanced search returns is an
    active listing. *)
Theorem listing_shows_only_open_active_listings (user : option User)
    (w : World) :
  (forall q js r,
      jobs_of (fst (get_jobs user q w)) = Some js -> In r js ->
      lower_string (status (job r)) = "active"
      /\ match application_deadline (job r) with
         | None => True
         | Some deadline => day * (clock w / day) <= deadline
         end)
  /\ (forall b js r,
        jobs_of (fst (post_search user b w)) = Some js -> In r js ->
        lower_string (status (job r)) = "active").
Proof.
  split.
  - intros q js r. apply listing_rows_active_and_open.
  - intros b js r. apply search_rows_active.
Qed.

Lemma listing_shows_only_open_active_listings_witness :
  Sample.ids (fst (get_jobs None Sample.any_query
                     (Sample.world [Sample.expired; Sample.senior] [])))
  = Some [4]
  /\ lower_string (status Sample.senior) = "active"
  /\ application_deadline Sample.senior = None.
Proof.
  split; [reflexivity|].
  destruct (listing_shows_only_open_active_listings None
              (Sample.world [Sample.expired; Sample.senior] [])) as [H _].
  destruct (H Sample.any_query _ _ eq_refl (or_introl eq_refl)) as [Ha _].
  split; [exact Ha|reflexivity].
Defined.

(** ** Validation *)

Lemma isInt_nil (lo : Z) (hi : option Z) (o : option Z) (msg : string) :
  isInt lo hi o msg = []
  <-> forall n, o = Some n ->
        lo <= n /\ match hi with Some h => n <= h | None => True end.
Proof.
  unfold isInt. destruct o as [n|].
  - destruct (lo <=? n) eqn:E1; simpl.
    + destruct hi as [h|].
      * destruct (n <=? h) eqn:E2; split; try discriminate; try reflexivity.
        -- intros _ m [= <-]. lia.
        -- intros H. destruct (H n eq_refl). lia.
      * split; [|reflexivity]. intros _ m [= <-]. split; [lia|exact I].
    + split; [discriminate|]. intros H. destruct (H n eq_refl). lia.
  - split; [|reflexivity]. intros _ n [=].
Qed.

Lemma isIn_nil (values : list string) (o : option string) (msg : string) :
  isIn values o msg = [] <-> forall s, o = Some s -> In s values.
Proof.
  unfold isIn. destruct o as [s|].
  - destruct (existsb (String.eqb s) values) eqn:E.
    + split; [|reflexivity]. intros _ t [= <-].
      apply existsb_exists in E as (x & Hx & Heq).
      apply String.eqb_eq in Heq. now subst.
    + split; [discriminate|]. intros H. exfalso.
      assert (existsb (String.eqb s) values = true) as E'.
      { apply existsb_exists. exists s. split; [now apply H|].
        apply String.eqb_refl. }
      congruence.
  - split; [|reflexivity]. intros _ s [=].
Qed.

Lemma app_nil_iff {A : Type} (l1 l2 : list A) :
  (l1 ++ l2)%list = [] <-> l1 = [] /\ l2 = [].
Proof.
  split; [apply app_eq_nil|]. intros [-> ->]. reflexivity.
Qed.

Lemma int_field_nil (lo : Z) (hi : option Z) (o : option string)
    (msg : string) :
  int_field lo hi o msg = []
  <-> forall s, o = Some s ->
        exists n, int_of_text s = Some n
                  /\ lo <= n
                  /\ match hi with Some h => n <= h | None => True end.
Proof.
  unfold int_field. destruct o as [s|].
  - destruct (int_of_text s) as [n|] eqn:E.
    + rewrite isInt_nil. split.
      * intros H t [= <-]. exists n. split; [exact E|].
        now apply H.
      * intros H m [= <-]. destruct (H s eq_refl) as (n' & E' & Hn).
        rewrite E in E'. injection E' as <-. exact Hn.
    + split; [discriminate|]. intros H.
      destruct (H s eq_refl) as (n & E' & _). congruence.
  - split; [|reflexivity]. intros _ s [=].
Qed.

Lemma numeric_field_nil (o : option string) (msg : string) :
  numeric_field o msg = []
  <-> forall s, o = Some s -> exists x, numeric_of_text s = Some x.
Proof.
  unfold numeric_field. destruct o as [s|].
  - destruct (numeric_of_text s) as [x|] eqn:E.
    + split; [|reflexivity]. intros _ t [= <-]. now exists x.
    + split; [discriminate|]. intros H.
      destruct (H s eq_refl) as (x & E'). congruence.
  - split; [|reflexivity]. intros _ s [=].
Qed.

(** What the chain let through passes as numbers too. *)
Lemma validate_query_read (r : RawQuery) :
  validate_query r = [] -> validate_list (read_query r) = [].
Proof.
  unfold validate_query, validate_list.
  rewrite !app_nil_iff, !int_field_nil, !isInt_nil.
  cbn [read_query q_page q_limit q_job_type q_experience_level
       q_remote_work_option q_sort_by q_sort_order].
  intros (H1 & H2 & H3 & H4 & H5 & _ & _ & H8 & H9).
  repeat split; trivial.
  - destruct (raw_page r) as [s|]; [|discriminate].
    destruct (H1 s eq_refl) as (m & E & Hm & _). congruence.
  - destruct (raw_limit r) as [s|]; [|discriminate].
    destruct (H2 s eq_refl) as (m & E & Hm & _). congruence.
  - destruct (raw_limit r) as [s|]; [|discriminate].
    destruct (H2 s eq_refl) as (m & E & _ & Hm). congruence.
Qed.

(** X5.  The listing endpoint answers 400 exactly when a field of the
    query string fails its validator: [page] is not the text of an
    integer (an optional sign and decimal digits) or is below 1; [limit]
    is not one or is outside 1..50; [salary_min] or [salary_max] is not
    the text of a number (an optional sign, digits, at most one point
    with digits after it); an enumerated field has a value that is not in
    its list.  A field that is absent passes, an empty one does not.  A
    rejected request runs no query: the world is left as it was, and
    every violated field is reported, not only the first.  A request the
    chain lets through is handled with its numbers read and its free
    texts trimmed, and passes as such. *)
Theorem listing_rejects_exactly_the_invalid_requests (user : option User)
    (r : RawQuery) (w : World) :
  (http_status (fst (list_jobs user r w)) = 400
   <-> ~ ((forall s, raw_page r = Some s ->
             exists n, int_of_text s = Some n /\ 1 <= n)
          /\ (forall s, raw_limit r = Some s ->
                exists n, int_of_text s = Some n /\ 1 <= n <= 50)
          /\ (forall s, raw_job_type r = Some s ->
                In s ["Full-time"; "Part-time"; "Contract"; "Internship";
                      "Freelance"])
          /\ (forall s, raw_experience_level r = Some s ->
                In s ["Entry-level"; "Mid-level"; "Senior-level";
                      "Executive"])
          /\ (forall s, raw_remote_work_option r = Some s ->
                In s ["Yes"; "No"; "Hybrid"])
          /\ (forall s, raw_salary_min r = Some s ->
                exists x, numeric_of_text s = Some x)
          /\ (forall s, raw_salary_max r = Some s ->
                exists x, numeric_of_text s = Some x)
          /\ (forall s, raw_sort_by r = Some s ->
                In s ["posted_date"; "salary_min"; "title"; "company_name"])
          /\ (forall s, raw_sort_order r = Some s -> In s ["asc"; "desc"])))
  /\ (http_status (fst (list_jobs user r w)) = 400 ->
      list_jobs user r w = (ValidationFailed (validate_query r), w))
  /\ (http_status (fst (list_jobs user r w)) <> 400 ->
      validate_list (read_query r) = []
      /\ list_jobs user r w = get_jobs user (read_query r) w)
  /\ (forall p l x,
        raw_page r = Some p -> (forall n, int_of_text p = Some n -> n < 1) ->
        raw_limit r = Some l -> (forall n, int_of_text l = Some n -> 50 < n) ->
        raw_salary_min r = Some x -> numeric_of_text x = None ->
        exists between rest,
          validate_query r
          = ("Page must be a positive integer"
             :: "Limit must be between 1 and 50"
             :: between ++ "Invalid value" :: rest)%list).
Proof.
  assert (validate_query r = []
          <-> (forall s, raw_page r = Some s ->
                 exists n, int_of_text s = Some n /\ 1 <= n)
              /\ (forall s, raw_limit r = Some s ->
                    exists n, int_of_text s = Some n /\ 1 <= n <= 50)
              /\ (forall s, raw_job_type r = Some s ->
                    In s ["Full-time"; "Part-time"; "Contract"; "Internship";
                          "Freelance"])
              /\ (forall s, raw_experience_level r = Some s ->
                    In s ["Entry-level"; "Mid-level"; "Senior-level";
                          "Executive"])
              /\ (forall s, raw_remote_work_option r = Some s ->
                    In s ["Yes"; "No"; "Hybrid"])
              /\ (forall s, raw_salary_min r = Some s ->
                    exists x, numeric_of_text s = Some x)
              /\ (forall s, raw_salary_max r = Some s ->
                    exists x, numeric_of_text s = Some x)
              /\ (forall s, raw_sort_by r = Some s ->
                    In s ["posted_date"; "salary_min"; "title";
                          "company_name"])
              /\ (forall s, raw_sort_order r = Some s ->
                    In s ["asc"; "desc"]))
    as Hvalid.
  { unfold validate_query.
    rewrite !app_nil_iff, !int_field_nil, !numeric_field_nil, !isIn_nil.
    split.
    - intros (H1 & H2 & H3 & H4 & H5 & H6 & H7 & H8 & H9).
      repeat split; auto.
      intros s Hs. destruct (H1 s Hs) as (n & E & Hn & _). eauto.
    - intros (H1 & H2 & H3 & H4 & H5 & H6 & H7 & H8 & H9).
      repeat split; auto.
      intros s Hs. destruct (H1 s Hs) as (n & E & Hn). eauto. }
  assert (http_status (fst (list_jobs user r w)) = 400
          <-> validate_query r <> []) as Hstatus.
  { unfold list_jobs. destruct (validate_query r) as [|e es] eqn:V.
    - pose proof (validate_query_read r V) as V'.
      unfold get_jobs. rewrite V'.
      destruct (executeQuery _ w) as [[rs|] w1]; simpl;
        split; try congruence; discriminate.
    - simpl. split; [discriminate|reflexivity]. }
  split; [|split; [|split]].
  - rewrite Hstatus, <- Hvalid. tauto.
  - rewrite Hstatus. unfold list_jobs.
    destruct (validate_query r); [congruence|reflexivity].
  - rewrite Hstatus. intros H.
    assert (validate_query r = []) as V
      by (destruct (validate_query r); [reflexivity|exfalso; now apply H]).
    split; [now apply validate_query_read|].
    unfold list_jobs. now rewrite V.
  - intros p l x Hp Hlow Hl Hhigh Hx Hbad.
    unfold validate_query, int_field, numeric_field, isInt.
    rewrite Hp, Hl, Hx, Hbad.
    assert (match int_of_text p with
            | Some n => if (1 <=? n) && true then []
                        else ["Page must be a positive integer"]
            | None => ["Page must be a positive integer"]
            end = ["Page must be a positive integer"]) as ->.
    { destruct (int_of_text p) as [n|]; [|reflexivity].
      assert ((1 <=? n) = false) as ->
        by (apply Z.leb_gt; now apply Hlow).
      reflexivity. }
    assert (match int_of_text l with
            | Some n => if (1 <=? n) && (n <=? 50) then []
                        else ["Limit must be between 1 and 50"]
            | None => ["Limit must be between 1 and 50"]
            end = ["Limit must be between 1 and 50"]) as ->.
    { destruct (int_of_text l) as [n|]; [|reflexivity].
      assert ((n <=? 50) = false) as ->
        by (apply Z.leb_gt; now apply Hhigh).
      now rewrite andb_false_r. }
    cbn [app]. eexists _, _. do 2 f_equal.
    rewrite !app_assoc. reflexivity.
Qed.

Lemma listing_rejects_exactly_the_invalid_requests_witness :
  list_jobs None (Sample.raw (Some "0") (Some "5.5") (Some "abc"))
    (Sample.world [Sample.engineer] [])
  = (ValidationFailed ["Page must be a positive integer";
                       "Limit must be between 1 and 50"; "Invalid value"],
     Sample.world [Sample.engineer] [])
  /\ http_status
       (fst (list_jobs None (Sample.raw (Some "007") (Some "+5") (Some ".5"))
               (Sample.world [Sample.engineer] [])))
     = 200
  /\ read_query (Sample.raw (Some "007") (Some "+5") (Some ".5"))
     = {| q_page := Some 7; q_limit := Some 5; q_search := None;
          q_location := None; q_job_type := None;
          q_experience_level := None; q_remote_work_option := None;
          q_salary_min := numeric_of_text ".5";
          q_salary_max := None; q_industry := None; q_sort_by := None;
          q_sort_order := None |}
  /\ (forall x, numeric_of_text ".5" = Some x -> (x == 1 # 2)%Q)
  /\ int_of_text "" = None /\ int_of_text "1e2" = None
  /\ numeric_of_text "5." = None /\ numeric_of_text "1.2.3" = None.
Proof.
  split.
  - exact (proj1 (proj2 (listing_rejects_exactly_the_invalid_requests None
             (Sample.raw (Some "0") (Some "5.5") (Some "abc"))
             (Sample.world [Sample.engineer] []))) eq_refl).
  - split; [reflexivity|]. split; [reflexivity|]. split.
    + intros x [= <-]. reflexivity.
    + repeat split.
Defined.

(** ** Failures of the backend *)

Lemma executeQuery_failed (q : statement) (w : World) :
  up w = false \/ hd false (faults w) = true ->
  executeQuery q w
  = (Rejected,
     log "Query execution failed:" (if up w then answered w else opened w)).
Proof.
  rewrite executeQuery_step. intros [H|H].
  - now rewrite H.
  - rewrite H. now destruct (up w).
Qed.

Lemma failed_call_world (w : World) (line : string) :
  log line
    (log "Query execution failed:" (if up w then answered w else opened w))
  = {| db := db w; clock := clock w;
       faults := if up w then tl (faults w) else faults w;
       console :=
         console w
         ++ match pool w with
            | Some (Resolved _) => []
            | Some Rejected => ["Failed to get database connection:"]
            | None =>
                if reachable w then ["Connected to SQL Server database"]
                else ["Database connection failed:";
                      "Failed to get database connection:"]
            end
         ++ ["Query execution failed:"; line];
       pool := Some (if up w then Resolved tt else Rejected);
       reachable := reachable w |}.
Proof.
  unfold log, answered, opened, getDB_lines.
  destruct (up w); cbn [db clock faults console pool reachable];
    now rewrite <- !app_assoc.
Qed.

(** X6.  When the backend fails the primary query -- the pool does not
    come, or the request throws -- each of the three routes answers 500
    with its fixed message and nothing else: no rows, no query text.  The
    tables are untouched and no further query is attempted (the listing
    endpoint starts no view-count update).  The console gets what [getDB]
    wrote -- nothing on a connected pool, the line of [connectDB] on a
    first call that connects, the lines of [connectDB] and [getDB] on a
    first call that does not, the line of [getDB] on a pool that was
    refused earlier -- then the line of [executeQuery] and the line of
    the route.  A pool that did not come stays rejected, and no request
    was made on it. *)
Theorem backend_failure_answers_500 (user : option User) (w : World) :
  up w = false \/ hd false (faults w) = true ->
  let after (route_line : string) :=
    {| db := db w; clock := clock w;
       faults := if up w then tl (faults w) else faults w;
       console :=
         console w
         ++ match pool w with
            | Some (Resolved _) => []
            | Some Rejected => ["Failed to get database connection:"]
            | None =>
                if reachable w then ["Connected to SQL Server database"]
                else ["Database connection failed:";
                      "Failed to get database connection:"]
            end
         ++ ["Query execution failed:"; route_line];
       pool := Some (if up w then Resolved tt else Rejected);
       reachable := reachable w |} in
  (forall q,
      validate_list q = [] ->
      get_jobs user q w = (Failed "Failed to get jobs", after "Get jobs error:"))
  /\ (forall b,
        validate_search b = [] ->
        post_search user b w
        = (Failed "Failed to search jobs", after "Advanced search error:"))
  /\ (forall limit,
        get_trending limit w
        = (Failed "Failed to get trending jobs",
           after "Get trending jobs error:")).
Proof.
  intros Hf after. subst after. cbv beta. split; [|split].
  - intros q Hv. unfold get_jobs. rewrite Hv, (executeQuery_failed _ w Hf).
    now rewrite failed_call_world.
  - intros b Hv. unfold post_search. rewrite Hv, (executeQuery_failed _ w Hf).
    now rewrite failed_call_world.
  - intros limit. unfold get_trending. rewrite (executeQuery_failed _ w Hf).
    now rewrite failed_call_world.
Qed.

Lemma backend_failure_answers_500_witness :
  fst (get_jobs None Sample.any_query
         (Sample.first_call false (Sample.world [Sample.engineer] [])))
  = Failed "Failed to get jobs"
  /\ console (snd (get_jobs None Sample.any_query
                     (Sample.first_call false
                        (Sample.world [Sample.engineer] []))))
     = ["Database connection failed:"; "Failed to get database connection:";
        "Query execution failed:"; "Get jobs error:"]
  /\ console (snd (get_jobs None Sample.any_query
                     (Sample.refused (Sample.world [Sample.engineer] []))))
     = ["Failed to get database connection:";
        "Query execution failed:"; "Get jobs error:"]
  /\ console (snd (get_jobs None Sample.any_query
                     (Sample.world [Sample.engineer] [true])))
     = ["Query execution failed:"; "Get jobs error:"].
Proof.
  rewrite (proj1 (backend_failure_answers_500 None
                    (Sample.first_call false
                       (Sample.world [Sample.engineer] []))
                    (or_introl eq_refl))
             Sample.any_query eq_refl).
  rewrite (proj1 (backend_failure_answers_500 None
                    (Sample.refused (Sample.world [Sample.engineer] []))
                    (or_introl eq_refl))
             Sample.any_query eq_refl).
  rewrite (proj1 (backend_failure_answers_500 None
                    (Sample.world [Sample.engineer] [true])
                    (or_intror eq_refl))
             Sample.any_query eq_refl).
  repeat split.
Defined.

(** ** What the routes write *)

Lemma executeQuery_select_world (s : select) (w w1 : World)
    (rs : list row) :
  executeQuery (Select s) w = (Resolved rs, w1) ->
  w1 = answered w /\ up w = true.
Proof.
  intros E. apply executeQuery_select in E as (_ & _ & -> & [Hu _]).
  now split.
Qed.

(** A second served call finds the pool connected and writes nothing
    while getting it. *)
Lemma answered_answered (w : World) :
  answered (answered w) = with_faults (tl (tl (faults w))) (answered w).
Proof.
  unfold answered, with_faults. cbn [db clock faults console pool reachable
    getDB_lines]. now rewrite app_nil_r.
Qed.

(** The update that follows a served query. *)
Lemma update_after_answer (ids : list Z) (w : World) :
  executeQuery (UpdateViews ids) (answered w)
  = if hd false (tl (faults w))
    then (Rejected,
          log "Query execution failed:"
              (with_faults (tl (tl (faults w))) (answered w)))
    else (Resolved [],
          with_db (run_update ids (db w))
                  (with_faults (tl (tl (faults w))) (answered w))).
Proof.
  rewrite executeQuery_step, up_answered, answered_answered.
  reflexivity.
Qed.

Lemma bump_views_spec (ids : list Z) (j : Job) :
  views_count (bump_views ids j)
  = views_count j + (if existsb (Z.eqb (job_id j)) ids then 1 else 0)
  /\ job_id (bump_views ids j) = job_id j
  /\ company_id (bump_views ids j) = company_id j
  /\ title (bump_views ids j) = title j
  /\ description (bump_views ids j) = description j
  /\ requirements (bump_views ids j) = requirements j
  /\ location (bump_views ids j) = location j
  /\ remote_work_option (bump_views ids j) = remote_work_option j
  /\ salary_min (bump_views ids j) = salary_min j
  /\ salary_max (bump_views ids j) = salary_max j
  /\ job_type (bump_views ids j) = job_type j
  /\ experience_level (bump_views ids j) = experience_level j
  /\ industry (bump_views ids j) = industry j
  /\ posted_date (bump_views ids j) = posted_date j
  /\ application_deadline (bump_views ids j) = application_deadline j
  /\ status (bump_views ids j) = status j
  /\ current_applications (bump_views ids j) = current_applications j.
Proof.
  unfold bump_views. destruct (existsb (Z.eqb (job_id j)) ids); simpl;
    repeat split; lia.
Qed.

Lemma bump_views_none (j : Job) : bump_views [] j = j.
Proof. reflexivity. Qed.

Lemma run_update_none (d : Db) : run_update [] d = d.
Proof.
  unfold run_update. destruct d as [js cs aps ss]. simpl. f_equal.
  rewrite <- (map_id js) at 2. apply map_ext. intros j. apply bump_views_none.
Qed.



(** X8.  The advanced search and the trending route are pure reads: they
    leave the tables as they were in every case and count no view.  When
    they answer they have run exactly one query, and the console has got
    nothing but the line of [connectDB], and that only when the query was
    the first of the process. *)
Theorem search_and_trending_change_no_table (user : option User)
    (w : World) :
  (forall b,
      db (snd (post_search user b w)) = db w
      /\ forall js,
           jobs_of (fst (post_search user b w)) = Some js ->
           console (snd (post_search user b w))
           = (console w
              ++ match pool w with
                 | None => ["Connected to SQL Server database"]
                 | Some _ => []
                 end)%list
           /\ faults (snd (post_search user b w)) = tl (faults w))
  /\ (forall limit,
        db (snd (get_trending limit w)) = db w
        /\ forall js,
             jobs_of (fst (get_trending limit w)) = Some js ->
             console (snd (get_trending limit w))
             = (console w
                ++ match pool w with
                   | None => ["Connected to SQL Server database"]
                   | Some _ => []
                   end)%list
             /\ faults (snd (get_trending limit w)) = tl (faults w)).
Proof.
  assert (forall s rs w1,
             executeQuery (Select s) w = (Resolved rs, w1) ->
             console w1
             = (console w
                ++ match pool w with
                   | None => ["Connected to SQL Server database"]
                   | Some _ => []
                   end)%list
             /\ faults w1 = tl (faults w)) as Hres.
  { intros s rs w1 E. apply executeQuery_select_world in E as [-> Hu].
    cbn [answered console faults]. now rewrite (getDB_lines_up w Hu). }
  split.
  - intros b. unfold post_search.
    destruct (validate_search b); [|split; [reflexivity|discriminate]].
    pose proof (executeQuery_select_db (search_statement user b) w) as Hd.
    destruct (executeQuery (Select (search_statement user b)) w)
      as [[rs|] w1] eqn:E; simpl in *.
    + split; [exact Hd|]. intros js _. exact (Hres _ _ _ E).
    + split; [exact Hd|discriminate].
  - intros limit. unfold get_trending.
    pose proof (executeQuery_select_db
                  (trending_statement (default 10 limit)) w) as Hd.
    destruct (executeQuery (Select (trending_statement (default 10 limit))) w)
      as [[rs|] w1] eqn:E; simpl in *.
    + split; [exact Hd|]. intros js _. exact (Hres _ _ _ E).
    + split; [exact Hd|discriminate].
Qed.

Lemma search_and_trending_change_no_table_witness :
  db (snd (post_search None Sample.any_body
             (Sample.first_call true
                (Sample.world [Sample.expired; Sample.senior]
                   [false; true]))))
  = Sample.tables [Sample.expired; Sample.senior]
  /\ console (snd (post_search None Sample.any_body
                     (Sample.first_call true
                        (Sample.world [Sample.expired; Sample.senior]
                           [false; true]))))
     = ["Connected to SQL Server database"]
  /\ faults (snd (post_search None Sample.any_body
                    (Sample.first_call true
                       (Sample.world [Sample.expired; Sample.senior]
                          [false; true]))))
     = [true].
Proof.
  destruct (search_and_trending_change_no_table None
              (Sample.first_call true
                 (Sample.world [Sample.expired; Sample.senior]
                    [false; true])))
    as [H _].
  destruct (H Sample.any_body) as [Hd Hrest].
  destruct (Hrest _ eq_refl) as [Hc Hf].
  split; [exact Hd|]. split; [exact Hc|exact Hf].
Defined.

(** ** A request after a view-count update *)

Section AfterTheUpdate.
Variables (now : Z) (ids : list Z).

Lemma inner_join_run_update (d : Db) :
  inner_join (run_update ids d) = map (bump_joined ids) (inner_join d).
Proof.
  unfold inner_join, run_update. cbn [Jobs Companies].
  induction (Jobs d) as [|j js IH]; simpl; [reflexivity|].
  rewrite map_app, IH. f_equal.
  destruct (bump_views_spec ids j) as (_ & _ & -> & _).
  rewrite map_map. reflexivity.
Qed.

Lemma column_value_bump (r : joined) (c : column) :
  c <> j_views_count ->
  column_value (bump_joined ids r) c = column_value r c.
Proof.
  destruct r as [j co]. unfold bump_joined, bump_views. cbn [fst snd].
  destruct (existsb (Z.eqb (job_id j)) ids); [|reflexivity].
  destruct c; intros H; try reflexivity. congruence.
Qed.

Lemma eval_term_bump (r : joined) (t : term) :
  term_reads_views t = false ->
  eval_term now (bump_joined ids r) t = eval_term now r t.
Proof.
  induction t as [c|v|s| |n|t IH k|a IHa b IHb]; simpl; intros H;
    try reflexivity.
  - apply column_value_bump. intros ->. discriminate.
  - now rewrite IH.
  - apply orb_false_iff in H as [Ha Hb]. now rewrite IHa, IHb.
Qed.

Lemma eval_cond_bump (r : joined) (c : cond) :
  cond_reads_views c = false ->
  eval_cond now (bump_joined ids r) c = eval_cond now r c.
Proof.
  induction c as [a b|a b|a b|a p|a vs|a|x IHx y IHy]; simpl; intros H;
    try (apply orb_false_iff in H as [Ha Hb]);
    rewrite ?eval_term_bump by assumption; try reflexivity.
  now rewrite IHx, IHy.
Qed.

Lemma matches_bump (cs : list cond) (r : joined) :
  existsb cond_reads_views cs = false ->
  matches now cs (bump_joined ids r) = matches now cs r.
Proof.
  intros H. rewrite !matches_forallb.
  induction cs as [|c cs IH]; simpl in *; [reflexivity|].
  apply orb_false_iff in H as [Hc Hcs].
  now rewrite eval_cond_bump, IH.
Qed.

Lemma eval_case_bump (r : joined) (whens : list (cond * Z)) (otherwise : Z) :
  existsb (fun wn => cond_reads_views (fst wn)) whens = false ->
  eval_case now (bump_joined ids r) whens otherwise
  = eval_case now r whens otherwise.
Proof.
  induction whens as [|[c n] whens IH]; simpl; intros H; [reflexivity|].
  apply orb_false_iff in H as [Hc Hw].
  now rewrite eval_cond_bump, IH.
Qed.

Lemma cmp_keys_bump (keys : order_by) (a b : joined) :
  existsb (fun k => order_reads_views (fst k)) keys = false ->
  cmp_keys now keys (bump_joined ids a) (bump_joined ids b)
  = cmp_keys now keys a b.
Proof.
  induction keys as [|[e dir] keys IH]; simpl; intros H; [reflexivity|].
  apply orb_false_iff in H as [He Hk]. rewrite IH by assumption.
  destruct e as [t|whens otherwise]; simpl in *.
  - now rewrite !eval_term_bump.
  - now rewrite !eval_case_bump.
Qed.
End AfterTheUpdate.

Lemma filter_map_comm {A B : Type} (f : A -> B) (p : B -> bool)
    (l : list A) :
  filter p (map f l) = map f (filter (fun a => p (f a)) l).
Proof.
  induction l as [|a l IH]; simpl; [reflexivity|].
  destruct (p (f a)); simpl; now rewrite IH.
Qed.

Lemma insert_map {A B : Type} (f : A -> B) (cmpA : A -> A -> comparison)
    (cmpB : B -> B -> comparison) (x : A) (l : list A) :
  (forall a b, cmpB (f a) (f b) = cmpA a b) ->
  insert cmpB (f x) (map f l) = map f (insert cmpA x l).
Proof.
  intros H. induction l as [|y l IH]; simpl; [reflexivity|].
  rewrite H. destruct (cmpA x y); simpl; try reflexivity. now rewrite IH.
Qed.

Lemma sort_map {A B : Type} (f : A -> B) (cmpA : A -> A -> comparison)
    (cmpB : B -> B -> comparison) (l : list A) :
  (forall a b, cmpB (f a) (f b) = cmpA a b) ->
  sort cmpB (map f l) = map f (sort cmpA l).
Proof.
  intros H. induction l as [|x l IH]; simpl; [reflexivity|].
  rewrite IH. now apply insert_map.
Qed.

Lemma cut_map {A B : Type} (f : A -> B) (p : paging) (l : list A) :
  cut p (map f l) = option_map (map f) (cut p l).
Proof.
  destruct p as [offset fetch|n]; simpl.
  - destruct ((offset <? 0) || (fetch <? 1)); simpl; [reflexivity|].
    now rewrite skipn_map, firstn_map.
  - destruct (n <? 0); simpl; [reflexivity|]. now rewrite firstn_map.
Qed.

(** A statement that does not read [views_count] selects the same rows in
    the same order after the update; the rows show the new counts. *)
Lemma run_select_after_update (now : Z) (ids : list Z) (d : Db)
    (s : select) :
  select_reads_views s = false ->
  run_select now (run_update ids d) s
  = option_map (map (bump_row ids)) (run_select now d s).
Proof.
  intros H. apply orb_false_iff in H as [Hw Ho].
  assert (matching now (run_update ids d) s
          = map (bump_joined ids) (matching now d s)) as Hm.
  { unfold matching. rewrite inner_join_run_update, filter_map_comm.
    f_equal. apply filter_ext. intros r. now apply matches_bump. }
  assert (ordered now (run_update ids d) s
          = map (bump_joined ids) (ordered now d s)) as Hs.
  { unfold ordered. rewrite Hm. apply sort_map.
    intros a b. now apply cmp_keys_bump. }
  unfold run_select. rewrite Hs, Hm, cut_map, length_map.
  destruct (cut (paging_ s) (ordered now d s)) as [l|]; simpl; [|reflexivity].
  f_equal. rewrite !map_map. apply map_ext. intros [j c].
  unfold project, bump_row, bump_joined. cbn [fst snd job company
    total_count has_applied is_saved].
  destruct (bump_views_spec ids j) as (_ & -> & _). reflexivity.
Qed.

Lemma when_reads_nothing {A : Type} (o : option A) (f : A -> cond) :
  (forall a, cond_reads_views (f a) = false) ->
  existsb cond_reads_views (when_ o f) = false.
Proof. intros H. destruct o; simpl; [now rewrite H|reflexivity]. Qed.

Lemma list_statement_reads_no_views (user : option User) (q : ListQuery) :
  select_reads_views (list_statement user q) = false.
Proof.
  unfold select_reads_views, list_statement. cbn [where_ order_].
  apply orb_false_iff. split.
  - unfold list_where. rewrite !existsb_app.
    rewrite !when_reads_nothing by reflexivity. reflexivity.
  - unfold list_order.
    destruct (String.eqb _ "salary_min"); [reflexivity|].
    destruct (String.eqb _ "title"); [reflexivity|].
    destruct (String.eqb _ "company_name"); reflexivity.
Qed.

Lemma search_statement_reads_no_views (user : option User)
    (b : SearchBody) :
  select_reads_views (search_statement user b) = false.
Proof.
  unfold select_reads_views, search_statement. cbn [where_ order_].
  apply orb_false_iff. split.
  - unfold search_where, salary_range_clauses. rewrite !existsb_app.
    rewrite !when_reads_nothing by reflexivity.
    destruct (b_salary_range b) as [sr|]; [|reflexivity].
    rewrite existsb_app, !when_reads_nothing by reflexivity. reflexivity.
  - unfold search_order.
    destruct (String.eqb _ "posted_date"); [reflexivity|].
    destruct (String.eqb _ "salary"); [reflexivity|].
    destruct (String.eqb _ "company_name"); [reflexivity|].
    destruct (truthy_string (b_keywords b)); reflexivity.
Qed.

Lemma executeQuery_idle (s : select) (w : World) :
  faults w = [] -> up w = true ->
  executeQuery (Select s) w
  = match run_select (clock w) (db w) s with
    | Some rs => (Resolved rs, answered w)
    | None => (Rejected, log "Query execution failed:" (answered w))
    end.
Proof.
  intros Hf Hu. rewrite executeQuery_step, Hu, Hf. reflexivity.
Qed.

Lemma get_jobs_idle (user : option User) (q : ListQuery) (w : World) :
  faults w = [] -> up w = true ->
  fst (get_jobs user q w)
  = match validate_list q with
    | [] =>
        match run_select (clock w) (db w) (list_statement user q) with
        | Some rs => Success (Listing rs (listing_pagination q rs)
                                (echo_list q))
        | None => Failed "Failed to get jobs"
        end
    | errors => ValidationFailed errors
    end.
Proof.
  intros Hf Hu. unfold get_jobs. destruct (validate_list q); [|reflexivity].
  rewrite (executeQuery_idle _ w Hf Hu).
  now destruct (run_select (clock w) (db w) (list_statement user q)).
Qed.

Lemma post_search_idle (user : option User) (b : SearchBody) (w : World) :
  faults w = [] -> up w = true ->
  fst (post_search user b w)
  = match validate_search b with
    | [] =>
        match run_select (clock w) (db w) (search_statement user b) with
        | Some rs => Success (Search rs (search_pagination b rs)
                                (echo_search b))
        | None => Failed "Failed to search jobs"
        end
    | errors => ValidationFailed errors
    end.
Proof.
  intros Hf Hu. unfold post_search.
  destruct (validate_search b); [|reflexivity].
  rewrite (executeQuery_idle _ w Hf Hu).
  now destruct (run_select (clock w) (db w) (search_statement user b)).
Qed.

Lemma get_jobs_up (user : option User) (q : ListQuery) (w : World)
    (js : list row) :
  jobs_of (fst (get_jobs user q w)) = Some js -> up w = true.
Proof.
  unfold get_jobs. destruct (validate_list q); [|discriminate].
  destruct (executeQuery (Select (list_statement user q)) w)
    as [[rs|] w1] eqn:E; [|discriminate].
  intros _. now apply executeQuery_select_world in E as [_ Hu].
Qed.

Lemma totalCount_of_bump (ids : list Z) (rs : list row) :
  totalCount_of (map (bump_row ids) rs) = totalCount_of rs.
Proof. now destruct rs. Qed.

Lemma world_after_listing (user : option User) (q : ListQuery) (w : World)
    (js : list row) :
  faults w = [] ->
  jobs_of (fst (get_jobs user q w)) = Some js ->
  snd (get_jobs user q w)
  = with_db (run_update (map (fun r => job_id (job r)) js) (db w))
            (answered w).
Proof.
  intros Hf Hjs. pose proof (get_jobs_up user q w js Hjs) as Hu.
  unfold get_jobs in *.
  destruct (validate_list q); [|discriminate].
  rewrite (executeQuery_idle _ w Hf Hu) in *.
  destruct (run_select (clock w) (db w) (list_statement user q)) as [rs|];
    [|discriminate].
  cbn [fst snd jobs_of] in *. injection Hjs as ->.
  unfold update_views. destruct js as [|r js].
  - cbn [map]. rewrite run_update_none. unfold with_db, answered.
    cbn [db clock faults console pool reachable]. reflexivity.
  - rewrite update_after_answer, Hf. cbn [tl hd].
    unfold with_db, with_faults, answered.
    cbn [db clock faults console pool reachable]. now rewrite Hf.
Qed.

(** X9.  Counting views changes no result.  After a served listing
    request, any listing request and any advanced search get the status,
    the listings, the order and the pagination they would have got before
    it; the only difference is that the listings of the returned page show
    one view more. *)
Theorem view_counting_changes_no_result (user : option User)
    (q : ListQuery) (w : World) (js : list row) :
  faults w = [] ->
  jobs_of (fst (get_jobs user q w)) = Some js ->
  let ids := map (fun r => job_id (job r)) js in
  let w' := snd (get_jobs user q w) in
  (forall user' q',
      http_status (fst (get_jobs user' q' w'))
      = http_status (fst (get_jobs user' q' w))
      /\ jobs_of (fst (get_jobs user' q' w'))
         = option_map (map (bump_row ids)) (jobs_of (fst (get_jobs user' q' w)))
      /\ pagination_of (fst (get_jobs user' q' w'))
         = pagination_of (fst (get_jobs user' q' w)))
  /\ (forall user' b,
        http_status (fst (post_search user' b w'))
        = http_status (fst (post_search user' b w))
        /\ jobs_of (fst (post_search user' b w'))
           = option_map (map (bump_row ids))
               (jobs_of (fst (post_search user' b w)))
        /\ pagination_of (fst (post_search user' b w'))
           = pagination_of (fst (post_search user' b w))).
Proof.
  intros Hf Hjs ids w'. subst w'.
  pose proof (get_jobs_up user q w js Hjs) as Hu.
  rewrite (world_after_listing user q w js Hf Hjs). fold ids.
  assert (faults (with_db (run_update ids (db w)) (answered w)) = []) as Hf'
    by (cbn [with_db answered faults]; now rewrite Hf).
  split.
  - intros user' q'.
    rewrite (get_jobs_idle user' q' _ Hf' eq_refl),
            (get_jobs_idle user' q' w Hf Hu).
    destruct (validate_list q'); [|now repeat split].
    cbn [with_db answered db clock].
    rewrite (run_select_after_update (clock w) ids (db w) _
               (list_statement_reads_no_views user' q')).
    destruct (run_select (clock w) (db w) (list_statement user' q'))
      as [rs|]; simpl; [|now repeat split].
    unfold listing_pagination. rewrite totalCount_of_bump. now repeat split.
  - intros user' b.
    rewrite (post_search_idle user' b _ Hf' eq_refl),
            (post_search_idle user' b w Hf Hu).
    destruct (validate_search b); [|now repeat split].
    cbn [with_db answered db clock].
    rewrite (run_select_after_update (clock w) ids (db w) _
               (search_statement_reads_no_views user' b)).
    destruct (run_select (clock w) (db w) (search_statement user' b))
      as [rs|]; simpl; [|now repeat split].
    unfold search_pagination. rewrite totalCount_of_bump. now repeat split.
Qed.

Lemma view_counting_changes_no_result_witness :
  option_map (map (fun r => (job_id (job r), views_count (job r))))
    (jobs_of (fst (get_jobs None Sample.any_query
                     (Sample.world [Sample.engineer; Sample.senior] []))))
  = Some [(4, 7); (1, 100)]
  /\ option_map (map (fun r => (job_id (job r), views_count (job r))))
       (jobs_of
          (fst (get_jobs None Sample.any_query
                  (snd (get_jobs None Sample.any_query
                          (Sample.world [Sample.engineer; Sample.senior]
                             []))))))
     = Some [(4, 8); (1, 101)]
  /\ pagination_of
       (fst (get_jobs None Sample.any_query
               (snd (get_jobs None Sample.any_query
                       (Sample.world [Sample.engineer; Sample.senior] [])))))
     = pagination_of
         (fst (get_jobs None Sample.any_query
                 (Sample.world [Sample.engineer; Sample.senior] []))).
Proof.
  do 2 (split; [reflexivity|]).
  destruct (view_counting_changes_no_result None Sample.any_query
              (Sample.world [Sample.engineer; Sample.senior] []) _
              eq_refl eq_refl) as [H _].
  exact (proj2 (proj2 (H None Sample.any_query))).
Defined.

(** ** Paging through a search *)

Lemma chunks_concat {A : Type} (size : nat) (l : list A) (n : nat) :
  (List.length l <= n * size)%nat ->
  List.concat (map (fun k => firstn size (skipn (k * size) l)) (seq 0 n)) = l.
Proof.
  revert l. induction n as [|n IH]; intros l Hl.
  - simpl in *. destruct l; [reflexivity|simpl in Hl; lia].
  - cbn [seq map List.concat]. rewrite <- seq_shift, map_map.
    change (0 * size)%nat with 0%nat. cbn [skipn].
    transitivity (firstn size l ++ skipn size l)%list;
      [|apply firstn_skipn].
    f_equal. etransitivity; [|apply (IH (skipn size l))].
    + f_equal. apply map_ext. intros k. rewrite skipn_skipn.
      f_equal. f_equal. simpl. lia.
    + rewrite length_skipn. simpl in Hl. lia.
Qed.

Lemma pages_without_pool (user : option User) (b : SearchBody) (w : World)
    (n : nat) :
  up w = false -> pages user b w n = repeat None n.
Proof.
  intros Hu. unfold pages.
  rewrite <- (length_seq n 1) at 2. rewrite <- map_const.
  apply map_ext. intros k. unfold post_search.
  destruct (validate_search (with_page (Z.of_nat k) b)); [|reflexivity].
  now rewrite (executeQuery_failed _ w (or_introl Hu)).
Qed.

(** X10.  The pages of a search fit together.  For a valid search asked
    of a world at rest whose pool is there, pages 1 to [n] (with [n]
    pages enough to hold every match) are all served, and their rows one
    after the other are exactly the matching rows in ORDER BY order, each
    once: the windows [(page - 1) * limit .. page * limit) leave no gap
    and no overlap.  (Rows that tie on the sort keys are taken in the
    engine's order, the same from one query to the next.)  Without the
    pool no page is served. *)
Theorem pages_of_a_search_fit_together (user : option User)
    (b : SearchBody) (w : World) (n : nat) :
  faults w = [] ->
  validate_search b = [] ->
  Z.of_nat (List.length
              (matching (clock w) (db w) (search_statement user b)))
  <= Z.of_nat n * default 20 (b_limit b) ->
  (up w = true ->
   exists ps,
     pages user b w n = map Some ps
     /\ map source (List.concat ps)
        = ordered (clock w) (db w) (search_statement user b)
     /\ List.length (List.concat ps)
        = List.length (matching (clock w) (db w) (search_statement user b)))
  /\ (up w = false -> pages user b w n = repeat None n).
Proof.
  intros Hf Hv Hn. split; [intros Hu|intros Hu; apply pages_without_pool;
    exact Hu].
  apply validate_search_bounds in Hv as Hb. destruct Hb as [_ Hl].
  set (L := default 20 (b_limit b)) in *.
  set (s := search_statement user b).
  set (total := Z.of_nat (List.length (matching (clock w) (db w) s))).
  set (rows := ordered (clock w) (db w) s).
  exists (map (fun k => map (project (db w) s total)
                          (firstn (Z.to_nat L)
                             (skipn (Nat.pred k * Z.to_nat L) rows)))
              (seq 1 n)).
  assert (forall k, (1 <= k)%nat ->
            jobs_of (fst (post_search user (with_page (Z.of_nat k) b) w))
            = Some (map (project (db w) s total)
                      (firstn (Z.to_nat L)
                         (skipn (Nat.pred k * Z.to_nat L) rows)))) as Hpage.
  { intros k Hk. rewrite (post_search_idle _ _ w Hf Hu).
    assert (validate_search (with_page (Z.of_nat k) b) = []) as ->.
    { unfold validate_search in *. cbn [with_page b_radius b_remote_only
        b_posted_within_days b_sort_by b_page b_limit].
      apply app_eq_nil in Hv as [H1 Hv]. apply app_eq_nil in Hv as [H2 Hv].
      apply app_eq_nil in Hv as [H3 Hv]. apply app_eq_nil in Hv as [H4 Hv].
      apply app_eq_nil in Hv as [_ H6].
      rewrite H1, H2, H3, H4, H6. unfold isInt.
      assert ((1 <=? Z.of_nat k) = true) as -> by (apply Z.leb_le; lia).
      reflexivity. }
    unfold run_select, cut. cbn [paging_ search_statement with_page b_page
      b_limit default]. fold L.
    assert (((Z.of_nat k - 1) * L <? 0) || (L <? 1) = false) as ->.
    { apply orb_false_iff. split; apply Z.ltb_ge; nia. }
    cbn [option_map jobs_of]. f_equal.
    replace (Z.to_nat ((Z.of_nat k - 1) * L))
      with (Nat.pred k * Z.to_nat L)%nat by nia.
    reflexivity. }
  assert (List.length rows <= n * Z.to_nat L)%nat as Hfit.
  { unfold rows, ordered. rewrite sort_length.
    apply Nat2Z.inj_le. rewrite Nat2Z.inj_mul, Z2Nat.id; [|lia].
    unfold s. exact Hn. }
  split; [|split].
  - unfold pages. rewrite map_map. apply map_ext_in.
    intros k Hk. apply in_seq in Hk. apply Hpage. lia.
  - rewrite concat_map, map_map.
    erewrite map_ext; [|intros k; apply map_source_project].
    rewrite <- seq_shift, map_map. cbn [Nat.pred].
    now apply chunks_concat.
  - rewrite <- (length_map source), concat_map, map_map.
    erewrite map_ext; [|intros k; apply map_source_project].
    rewrite <- seq_shift, map_map. cbn [Nat.pred].
    rewrite chunks_concat by assumption.
    unfold rows, ordered. now rewrite sort_length.
Qed.

Lemma pages_of_a_search_fit_together_witness :
  map (option_map (map (fun r => job_id (job r))))
      (pages None Sample.two_per_page
         (Sample.world [Sample.engineer; Sample.senior; Sample.analyst] [])
         2)
  = [Some [4; 1]; Some [3]]
  /\ exists ps,
       pages None Sample.two_per_page
         (Sample.world [Sample.engineer; Sample.senior; Sample.analyst] [])
         2
       = map Some ps
       /\ map source (List.concat ps)
          = ordered Sample.today
              (Sample.tables [Sample.engineer; Sample.senior; Sample.analyst])
              (search_statement None Sample.two_per_page)
       /\ List.length (List.concat ps) = 3%nat.
Proof.
  split; [reflexivity|].
  apply (pages_of_a_search_fit_together None Sample.two_per_page
           (Sample.world [Sample.engineer; Sample.senior; Sample.analyst] [])
           2 eq_refl eq_refl); [|reflexivity].
  vm_compute. discriminate.
Defined.

(** ** The WHERE clauses in plain terms *)

Lemma is_eq_compare (a b : string) :
  is_eq (String.compare a b) = String.eqb a b.
Proof.
  destruct (String.eqb a b) eqn:E.
  - apply String.eqb_eq in E. subst b.
    assert (String.compare a a = Eq) as ->
      by now apply (String_as_OT.cmp_eq a a).
    reflexivity.
  - destruct (String.compare a b) eqn:C; try reflexivity.
    apply String.compare_eq_iff in C. subst b.
    now rewrite String.eqb_refl in E.
Qed.

Lemma tv_cmp_text (x y : string) :
  tv_cmp is_eq (VText x) (VText y) = Some (same_text x y).
Proof. unfold tv_cmp, vcmp, same_text. now rewrite is_eq_compare. Qed.



Section Meaning.
Variables (now : Z) (j : Job) (c : Company).

Lemma means_active :
  matches now [status_active] (j, c) = same_text (status j) "active".
Proof.
  rewrite matches_forallb. cbn [forallb]. rewrite andb_true_r.
  unfold status_active. cbn [eval_cond eval_term column_value].
  now rewrite tv_cmp_text, is_true_Some.
Qed.

Lemma means_deadline :
  matches now [deadline_open] (j, c)
  = deadline_ok now (application_deadline j).
Proof.
  rewrite matches_forallb. cbn [forallb]. rewrite andb_true_r.
  apply (deadline_open_spec now (j, c)).
Qed.

Lemma means_like (col : column) (field : option string)
    (o : option string) :
  column_value (j, c) col = nullable VText field ->
  matches now (when_ o (fun s => Like (Col col) (contains s))) (j, c)
  = mentions o field.
Proof.
  intros H. rewrite matches_when_. destruct o as [s|]; [|reflexivity].
  cbn [eval_cond eval_term]. rewrite H.
  destruct field; simpl; [apply is_true_Some|reflexivity].
Qed.

Lemma means_equals (col : column) (field : string) (o : option string) :
  column_value (j, c) col = VText field ->
  matches now (when_ o (fun s => Equals (Col col) (Param (VText s)))) (j, c)
  = is_exactly o field.
Proof.
  intros H. rewrite matches_when_. destruct o as [s|]; [|reflexivity].
  cbn [eval_cond eval_term]. rewrite H, tv_cmp_text. apply is_true_Some.
Qed.


Lemma means_list_keywords (o : option string) :
  matches now (when_ o list_keywords) (j, c)
  = match o with
    | Some s => like (title j) (contains s)
                || like (description j) (contains s)
                || like (company_name c) (contains s)
    | None => true
    end.
Proof.
  rewrite matches_when_. destruct o as [s|]; [|reflexivity].
  apply (list_keywords_spec now (j, c)).
Qed.

End Meaning.

(** X11.  The WHERE clause of the listing endpoint is the conjunction of
    its filters and nothing else: a joined row passes exactly when it is
    active, its deadline is unset or not before today, and it meets every
    filter that is present -- the search text in title, description or
    company name; the location and industry texts as substrings (a NULL
    industry never matches); job type, experience level and remote option
    by equality; the salary bounds, open for unset salaries.  An absent or
    empty filter restricts nothing. *)
Theorem listing_where_is_the_conjunction_of_its_filters (now : Z)
    (q : ListQuery) (r : joined) :
  matches now (list_where q) r = listing_filter now q r.
Proof.
  destruct r as [j c]. unfold list_where, listing_filter.
  rewrite !matches_app, means_active, means_deadline, means_list_keywords.
  rewrite (means_like now j c j_location (Some (location j))) by reflexivity.
  rewrite (means_like now j c j_industry (industry j)) by reflexivity.
  rewrite (means_equals now j c j_job_type (job_type j)) by reflexivity.
  rewrite (means_equals now j c j_experience_level (experience_level j))
    by reflexivity.
  rewrite (means_equals now j c j_remote_work_option (remote_work_option j))
    by reflexivity.
  rewrite (matches_salary_min now _ (j, c)), (matches_salary_max now _ (j, c)).
  cbn [fst]. btauto.
Qed.




(** ** The connection pool *)

Lemma getDB_connected (reachable : bool) (st : Connection.State)
    (p : settled unit) :
  Connection.poolPromise st = Some p ->
  Connection.getDB reachable st
  = match p with
    | Resolved pool => (Resolved pool, st)
    | Rejected =>
        (Rejected, Connection.say "Failed to get database connection:" st)
    end.
Proof.
  intros H. unfold Connection.getDB. rewrite H. cbn beta iota.
  rewrite H. destruct p as [[]|]; reflexivity.
Qed.

Lemma calls_connected (flags : list bool) (st : Connection.State)
    (p : settled unit) :
  Connection.poolPromise st = Some p ->
  fst (Connection.calls flags st) = map (fun _ => p) flags
  /\ Connection.connects (snd (Connection.calls flags st))
     = Connection.connects st
  /\ Connection.poolPromise (snd (Connection.calls flags st)) = Some p.
Proof.
  revert st. induction flags as [|r flags IH]; intros st H; simpl.
  - auto.
  - rewrite (getDB_connected r st p H).
    destruct p as [[]|].
    + destruct (IH st H) as (H1 & H2 & H3).
      destruct (Connection.calls flags st) as [results st2]. simpl in *.
      now rewrite H1.
    + destruct (IH (Connection.say "Failed to get database connection:" st) H)
        as (H1 & H2 & H3).
      destruct (Connection.calls flags _) as [results st2]. simpl in *.
      now rewrite H1.
Qed.

(** X13.  The first connection attempt decides every call of [getDB]
    that follows.  From a fresh module, however often [getDB] is called
    and whatever the server would answer later, [connect()] is called
    exactly once, and every call gets the outcome of that one attempt: a
    pool that connected is reused, and a failed attempt is never retried
    -- each later call fails. *)
Theorem first_connection_attempt_decides_all (first : bool)
    (later : list bool) :
  fst (Connection.calls (first :: later) Connection.start)
  = map (fun _ => if first then Resolved tt else Rejected) (first :: later)
  /\ Connection.connects
       (snd (Connection.calls (first :: later) Connection.start)) = 1%nat
  /\ Connection.poolPromise
       (snd (Connection.calls (first :: later) Connection.start))
     = Some (if first then Resolved tt else Rejected).
Proof.
  cbn [Connection.calls].
  destruct first.
  - change (Connection.getDB true Connection.start)
      with (Resolved tt,
            {| Connection.poolPromise := Some (Resolved tt);
               Connection.output := ["Connected to SQL Server database"];
               Connection.connects := 1 |}).
    destruct (calls_connected later
                {| Connection.poolPromise := Some (Resolved tt);
                   Connection.output := ["Connected to SQL Server database"];
                   Connection.connects := 1 |} (Resolved tt) eq_refl)
      as (H1 & H2 & H3).
    destruct (Connection.calls later _) as [results st2]. simpl in *.
    now rewrite H1.
  - change (Connection.getDB false Connection.start)
      with (@Rejected unit,
            {| Connection.poolPromise := Some Rejected;
               Connection.output := ["Database connection failed:";
                                     "Failed to get database connection:"];
               Connection.connects := 1 |}).
    destruct (calls_connected later
                {| Connection.poolPromise := Some Rejected;
                   Connection.output :=
                     ["Database connection failed:";
                      "Failed to get database connection:"];
                   Connection.connects := 1 |} Rejected eq_refl)
      as (H1 & H2 & H3).
    destruct (Connection.calls later _) as [results st2]. simpl in *.
    now rewrite H1.
Qed.

(** [getDB] on the world is [getDB] on the module state alone, fed with
    what the server of the world answers. *)
Lemma getDB_on_the_world (w : World) :
  let st := {| Connection.poolPromise := pool w;
               Connection.output := console w;
               Connection.connects := 0 |} in
  fst (getDB w) = fst (Connection.getDB (reachable w) st)
  /\ pool (snd (getDB w))
     = Connection.poolPromise (snd (Connection.getDB (reachable w) st))
  /\ console (snd (getDB w))
     = Connection.output (snd (Connection.getDB (reachable w) st)).
Proof.
  unfold getDB, connectDB, Connection.getDB, Connection.connectDB,
    Connection.say, log, with_pool.
  destruct w as [d t fs out p r].
  cbn [pool reachable db clock faults console Connection.poolPromise
       Connection.output Connection.connects].
  destruct p as [[[]|]|]; [now repeat split|now repeat split|].
  destruct r; now repeat split.
Qed.

(** ** The authentication middlewares *)

Lemma left_join_In (uid : Z) (owners : list (Z * Z)) (o : option Z) :
  In o (left_join uid owners) ->
  match o with
  | Some i => In (i, uid) owners
  | None => forall i, ~ In (i, uid) owners
  end.
Proof.
  unfold left_join.
  destruct (filter (fun o => snd o =? uid) owners) as [|m ms] eqn:E.
  - intros [<-|[]]. intros i Hin.
    assert (In (i, uid) (filter (fun o => snd o =? uid) owners)) as H.
    { apply filter_In. split; [exact Hin|]. simpl. apply Z.eqb_refl. }
    rewrite E in H. exact H.
  - rewrite <- E. intros H. apply in_map_iff in H as ([i u] & <- & Hin).
    apply filter_In in Hin as [Hin Hu]. simpl in *.
    apply Z.eqb_eq in Hu. now subst.
Qed.

(** The row [getUserById] hands back is a row of [Users] with the id
    asked for, together with a company and a job seeker of that user, or
    NULL where the user has none. *)
Lemma getUserById_found (up : bool) (t : Accounts) (userId : option Z)
    (a : joined_account) :
  getUserById up t userId = Resolved (Some a) ->
  let '(u, c, s) := a in
  up = true /\ userId = Some (user_id u) /\ In u (Users t)
  /\ match c with
     | Some i => In (i, user_id u) (CompanyOwners t)
     | None => forall i, ~ In (i, user_id u) (CompanyOwners t)
     end
  /\ match s with
     | Some i => In (i, user_id u) (SeekerOwners t)
     | None => forall i, ~ In (i, user_id u) (SeekerOwners t)
     end.
Proof.
  unfold getUserById. destruct up; [|discriminate]. intros [= H].
  destruct a as [[u c] s].
  assert (In (u, c, s)
            (flat_map
               (fun u =>
                  flat_map
                    (fun c => map (fun s => (u, c, s))
                                  (left_join (user_id u) (SeekerOwners t)))
                    (left_join (user_id u) (CompanyOwners t)))
               (filter (fun u => match userId with
                                 | Some i => user_id u =? i
                                 | None => false
                                 end)
                       (Users t)))) as Hin.
  { destruct (flat_map _ _) as [|x l]; [discriminate|].
    injection H as ->. now left. }
  apply in_flat_map in Hin as (u' & Hu & Hin).
  apply in_flat_map in Hin as (c' & Hc & Hin).
  apply in_map_iff in Hin as (s' & [= -> -> ->] & Hs).
  apply filter_In in Hu as [Hu Hid].
  destruct userId as [i|]; [|discriminate]. apply Z.eqb_eq in Hid.
  repeat split; trivial.
  - now subst.
  - now apply left_join_In.
  - now apply left_join_In.
Qed.

(** [authenticateToken] answers with 401 or with 500, never otherwise. *)
Lemma authenticateToken_reply_codes (verify : string -> verified)
    (authorization : option string) (up : bool) (t : Accounts)
    (status : Z) (message : string) :
  fst (authenticateToken verify authorization up t) = Reply status message ->
  status = 401 \/ (status = 500 /\ message = "Authentication failed").
Proof.
  unfold authenticateToken.
  destruct (token_of authorization) as [token|]; [|intros [= <- _]; auto].
  destruct (verify token) as [userId|name].
  - destruct (getUserById up t userId) as [[a|]|].
    + destruct (is_verified (fst (fst a))); [discriminate|].
      intros [= <- _]; auto.
    + intros [= <- _]; auto.
    + intros [= <- <-]; auto.
  - destruct (String.eqb name "JsonWebTokenError"); [intros [= <- _]; auto|].
    destruct (String.eqb name "TokenExpiredError"); intros [= <- <-]; auto.
Qed.

Lemma authenticateToken_answer (verify : string -> verified)
    (authorization : option string) (up : bool) (t : Accounts) :
  fst (authenticateToken verify authorization up t)
  = match token_of authorization with
    | None => Reply 401 "Access token required"
    | Some token =>
        match verify token with
        | Throws name =>
            if String.eqb name "JsonWebTokenError"
            then Reply 401 "Invalid token"
            else if String.eqb name "TokenExpiredError"
            then Reply 401 "Token expired"
            else Reply 500 "Authentication failed"
        | Payload userId =>
            match getUserById up t userId with
            | Rejected => Reply 500 "Authentication failed"
            | Resolved None => Reply 401 "User not found"
            | Resolved (Some a) =>
                if is_verified (fst (fst a)) then Next (req_user a)
                else Reply 401 "Please verify your email address"
            end
        end
    end.
Proof.
  unfold authenticateToken.
  destruct (token_of authorization) as [token|]; [|reflexivity].
  destruct (verify token) as [userId|name].
  - destruct (getUserById up t userId) as [[a|]|]; try reflexivity.
    now destruct (is_verified (fst (fst a))).
  - destruct (String.eqb name "JsonWebTokenError"); [reflexivity|].
    now destruct (String.eqb name "TokenExpiredError").
Qed.

Lemma getUserById_rejected (up : bool) (t : Accounts) (userId : option Z) :
  getUserById up t userId = Rejected <-> up = false.
Proof.
  unfold getUserById. destruct up; split; congruence.
Qed.

(** X14.  [authenticateToken] calls [next()] in one case only: the header
    carries a token, [jwt.verify] decodes it, the backend serves the
    lookup, the user with the decoded id exists and is verified; then
    [req.user] is that user's row.  In every other case it answers.  It
    answers 500 'Authentication failed' exactly when there is a token and
    either [jwt.verify] throws something else than its two named errors
    or it decodes the token and the backend fails the lookup; every other
    answer is a 401, whose message names the case: no token, an invalid
    token, an expired token, no such user, an unverified address. *)
Theorem authenticateToken_passes_verified_users_only
    (verify : string -> verified) (authorization : option string)
    (up : bool) (t : Accounts) :
  (forall user,
      fst (authenticateToken verify authorization up t) = Next user
      <-> exists token userId a,
            token_of authorization = Some token
            /\ verify token = Payload userId
            /\ getUserById up t userId = Resolved (Some a)
            /\ is_verified (fst (fst a)) = true
            /\ user = req_user a)
  /\ (forall user,
        fst (authenticateToken verify authorization up t) = Next user ->
        exists u, In u (Users t) /\ is_verified u = true
                  /\ userId user = user_id u /\ email user = acc_email u
                  /\ userType user = user_type u)
  /\ (forall status message,
        fst (authenticateToken verify authorization up t)
        = Reply status message ->
        status = 401
        \/ (status = 500 /\ message = "Authentication failed"))
  /\ ((exists message,
          fst (authenticateToken verify authorization up t)
          = Reply 500 message)
      <-> exists token,
            token_of authorization = Some token
            /\ ((exists name, verify token = Throws name
                              /\ name <> "JsonWebTokenError"
                              /\ name <> "TokenExpiredError")
                \/ (exists userId, verify token = Payload userId
                                   /\ up = false)))
  /\ (fst (authenticateToken verify authorization up t)
      = Reply 401 "Access token required"
      <-> token_of authorization = None)
  /\ (fst (authenticateToken verify authorization up t)
      = Reply 401 "Invalid token"
      <-> exists token, token_of authorization = Some token
                        /\ verify token = Throws "JsonWebTokenError")
  /\ (fst (authenticateToken verify authorization up t)
      = Reply 401 "Token expired"
      <-> exists token, token_of authorization = Some token
                        /\ verify token = Throws "TokenExpiredError")
  /\ (fst (authenticateToken verify authorization up t)
      = Reply 401 "User not found"
      <-> exists token userId,
            token_of authorization = Some token
            /\ verify token = Payload userId
            /\ getUserById up t userId = Resolved None)
  /\ (fst (authenticateToken verify authorization up t)
      = Reply 401 "Please verify your email address"
      <-> exists token userId a,
            token_of authorization = Some token
            /\ verify token = Payload userId
            /\ getUserById up t userId = Resolved (Some a)
            /\ is_verified (fst (fst a)) = false).
Proof.
  assert (forall user,
             fst (authenticateToken verify authorization up t) = Next user
             <-> exists token userId a,
                   token_of authorization = Some token
                   /\ verify token = Payload userId
                   /\ getUserById up t userId = Resolved (Some a)
                   /\ is_verified (fst (fst a)) = true
                   /\ user = req_user a) as Hiff.
  { intros user. unfold authenticateToken. split.
    - destruct (token_of authorization) as [token|]; [|discriminate].
      destruct (verify token) as [userId|name] eqn:Ev.
      + destruct (getUserById up t userId) as [[a|]|] eqn:Eg;
          try discriminate.
        destruct (is_verified (fst (fst a))) eqn:Ei; [|discriminate].
        intros [= <-]. exists token, userId, a. auto.
      + destruct (String.eqb name "JsonWebTokenError"); [discriminate|].
        destruct (String.eqb name "TokenExpiredError"); discriminate.
    - intros (token & userId & a & -> & -> & -> & -> & ->). reflexivity. }
  split; [exact Hiff|]. split; [|split; [|clear Hiff]].
  - intros user H.
    apply Hiff in H as (token & userId & a & _ & _ & Hg & Hv & ->).
    apply getUserById_found in Hg. destruct a as [[u c] s].
    destruct Hg as (_ & _ & Hin & _). exists u. simpl in *. auto.
  - apply authenticateToken_reply_codes.
  - rewrite authenticateToken_answer.
    destruct (token_of authorization) as [token|] eqn:Et;
      [destruct (verify token) as [userId|name] eqn:Ev;
       [pose proof (getUserById_rejected up t userId) as Hrej;
        destruct (getUserById up t userId) as [[a|]|] eqn:Eg;
        [destruct (is_verified (fst (fst a))) eqn:Ei| |]
       |destruct (String.eqb name "JsonWebTokenError") eqn:E1;
        [apply String.eqb_eq in E1
        |apply String.eqb_neq in E1;
         destruct (String.eqb name "TokenExpiredError") eqn:E2;
         [apply String.eqb_eq in E2|apply String.eqb_neq in E2]]]
      |];
      repeat split; intros H; try discriminate H;
      repeat match goal with
             | H : exists _, _ |- _ => destruct H
             | H : _ /\ _ |- _ => destruct H
             | H : _ \/ _ |- _ => destruct H
             | H : Some _ = Some _ |- _ => injection H as H; subst
             end;
      try congruence; try reflexivity;
      try (destruct Hrej as [_ Hrej]; specialize (Hrej eq_refl); congruence);
      eauto 10.
    + exists token. split; [reflexivity|]. right. exists userId.
      split; [exact Ev|]. now apply Hrej.
    + exists token. split; [reflexivity|congruence].
    + exists token. split; [reflexivity|congruence].
Qed.

Lemma authenticateToken_passes_verified_users_only_witness :
  fst (authenticateToken Fixtures.verify (Some "Bearer seeker") true
         Fixtures.accounts)
  = Next {| userId := 7; email := "a@b.c"; userType := "jobseeker";
            companyId := None; jobseekerId := Some 3 |}
  /\ exists u, In u (Users Fixtures.accounts) /\ is_verified u = true
               /\ 7 = user_id u /\ "a@b.c" = acc_email u
               /\ "jobseeker" = user_type u.
Proof.
  split; [reflexivity|].
  exact (proj1 (proj2 (authenticateToken_passes_verified_users_only
                         Fixtures.verify (Some "Bearer seeker") true
                         Fixtures.accounts)) _ eq_refl).
Defined.



Lemma split_space_word (s : string) :
  is_word s = true -> split_space s = [s].
Proof.
  unfold is_word. induction s as [|c s IH]; simpl; [reflexivity|].
  intros H. apply andb_true_iff in H as [Hc Hs].
  apply negb_true_iff in Hc. rewrite Hc, (IH Hs). reflexivity.
Qed.

Lemma split_space_app (s rest : string) :
  is_word s = true ->
  split_space (s ++ String " " rest) = s :: split_space rest.
Proof.
  unfold is_word. induction s as [|c s IH]; simpl; [reflexivity|].
  intros H. apply andb_true_iff in H as [Hc Hs].
  apply negb_true_iff in Hc. rewrite Hc, (IH Hs). reflexivity.
Qed.

(** X16.  The token is the second space-separated word of the
    [Authorization] header, whatever the first word is and whatever
    follows the second: the scheme is never looked at.  A header of one
    word carries no token, and [authenticateToken] answers it with 401
    "Access token required" without calling [jwt.verify]. *)
Theorem token_is_the_second_word_of_the_header (scheme token : string) :
  is_word scheme = true -> is_word token = true -> token <> "" ->
  token_of (Some (scheme ++ " " ++ token)) = Some token
  /\ (forall rest,
        token_of (Some (scheme ++ " " ++ token ++ " " ++ rest))
        = Some token)
  /\ (forall verify up t,
        authenticateToken verify (Some scheme) up t
        = (Reply 401 "Access token required", [])).
Proof.
  intros Hs Ht Hne.
  assert (forall header,
             token_of (Some (scheme ++ String " " header))
             = match nth_error (split_space header) 0 with
               | Some EmptyString | None => None
               | Some t => Some t
               end) as Hhead.
  { intros header. unfold token_of.
    rewrite (split_space_app scheme header Hs). cbn [nth_error].
    destruct scheme; reflexivity. }
  split; [|split].
  - change (scheme ++ " " ++ token) with (scheme ++ String " " token).
    rewrite Hhead, (split_space_word token Ht). cbn [nth_error].
    destruct token; [congruence|reflexivity].
  - intros rest.
    change (scheme ++ " " ++ token ++ " " ++ rest)
      with (scheme ++ String " " (token ++ String " " rest)).
    rewrite Hhead, (split_space_app token rest Ht). cbn [nth_error].
    destruct token; [congruence|reflexivity].
  - intros verify up t. unfold authenticateToken, token_of.
    rewrite (split_space_word scheme Hs). cbn [nth_error].
    destruct scheme; reflexivity.
Qed.

Lemma token_is_the_second_word_of_the_header_witness :
  token_of (Some "Basic seeker") = Some "seeker"
  /\ token_of (Some "Bearer seeker and more") = Some "seeker"
  /\ authenticateToken Fixtures.verify (Some "Basic") true Fixtures.accounts
     = (Reply 401 "Access token required", []).
Proof.
  destruct (token_is_the_second_word_of_the_header "Basic" "seeker"
              eq_refl eq_refl) as (H1 & _ & H3); [discriminate|].
  split; [exact H1|]. split; [reflexivity|].
  exact (H3 Fixtures.verify true Fixtures.accounts).
Defined.

(** X17.  The role guards behind [authenticateToken].  The company
    routes are reached only by a verified user whose type is [company],
    the job-seeker routes only by one whose type is [jobseeker]; a
    credential that opens the one is answered 403 by the other, and 403 is
    given to authenticated users only, never in place of a 401. *)
Theorem role_guards_admit_one_role_each (verify : string -> verified)
    (authorization : option string) (up : bool) (t : Accounts) :
  (forall user,
      company_only verify authorization up t = Next user ->
      fst (authenticateToken verify authorization up t) = Next user
      /\ userType user = "company"
      /\ jobseeker_only verify authorization up t
         = Reply 403 "Job seeker account required")
  /\ (forall user,
        jobseeker_only verify authorization up t = Next user ->
        fst (authenticateToken verify authorization up t) = Next user
        /\ userType user = "jobseeker"
        /\ company_only verify authorization up t
           = Reply 403 "Company account required")
  /\ (forall message,
        company_only verify authorization up t = Reply 403 message
        \/ jobseeker_only verify authorization up t = Reply 403 message ->
        exists user,
          fst (authenticateToken verify authorization up t) = Next user).
Proof.
  unfold company_only, jobseeker_only, requireCompany, requireJobSeeker.
  pose proof (authenticateToken_reply_codes verify authorization up t)
    as Hreply.
  destruct (fst (authenticateToken verify authorization up t))
    as [status message|u] eqn:E.
  - split; [discriminate|]. split; [discriminate|].
    intros m [[= -> _]|[= -> _]];
      destruct (Hreply 403 message eq_refl) as [H|[H _]]; discriminate.
  - split; [|split].
    + intros user. destruct (String.eqb (userType u) "company") eqn:Ec;
        [|discriminate].
      intros [= <-]. apply String.eqb_eq in Ec. rewrite Ec. now repeat split.
    + intros user. destruct (String.eqb (userType u) "jobseeker") eqn:Ej;
        [|discriminate].
      intros [= <-]. apply String.eqb_eq in Ej. rewrite Ej. now repeat split.
    + intros _ _. now exists u.
Qed.

Lemma role_guards_admit_one_role_each_witness :
  company_only Fixtures.verify (Some "Bearer company") true Fixtures.accounts
  = Next {| userId := 8; email := "hr@acme.example"; userType := "company";
            companyId := Some 1; jobseekerId := None |}
  /\ jobseeker_only Fixtures.verify (Some "Bearer company") true
       Fixtures.accounts
     = Reply 403 "Job seeker account required".
Proof.
  split; [reflexivity|].
  destruct (role_guards_admit_one_role_each Fixtures.verify
              (Some "Bearer company") true Fixtures.accounts) as [H _].
  exact (proj2 (proj2 (H _ eq_refl))).
Defined.

(** ** [GET /skills/all] *)










Lemma by_category_then_name_ranking :
  Ranking Skills.by_category_then_name.
Proof.
  apply (ranking_then
           (fun a b => directed ASC
                         (vcmp (Schema.nullable VText (Skills.category a))
                               (Schema.nullable VText (Skills.category b))))
           (fun a b => directed ASC
                         (vcmp (VText (Skills.skill_name a))
                               (VText (Skills.skill_name b))))).
  - apply (ranking_on vcmp vcmp_ranking
             (fun a => Schema.nullable VText (Skills.category a)) ASC).
  - apply (ranking_on vcmp vcmp_ranking
             (fun a => VText (Skills.skill_name a)) ASC).
Qed.

(** X20.  What [GET /skills/all] selects.  Without a [category] in the
    query string, or with an empty one, every skill of the table is
    returned; with one, exactly the skills whose category equals it under
    the collation, so never a skill without a category.  Either way the
    skills come ordered by category, uncategorised first, then by name. *)
Theorem skills_are_selected_by_category (wanted : option string)
    (table : list Skills.Skill) :
  (forall s,
      In s (Skills.select_skills wanted table)
      <-> In s table
          /\ match Jobs.truthy_string wanted, Skills.category s with
             | None, _ => True
             | Some c, Some c' => same_text c' c = true
             | Some _, None => False
             end)
  /\ StronglySorted (not_after Skills.by_category_then_name)
       (Skills.select_skills wanted table)
  /\ (Jobs.truthy_string wanted = None ->
      List.length (Skills.select_skills wanted table) = List.length table).
Proof.
  unfold Skills.select_skills. split; [|split].
  - intros s. rewrite sort_In.
    destruct (Jobs.truthy_string wanted) as [c|]; [|tauto].
    rewrite filter_In.
    destruct (Skills.category s) as [c'|]; cbn [Schema.nullable].
    + rewrite tv_cmp_text, is_true_Some. tauto.
    + simpl. split; [intros [_ H]; discriminate|tauto].
  - apply Sorted_StronglySorted.
    + intros a b c. apply not_after_trans, by_category_then_name_ranking.
    + apply sort_Sorted.
      apply (@rank_flip _ _ by_category_then_name_ranking).
  - intros ->. apply sort_length.
Qed.

Lemma skills_are_selected_by_category_witness :
  map Skills.skill_id (Skills.select_skills (Some "proof") Fixtures.skills)
  = [3; 1]
  /\ List.length (Skills.select_skills (Some "") Fixtures.skills) = 4%nat.
Proof.
  split; [reflexivity|].
  destruct (skills_are_selected_by_category (Some "") Fixtures.skills)
    as (_ & _ & H).
  exact (H eq_refl).
Defined.

(** * The company and detail routes *)

Import Backend.

(** [query] is [executeQuery] on a statement kept as its denotation. *)
Lemma executeQuery_is_query (s : select) (w : World) :
  executeQuery (Select s) w = query (fun now d => run_select now d s) w.
Proof. reflexivity. Qed.

Lemma query_step {A : Type} (run : Z -> Db -> option A) (w : World) :
  query run w
  = if up w then
      if hd false (faults w)
      then (Rejected, log "Query execution failed:" (answered w))
      else match run (clock w) (db w) with
           | Some a => (Resolved a, answered w)
           | None => (Rejected, log "Query execution failed:" (answered w))
           end
    else (Rejected, log "Query execution failed:" (opened w)).
Proof.
  unfold query. rewrite getDB_step.
  destruct (up w) eqn:U; [|reflexivity].
  rewrite (next_call_opened w U).
  destruct (hd false (faults w)); reflexivity.
Qed.

(** A call made after a served one. *)
Lemma query_next {A : Type} (run : Z -> Db -> option A) (w : World) :
  query run (answered w)
  = if hd false (tl (faults w))
    then (Rejected,
          log "Query execution failed:"
              (with_faults (tl (tl (faults w))) (answered w)))
    else match run (clock w) (db w) with
         | Some a =>
             (Resolved a, with_faults (tl (tl (faults w))) (answered w))
         | None =>
             (Rejected,
              log "Query execution failed:"
                  (with_faults (tl (tl (faults w))) (answered w)))
         end.
Proof.
  rewrite query_step, up_answered, answered_answered. reflexivity.
Qed.

(** A call made later on, the pool being connected since. *)
Lemma answered_later (w : World) (fs : list bool) :
  answered (with_faults fs (answered w)) = with_faults (tl fs) (answered w).
Proof.
  unfold answered, with_faults. cbn [db clock faults console pool reachable
    getDB_lines]. now rewrite app_nil_r.
Qed.

Lemma query_later {A : Type} (run : Z -> Db -> option A) (w : World)
    (fs : list bool) :
  query run (with_faults fs (answered w))
  = if hd false fs
    then (Rejected,
          log "Query execution failed:" (with_faults (tl fs) (answered w)))
    else match run (clock w) (db w) with
         | Some a => (Resolved a, with_faults (tl fs) (answered w))
         | None =>
             (Rejected,
              log "Query execution failed:"
                  (with_faults (tl fs) (answered w)))
         end.
Proof.
  rewrite query_step, answered_later. reflexivity.
Qed.

Lemma update_later (ids : list Z) (w : World) (fs : list bool) :
  executeQuery (UpdateViews ids) (with_faults fs (answered w))
  = if hd false fs
    then (Rejected,
          log "Query execution failed:" (with_faults (tl fs) (answered w)))
    else (Resolved [],
          with_db (run_update ids (db w))
                  (with_faults (tl fs) (answered w))).
Proof.
  rewrite executeQuery_step, answered_later. reflexivity.
Qed.

(** What [getDB] wrote before a call failed, in the two ways it can. *)
Lemma console_of_failed_call (w after : World) (line : string) :
  after = (if up w then answered w else opened w) ->
  console (log line (log "Query execution failed:" after))
  = (console w
     ++ match pool w with
        | Some (Resolved _) => []
        | Some Rejected => ["Failed to get database connection:"]
        | None =>
            if reachable w then ["Connected to SQL Server database"]
            else ["Database connection failed:";
                  "Failed to get database connection:"]
        end
     ++ ["Query execution failed:"; line])%list.
Proof. intros ->. now rewrite failed_call_world. Qed.

(** The same for a call that fails after a served one. *)
Lemma console_of_failed_later_call (w : World) (fs : list bool)
    (line : string) :
  up w = true ->
  console (log line (log "Query execution failed:"
                       (with_faults fs (answered w))))
  = (console w
     ++ match pool w with
        | Some (Resolved _) => []
        | Some Rejected => ["Failed to get database connection:"]
        | None =>
            if reachable w then ["Connected to SQL Server database"]
            else ["Database connection failed:";
                  "Failed to get database connection:"]
        end
     ++ ["Query execution failed:"; line])%list.
Proof.
  intros U. cbn [log with_faults answered console]. unfold getDB_lines.
  now rewrite <- !app_assoc.
Qed.

Lemma is_active_same_text (j : Job) :
  is_active j = same_text (status j) "active".
Proof. unfold is_active. now rewrite tv_cmp_text, is_true_Some. Qed.

Lemma latest_first_ranking : Ranking latest_first.
Proof.
  apply (ranking_on vcmp vcmp_ranking (fun j => num (posted_date j)) DESC).
Qed.

Lemma latest_first_not_after (a b : Job) :
  not_after latest_first a b <-> posted_date b <= posted_date a.
Proof.
  unfold not_after, latest_first. rewrite vcmp_num.
  destruct (Z.compare_spec (posted_date a) (posted_date b)); simpl.
  - split; [lia|discriminate].
  - split; [congruence|intros H'; exfalso; lia].
  - split; [lia|discriminate].
Qed.

Lemma StronglySorted_impl {A : Type} (R S : A -> A -> Prop) (l : list A) :
  (forall a b, R a b -> S a b) -> StronglySorted R l -> StronglySorted S l.
Proof.
  intros H. induction 1 as [|a l Hs IH Hall]; constructor; [exact IH|].
  rewrite Forall_forall in *. auto.
Qed.

Lemma StronglySorted_map {A B : Type} (f : A -> B) (R : B -> B -> Prop)
    (l : list A) :
  StronglySorted R (map f l) -> StronglySorted (fun a b => R (f a) (f b)) l.
Proof.
  induction l as [|a l IH]; simpl; intros H; [constructor|].
  apply StronglySorted_inv in H as [Hs Hall]. constructor; [now apply IH|].
  rewrite Forall_forall in *. intros b Hb. apply Hall. now apply in_map.
Qed.

Lemma company_validate_bounds (q : CompanyJobs.PageQuery) :
  CompanyJobs.validate q = [] ->
  1 <= default 1 (CompanyJobs.c_page q)
  /\ 1 <= default 10 (CompanyJobs.c_limit q) <= 50.
Proof.
  unfold CompanyJobs.validate. intros H.
  apply app_nil_iff in H as [Hp Hl].
  rewrite isInt_nil in Hp, Hl.
  destruct q as [[p|] [l|]]; cbn [CompanyJobs.c_page CompanyJobs.c_limit default] in *.
  - destruct (Hp p eq_refl), (Hl l eq_refl). lia.
  - destruct (Hp p eq_refl). lia.
  - destruct (Hl l eq_refl). lia.
  - lia.
Qed.

Lemma get_company_jobs_found (user : option User) (companyId : Z)
    (q : CompanyJobs.PageQuery) (w w' : World) (company : Company)
    (jobs : list CompanyJobs.job_row) (pg : Pagination) :
  CompanyJobs.get_company_jobs user companyId q w
  = (CompanyJobs.Found company jobs pg, w') ->
  CompanyJobs.validate q = []
  /\ (exists rest,
         filter (fun c => c_company_id c =? companyId) (Companies (db w))
         = company :: rest)
  /\ CompanyJobs.select_company_jobs user companyId
       ((default 1 (CompanyJobs.c_page q) - 1)
        * default 10 (CompanyJobs.c_limit q))
       (default 10 (CompanyJobs.c_limit q)) (clock w) (db w)
     = Some jobs
  /\ pg = {| page := default 1 (CompanyJobs.c_page q);
             limit := default 10 (CompanyJobs.c_limit q);
             total := match jobs with
                      | r :: _ => CompanyJobs.its_total_count r
                      | [] => 0
                      end;
             totalPages :=
               ceil_div match jobs with
                        | r :: _ => CompanyJobs.its_total_count r
                        | [] => 0
                        end
                        (default 10 (CompanyJobs.c_limit q)) |}.
Proof.
  unfold CompanyJobs.get_company_jobs.
  destruct (CompanyJobs.validate q) eqn:V; [|discriminate].
  rewrite query_step. destruct (up w); [|discriminate].
  destruct (hd false (faults w)); [discriminate|].
  unfold CompanyJobs.select_company at 1.
  destruct (filter _ (Companies (db w))) as [|c rest] eqn:F; [discriminate|].
  rewrite query_next.
  destruct (hd false (tl (faults w))); [discriminate|].
  destruct (CompanyJobs.select_company_jobs _ _ _ _ _ _) as [rs|] eqn:S;
    [|discriminate].
  intros [= <- <- <- _]. repeat split. now exists rest.
Qed.

(** X21.  [GET /company/:companyId] answers 404 'Company not found'
    exactly when [Companies] holds no row with that id -- whatever
    listings name the id -- and then it has run one query only and left
    the tables alone; the console has got nothing but the line of
    [connectDB], and that only when the lookup was the first query of the
    process. *)
Theorem company_jobs_need_a_known_company (user : option User)
    (companyId : Z) (q : CompanyJobs.PageQuery) (w : World) :
  CompanyJobs.validate q = [] ->
  served w ->
  (fst (CompanyJobs.get_company_jobs user companyId q w)
   = CompanyJobs.NotFound "Company not found"
   <-> forall c, In c (Companies (db w)) -> c_company_id c <> companyId)
  /\ ((forall c, In c (Companies (db w)) -> c_company_id c <> companyId) ->
      db (snd (CompanyJobs.get_company_jobs user companyId q w)) = db w
      /\ faults (snd (CompanyJobs.get_company_jobs user companyId q w))
         = tl (faults w)
      /\ console (snd (CompanyJobs.get_company_jobs user companyId q w))
         = (console w
            ++ match pool w with
               | None => ["Connected to SQL Server database"]
               | Some _ => []
               end)%list).
Proof.
  intros V [Hu Hs].
  unfold CompanyJobs.get_company_jobs. rewrite V, query_step, Hu, Hs.
  unfold CompanyJobs.select_company.
  destruct (filter _ (Companies (db w))) as [|c rest] eqn:F.
  - assert (forall c, In c (Companies (db w)) -> c_company_id c <> companyId)
      as Hnone.
    { intros c Hc E. apply Z.eqb_eq in E.
      assert (In c (filter (fun c => c_company_id c =? companyId)
                           (Companies (db w)))) as Hin
        by (apply filter_In; tauto).
      rewrite F in Hin. destruct Hin. }
    cbn [fst snd answered db faults console].
    rewrite (getDB_lines_up w Hu). tauto.
  - assert (In c (Companies (db w)) /\ c_company_id c = companyId) as [Hc E].
    { assert (In c (filter (fun c => c_company_id c =? companyId)
                           (Companies (db w)))) as Hin
        by (rewrite F; now left).
      apply filter_In in Hin as [Hin E]. apply Z.eqb_eq in E. tauto. }
    split.
    + split.
      * destruct (query _ (answered w)) as [[rs|] w2]; discriminate.
      * intros H. destruct (H c Hc E).
    + intros H. destruct (H c Hc E).
Qed.

Lemma company_jobs_need_a_known_company_witness :
  fst (CompanyJobs.get_company_jobs None 3 Sample.first_page
         (Sample.first_call true (Sample.two_companies [])))
  = CompanyJobs.NotFound "Company not found"
  /\ console (snd (CompanyJobs.get_company_jobs None 3 Sample.first_page
                     (Sample.first_call true (Sample.two_companies []))))
     = ["Connected to SQL Server database"].
Proof.
  destruct (company_jobs_need_a_known_company None 3 Sample.first_page
              (Sample.first_call true (Sample.two_companies [])) eq_refl
              (conj eq_refl eq_refl)) as [Hiff Hworld].
  assert (forall c,
             In c (Companies (db (Sample.first_call true
                                    (Sample.two_companies [])))) ->
             c_company_id c <> 3) as Hnone
    by (intros c [<-|[<-|[]]]; discriminate).
  split; [now apply Hiff|]. now destruct (Hworld Hnone) as (_ & _ & ->).
Defined.

(** X22.  What [GET /company/:companyId] returns with a 200: the company
    is the row of [Companies] with the requested id; every job on the
    page is a row of [Jobs] of that company whose status is 'active'
    under the collation; the page runs from the latest [posted_date] to
    the earliest; and it holds at most [limit] rows, where [limit] is the
    requested one or 10 -- not the 20 of the listing endpoint -- and never
    more than 50. *)
Theorem company_jobs_are_its_active_listings (user : option User)
    (companyId : Z) (q : CompanyJobs.PageQuery) (w w' : World)
    (company : Company) (jobs : list CompanyJobs.job_row)
    (pg : Pagination) :
  CompanyJobs.get_company_jobs user companyId q w
  = (CompanyJobs.Found company jobs pg, w') ->
  (In company (Companies (db w)) /\ c_company_id company = companyId)
  /\ (forall r, In r jobs ->
        In (CompanyJobs.the_job r) (Jobs (db w))
        /\ company_id (CompanyJobs.the_job r) = companyId
        /\ same_text (status (CompanyJobs.the_job r)) "active" = true)
  /\ StronglySorted
       (fun a b => posted_date (CompanyJobs.the_job b)
                   <= posted_date (CompanyJobs.the_job a)) jobs
  /\ Z.of_nat (List.length jobs) <= limit pg <= 50
  /\ limit pg = default 10 (CompanyJobs.c_limit q).
Proof.
  intros H.
  apply get_company_jobs_found in H as (V & [rest F] & S & ->).
  apply company_validate_bounds in V as [Hp Hl].
  unfold CompanyJobs.select_company_jobs in S.
  set (offset := (default 1 (CompanyJobs.c_page q) - 1)
                 * default 10 (CompanyJobs.c_limit q)) in *.
  set (lim := default 10 (CompanyJobs.c_limit q)) in *.
  destruct (cut (OffsetFetch offset lim)
                (sort latest_first
                      (CompanyJobs.company_matching companyId (db w))))
    as [js|] eqn:C; [|discriminate].
  injection S as <-.
  assert (forall j, In j js ->
            In j (CompanyJobs.company_matching companyId (db w))) as Hin.
  { intros j Hj. apply (cut_In _ _ _ _ C) in Hj.
    now apply sort_In in Hj. }
  split; [|split; [|split; [|split]]].
  - assert (In company (filter (fun c => c_company_id c =? companyId)
                               (Companies (db w)))) as Hc
      by (rewrite F; now left).
    apply filter_In in Hc as [Hc E]. apply Z.eqb_eq in E. tauto.
  - intros r Hr. apply in_map_iff in Hr as (j & <- & Hj).
    cbn [CompanyJobs.the_job]. apply Hin in Hj.
    unfold CompanyJobs.company_matching in Hj.
    apply filter_In in Hj as [Hj E]. apply andb_true_iff in E as [E1 E2].
    apply Z.eqb_eq in E1. rewrite is_active_same_text in E2. tauto.
  - apply StronglySorted_map
      with (f := CompanyJobs.the_job)
           (R := fun a b => posted_date b <= posted_date a).
    rewrite map_map. cbn [CompanyJobs.the_job]. rewrite map_id.
    apply StronglySorted_impl with (R := not_after latest_first).
    + intros a b. apply latest_first_not_after.
    + apply Sorted_StronglySorted.
      * intros a b c. apply not_after_trans, latest_first_ranking.
      * apply (cut_Sorted _ _ _ _ (sort_Sorted latest_first
                 (@rank_flip _ _ latest_first_ranking) _) C).
  - cbn [limit]. rewrite length_map. split; [|lia].
    unfold cut in C.
    destruct ((offset <? 0) || (lim <? 1)); [discriminate|].
    injection C as <-. rewrite length_firstn. lia.
  - reflexivity.
Qed.

Lemma company_jobs_are_its_active_listings_witness :
  exists company jobs pg w',
    CompanyJobs.get_company_jobs None 1 Sample.first_page
      (Sample.two_companies [])
    = (CompanyJobs.Found company jobs pg, w')
    /\ map (fun r => job_id (CompanyJobs.the_job r)) jobs = [4; 2; 1; 3]
    /\ limit pg = 10.
Proof.
  eexists _, _, _, _. split; [reflexivity|]. split; [reflexivity|].
  eapply (company_jobs_are_its_active_listings None 1 Sample.first_page
            (Sample.two_companies [])).
  reflexivity.
Defined.

(** X23.  [GET /company/:companyId] has no deadline clause: on the first
    page, when the company's active listings fit on it, every one of them
    is returned, whether its [application_deadline] is unset, ahead or
    past.  On a page with rows, [total] is the number of the company's
    active listings. *)
Theorem company_jobs_list_expired_listings_too (user : option User)
    (companyId : Z) (q : CompanyJobs.PageQuery) (w w' : World)
    (company : Company) (jobs : list CompanyJobs.job_row)
    (pg : Pagination) :
  CompanyJobs.get_company_jobs user companyId q w
  = (CompanyJobs.Found company jobs pg, w') ->
  (jobs <> [] ->
   total pg
   = Z.of_nat (List.length (CompanyJobs.company_matching companyId (db w))))
  /\ (default 1 (CompanyJobs.c_page q) = 1 ->
      Z.of_nat (List.length (CompanyJobs.company_matching companyId (db w)))
      <= limit pg ->
      forall j, In j (Jobs (db w)) ->
                company_id j = companyId ->
                same_text (status j) "active" = true ->
                In j (map CompanyJobs.the_job jobs)).
Proof.
  intros H.
  apply get_company_jobs_found in H as (V & _ & S & ->).
  unfold CompanyJobs.select_company_jobs in S.
  set (rows := CompanyJobs.company_matching companyId (db w)) in *.
  destruct (cut _ (sort latest_first rows)) as [js|] eqn:C; [|discriminate].
  injection S as <-. split.
  - destruct js as [|j js]; [now intros []|]. reflexivity.
  - cbn [limit]. intros Hp Hfit j Hj Hc Ha.
    rewrite map_map. cbn [CompanyJobs.the_job]. rewrite map_id.
    rewrite Hp in C. change ((1 - 1) * _) with 0 in C.
    unfold cut in C.
    destruct ((0 <? 0) || _); [discriminate|]. injection C as <-.
    change (Z.to_nat 0) with 0%nat. cbn [skipn].
    rewrite firstn_all2 by (rewrite sort_length; lia).
    apply sort_In. unfold rows, CompanyJobs.company_matching.
    apply filter_In. split; [exact Hj|].
    rewrite is_active_same_text, Ha, andb_true_r. now apply Z.eqb_eq.
Qed.

Lemma company_jobs_list_expired_listings_too_witness :
  exists company jobs pg w',
    CompanyJobs.get_company_jobs None 1 Sample.first_page
      (Sample.two_companies [])
    = (CompanyJobs.Found company jobs pg, w')
    /\ Sample.today > 50 * day
    /\ In Sample.expired (map CompanyJobs.the_job jobs)
    /\ total pg = 4.
Proof.
  eexists _, _, _, _. split; [reflexivity|]. split; [reflexivity|].
  destruct (company_jobs_list_expired_listings_too None 1 Sample.first_page
              (Sample.two_companies []) _ _ _ _ eq_refl) as [Ht Hall].
  split.
  - apply Hall; try reflexivity.
    + vm_compute. discriminate.
    + right. now left.
  - rewrite Ht; [reflexivity|discriminate].
Defined.

Lemma select_company_jobs_runs (user : option User) (companyId : Z)
    (q : CompanyJobs.PageQuery) (now : Z) (d : Db) :
  CompanyJobs.validate q = [] ->
  exists rs,
    CompanyJobs.select_company_jobs user companyId
      ((default 1 (CompanyJobs.c_page q) - 1)
       * default 10 (CompanyJobs.c_limit q))
      (default 10 (CompanyJobs.c_limit q)) now d
    = Some rs.
Proof.
  intros V. apply company_validate_bounds in V as [Hp Hl].
  unfold CompanyJobs.select_company_jobs, cut.
  assert (((default 1 (CompanyJobs.c_page q) - 1)
           * default 10 (CompanyJobs.c_limit q) <? 0) = false) as ->
    by (apply Z.ltb_ge; nia).
  assert ((default 10 (CompanyJobs.c_limit q) <? 1) = false) as ->
    by (apply Z.ltb_ge; lia).
  simpl. eauto.
Qed.

(** X24.  A valid request to [GET /company/:companyId] is answered 500
    only when the backend fails one of its calls: the pool does not come,
    the company lookup throws, or -- for a company that exists -- the
    jobs query throws.  The statement itself is never refused, since
    validation keeps [OFFSET] at 0 or more and [FETCH NEXT] between 1 and
    50.  The 500 carries the fixed message and the tables are as before.
    The console gets what [getDB] wrote for the first call (nothing on a
    connected pool, the line of [connectDB] on a first call that
    connects, the lines of [connectDB] and [getDB] on one that does not,
    the line of [getDB] on a pool refused earlier), then the line of
    [executeQuery] and the line of the route. *)
Theorem company_route_fails_only_with_the_backend (user : option User)
    (companyId : Z) (q : CompanyJobs.PageQuery) (w : World) :
  CompanyJobs.validate q = [] ->
  ((exists m, fst (CompanyJobs.get_company_jobs user companyId q w)
              = CompanyJobs.Failed m)
   <-> up w = false
       \/ hd false (faults w) = true
       \/ ((exists c, In c (Companies (db w)) /\ c_company_id c = companyId)
           /\ hd false (tl (faults w)) = true))
  /\ ((exists m, fst (CompanyJobs.get_company_jobs user companyId q w)
                 = CompanyJobs.Failed m) ->
      fst (CompanyJobs.get_company_jobs user companyId q w)
      = CompanyJobs.Failed "Failed to get company jobs"
      /\ db (snd (CompanyJobs.get_company_jobs user companyId q w)) = db w
      /\ console (snd (CompanyJobs.get_company_jobs user companyId q w))
         = (console w
            ++ match pool w with
               | Some (Resolved _) => []
               | Some Rejected => ["Failed to get database connection:"]
               | None =>
                   if reachable w
                   then ["Connected to SQL Server database"]
                   else ["Database connection failed:";
                         "Failed to get database connection:"]
               end
            ++ ["Query execution failed:"; "Get jobs by company error:"])%list).
Proof.
  intros V.
  destruct (select_company_jobs_runs user companyId q (clock w) (db w) V)
    as [rs S].
  unfold CompanyJobs.get_company_jobs. rewrite V, query_step.
  destruct (up w) eqn:U.
  2:{ cbn [fst snd].
      rewrite (console_of_failed_call w (opened w)) by now rewrite U.
      split; [split; eauto|]. intros _. repeat split. }
  destruct (hd false (faults w)) eqn:F0.
  { cbn [fst snd].
    rewrite (console_of_failed_call w (answered w)) by now rewrite U.
    split; [split; eauto|]. intros _. repeat split. }
  unfold CompanyJobs.select_company.
  destruct (filter _ (Companies (db w))) as [|c rest] eqn:F.
  { cbn [fst snd]. split.
    - split; [intros [m [=]]|].
      intros [[=]|[[=]|[[c [Hc E]] _]]]. apply Z.eqb_eq in E.
      assert (In c (filter (fun c => c_company_id c =? companyId)
                           (Companies (db w)))) as Hin
        by (apply filter_In; tauto).
      rewrite F in Hin. destruct Hin.
    - intros [m [=]]. }
  assert (exists c, In c (Companies (db w)) /\ c_company_id c = companyId)
    as Hex.
  { exists c.
    assert (In c (filter (fun c => c_company_id c =? companyId)
                         (Companies (db w)))) as Hin
      by (rewrite F; now left).
    apply filter_In in Hin as [Hin E]. apply Z.eqb_eq in E. tauto. }
  rewrite query_next, S.
  destruct (hd false (tl (faults w))) eqn:F1.
  - cbn [fst snd]. rewrite (console_of_failed_later_call w _ _ U).
    split; [split; eauto 6|]. intros _. repeat split.
  - cbn [fst snd]. split.
    + split; [intros [m [=]]|]. intros [[=]|[[=]|[_ [=]]]].
    + intros [m [=]].
Qed.

Lemma company_route_fails_only_with_the_backend_witness :
  fst (CompanyJobs.get_company_jobs None 1 Sample.first_page
         (Sample.first_call true (Sample.two_companies [false; true])))
  = CompanyJobs.Failed "Failed to get company jobs"
  /\ console (snd (CompanyJobs.get_company_jobs None 1 Sample.first_page
                     (Sample.first_call true
                        (Sample.two_companies [false; true]))))
     = ["Connected to SQL Server database"; "Query execution failed:";
        "Get jobs by company error:"].
Proof.
  destruct (company_route_fails_only_with_the_backend None 1
              Sample.first_page
              (Sample.first_call true (Sample.two_companies [false; true]))
              eq_refl) as [Hiff Hthen].
  assert (exists m,
             fst (CompanyJobs.get_company_jobs None 1 Sample.first_page
                    (Sample.first_call true
                       (Sample.two_companies [false; true])))
             = CompanyJobs.Failed m) as Hf.
  { apply Hiff. right. right. split; [|reflexivity].
    exists Sample.acme. split; [now left|reflexivity]. }
  destruct (Hthen Hf) as (Hm & _ & Hc). split; [exact Hm|exact Hc].
Defined.

(** *** [GET /:jobId] *)

Lemma inner_join_In (d : Db) (j : Job) (c : Company) :
  In (j, c) (inner_join d)
  <-> In j (Jobs d) /\ In c (Companies d) /\ company_id j = c_company_id c.
Proof.
  unfold inner_join. rewrite in_flat_map. split.
  - intros (j' & Hj & Hin). apply in_map_iff in Hin as (c' & [= <- <-] & Hc).
    apply filter_In in Hc as [Hc E]. apply Z.eqb_eq in E. tauto.
  - intros (Hj & Hc & E). exists j. split; [exact Hj|].
    apply in_map_iff. exists c. split; [reflexivity|].
    apply filter_In. split; [exact Hc|]. now apply Z.eqb_eq.
Qed.

Lemma is_true_tv_or (a b : tv) :
  is_true (tv_or a b) = is_true a || is_true b.
Proof. now destruct a as [[|]|], b as [[|]|]. Qed.

Lemma alike_spec (now : Z) (found j : Job) (c : Company) :
  is_true (eval_cond now (j, c) (Detail.alike found)) = true
  <-> (exists a b, industry j = Some a /\ industry found = Some b
                   /\ same_text a b = true)
      \/ same_text (job_type j) (job_type found) = true
      \/ same_text (experience_level j) (experience_level found) = true.
Proof.
  unfold Detail.alike. cbn [eval_cond eval_term column_value].
  rewrite !is_true_tv_or, !tv_cmp_text, !is_true_Some, !orb_true_iff.
  assert (is_true (tv_cmp is_eq (nullable VText (industry j))
                                (nullable VText (industry found))) = true
          <-> exists a b, industry j = Some a /\ industry found = Some b
                          /\ same_text a b = true) as ->.
  { destruct (industry j) as [a|], (industry found) as [b|];
      cbn [nullable].
    - rewrite tv_cmp_text, is_true_Some. split; [eauto|].
      now intros (a' & b' & [= <-] & [= <-] & H).
    - split; [discriminate|]. now intros (a' & b' & _ & [=] & _).
    - split; [discriminate|]. now intros (a' & b' & [=] & _).
    - split; [discriminate|]. now intros (a' & b' & [=] & _). }
  tauto.
Qed.

Lemma select_job_rows (user : option User) (jobId : Z) (now : Z) (d : Db)
    (rs : list row) (r : row) :
  Detail.select_job user jobId now d = Some rs ->
  In r rs ->
  In (job r, company r) (inner_join d)
  /\ job_id (job r) = jobId
  /\ same_text (status (job r)) "active" = true.
Proof.
  unfold Detail.select_job. intros [= <-] Hr.
  apply in_map_iff in Hr as ([j c] & <- & Hin).
  cbn [job company fst snd]. apply filter_In in Hin as [Hin E].
  cbn [fst] in E. apply andb_true_iff in E as [E1 E2].
  apply Z.eqb_eq in E1. rewrite is_active_same_text in E2. tauto.
Qed.

Lemma select_job_none (user : option User) (jobId : Z) (now : Z) (d : Db) :
  Detail.select_job user jobId now d = Some []
  <-> forall j c, In (j, c) (inner_join d) -> job_id j = jobId ->
                  same_text (status j) "active" = false.
Proof.
  unfold Detail.select_job. split.
  - intros [= H] j c Hin E.
    destruct (same_text (status j) "active") eqn:A; [|reflexivity].
    apply map_eq_nil in H.
    assert (In (j, c)
              (filter (fun r => (job_id (fst r) =? jobId)
                                && is_active (fst r)) (inner_join d)))
      as Hf.
    { apply filter_In. split; [exact Hin|]. cbn [fst].
      rewrite is_active_same_text, A, andb_true_r. now apply Z.eqb_eq. }
    rewrite H in Hf. destruct Hf.
  - intros H. f_equal.
    destruct (filter (fun r => (job_id (fst r) =? jobId)
                               && is_active (fst r)) (inner_join d))
      as [|[j c] rest] eqn:F; [reflexivity|].
    assert (In (j, c)
              (filter (fun r => (job_id (fst r) =? jobId)
                                && is_active (fst r)) (inner_join d)))
      as Hf by (rewrite F; now left).
    apply filter_In in Hf as [Hin E]. cbn [fst] in E.
    apply andb_true_iff in E as [E1 E2]. apply Z.eqb_eq in E1.
    rewrite is_active_same_text, (H j c Hin E1) in E2. discriminate.
Qed.

(** X25.  [GET /:jobId] answers 404 'Job not found' exactly when no
    listing with that id is both joined to its company and active: a
    closed or draft listing is as absent as one that was never posted.
    The route then stops after its first query: the tables are as
    before, no view is counted, and the console has got nothing but the
    line of [connectDB], and that only when the job query was the first
    query of the process. *)
Theorem inactive_listing_has_no_detail_page (user : option User)
    (t : Detail.SkillTables) (jobId : Z) (w : World) :
  served w ->
  (fst (Detail.get_job user t jobId w) = Detail.NotFound "Job not found"
   <-> forall j c, In j (Jobs (db w)) -> In c (Companies (db w)) ->
                   company_id j = c_company_id c -> job_id j = jobId ->
                   same_text (status j) "active" = false)
  /\ (fst (Detail.get_job user t jobId w) = Detail.NotFound "Job not found"
      -> db (snd (Detail.get_job user t jobId w)) = db w
         /\ faults (snd (Detail.get_job user t jobId w)) = tl (faults w)
         /\ console (snd (Detail.get_job user t jobId w))
            = (console w
               ++ match pool w with
                  | None => ["Connected to SQL Server database"]
                  | Some _ => []
                  end)%list).
Proof.
  intros [Hu Hs].
  assert ((forall j c, In j (Jobs (db w)) -> In c (Companies (db w)) ->
                       company_id j = c_company_id c -> job_id j = jobId ->
                       same_text (status j) "active" = false)
          <-> Detail.select_job user jobId (clock w) (db w) = Some []) as ->.
  { rewrite select_job_none. split.
    - intros H j c Hin. apply inner_join_In in Hin as (Hj & Hc & E). eauto.
    - intros H j c Hj Hc E. apply (H j c). apply inner_join_In. tauto. }
  unfold Detail.get_job. rewrite query_step, Hu, Hs.
  destruct (Detail.select_job user jobId (clock w) (db w)) as [[|r rs]|]
    eqn:S.
  - cbn [fst snd answered db faults console].
    rewrite (getDB_lines_up w Hu). tauto.
  - rewrite query_next.
    destruct (hd false (tl (faults w))).
    + cbn [fst snd]. split; [split|]; discriminate.
    + rewrite query_later.
      destruct (hd false (tl (tl (faults w)))).
      * cbn [fst snd]. split; [split|]; discriminate.
      * unfold Detail.select_similar. cbn [fst snd].
        split; [split|]; discriminate.
  - discriminate S.
Qed.

Lemma inactive_listing_has_no_detail_page_witness :
  fst (Detail.get_job None Sample.skill_tables 5
         (Sample.first_call true (Sample.two_companies [])))
  = Detail.NotFound "Job not found"
  /\ console (snd (Detail.get_job None Sample.skill_tables 5
                     (Sample.first_call true (Sample.two_companies []))))
     = ["Connected to SQL Server database"]
  /\ db (snd (Detail.get_job None Sample.skill_tables 5
                (Sample.first_call true (Sample.two_companies []))))
     = db (Sample.two_companies []).
Proof.
  destruct (inactive_listing_has_no_detail_page None Sample.skill_tables 5
              (Sample.first_call true (Sample.two_companies []))
              (conj eq_refl eq_refl)) as [Hiff Hw].
  assert (fst (Detail.get_job None Sample.skill_tables 5
                 (Sample.first_call true (Sample.two_companies [])))
          = Detail.NotFound "Job not found") as H.
  { apply Hiff. intros j c Hj Hc _ E.
    repeat (destruct Hj as [<-|Hj]; [try discriminate E; reflexivity|]).
    destruct Hj. }
  destruct (Hw H) as (Hd & _ & Hc). split; [exact H|].
  split; [exact Hc|exact Hd].
Defined.

Lemma bool_compare_ranking : Ranking Bool.compare.
Proof.
  split.
  - now intros [|] [|].
  - now intros [|] [|] [|].
  - now intros [|] [|] [|].
Qed.

Lemma required_first_ranking : Ranking Detail.required_first.
Proof.
  apply (ranking_then
           (fun a b => directed DESC
                         (Bool.compare (Detail.is_required (fst a))
                                       (Detail.is_required (fst b))))
           (fun a b => directed ASC
                         (vcmp (VText (Skills.skill_name (snd a)))
                               (VText (Skills.skill_name (snd b)))))).
  - apply (ranking_on Bool.compare bool_compare_ranking
             (fun a => Detail.is_required (fst a)) DESC).
  - apply (ranking_on vcmp vcmp_ranking
             (fun a => VText (Skills.skill_name (snd a))) ASC).
Qed.

Lemma required_first_not_after (a b : Detail.JobSkill * Skills.Skill) :
  not_after Detail.required_first a b ->
  Detail.is_required (fst b) = true -> Detail.is_required (fst a) = true.
Proof.
  unfold not_after, Detail.required_first.
  destruct (Detail.is_required (fst a)), (Detail.is_required (fst b));
    simpl; congruence.
Qed.

Lemma posted_desc_not_after (now : Z) (a b : joined) :
  not_after (cmp_keys now [(By (Col j_posted_date), DESC)]) a b
  <-> posted_date (fst b) <= posted_date (fst a).
Proof.
  destruct a as [ja ca], b as [jb cb].
  unfold not_after.
  cbn [cmp_keys eval_order eval_term column_value directed fst].
  rewrite vcmp_num.
  destruct (Z.compare_spec (posted_date ja) (posted_date jb)); simpl.
  - split; [lia|discriminate].
  - split; [congruence|intros H'; exfalso; lia].
  - split; [lia|discriminate].
Qed.

Lemma Some_eq {A : Type} (a b : A) : Some a = Some b -> a = b.
Proof. congruence. Qed.

Lemma get_job_shown (user : option User) (t : Detail.SkillTables)
    (jobId : Z) (w w' : World) (found : row)
    (skills : list (Detail.JobSkill * Skills.Skill))
    (similar : list joined) :
  Detail.get_job user t jobId w = (Detail.Shown found skills similar, w') ->
  (exists rest,
      Detail.select_job user jobId (clock w) (db w) = Some (found :: rest))
  /\ skills = Detail.select_job_skills t jobId
  /\ Detail.select_similar (job found) jobId (clock w) (db w) = Some similar
  /\ w' = Detail.count_view jobId
            (with_faults (tl (tl (tl (faults w)))) (answered w))
  /\ up w = true.
Proof.
  unfold Detail.get_job. rewrite query_step.
  destruct (up w); [|discriminate].
  destruct (hd false (faults w)); [discriminate|].
  destruct (Detail.select_job user jobId (clock w) (db w)) as [[|r rs]|]
    eqn:S; try discriminate.
  rewrite query_next.
  destruct (hd false (tl (faults w))); [discriminate|].
  rewrite query_later.
  destruct (hd false (tl (tl (faults w)))); [discriminate|].
  destruct (Detail.select_similar (job r) jobId (clock w) (db w))
    as [sim|] eqn:M; [|discriminate].
  intros [= <- <- <- <-]. repeat split; eauto.
Qed.

(** X26.  What [GET /:jobId] returns with a 200.  The job is an active
    listing with the requested id, joined to its company.  Its skills are
    the rows of [JobSkills] for that id, each joined to its row of
    [Skills], required ones first.  The similar jobs are at most five,
    latest first; each is an active listing other than the one shown that
    has its industry, its job type or its experience level, compared
    under the collation -- a listing without an industry is never similar
    by industry. *)
Theorem detail_shows_the_job_its_skills_and_similar_jobs
    (user : option User) (t : Detail.SkillTables) (jobId : Z)
    (w w' : World) (found : row)
    (skills : list (Detail.JobSkill * Skills.Skill))
    (similar : list joined) :
  Detail.get_job user t jobId w = (Detail.Shown found skills similar, w') ->
  (In (job found, company found) (inner_join (db w))
   /\ job_id (job found) = jobId
   /\ same_text (status (job found)) "active" = true)
  /\ (forall js s,
         In (js, s) skills
         <-> In js (Detail.JobSkills t) /\ In s (Detail.AllSkills t)
             /\ Detail.js_job_id js = jobId
             /\ Detail.js_skill_id js = Skills.skill_id s)
  /\ StronglySorted
       (fun a b => Detail.is_required (fst b) = true ->
                   Detail.is_required (fst a) = true) skills
  /\ (List.length similar <= 5)%nat
  /\ (forall j c,
         In (j, c) similar ->
         In (j, c) (inner_join (db w))
         /\ job_id j <> jobId
         /\ same_text (status j) "active" = true
         /\ ((exists a b, industry j = Some a
                          /\ industry (job found) = Some b
                          /\ same_text a b = true)
             \/ same_text (job_type j) (job_type (job found)) = true
             \/ same_text (experience_level j)
                          (experience_level (job found)) = true))
  /\ StronglySorted
       (fun a b => posted_date (fst b) <= posted_date (fst a)) similar.
Proof.
  intros H. apply get_job_shown in H as ([rest S] & -> & M & _ & _).
  split; [|split; [|split; [|split; [|split]]]].
  - apply (select_job_rows user jobId (clock w) (db w) _ found S).
    now left.
  - intros js s. unfold Detail.select_job_skills.
    rewrite sort_In, in_flat_map. split.
    + intros (js' & Hjs & Hin).
      apply in_map_iff in Hin as (s' & [= <- <-] & Hs).
      apply filter_In in Hjs as [Hjs E1]. apply filter_In in Hs as [Hs E2].
      apply Z.eqb_eq in E1, E2. tauto.
    + intros (Hjs & Hs & E1 & E2). exists js. split.
      * apply filter_In. split; [exact Hjs|]. now apply Z.eqb_eq.
      * apply in_map_iff. exists s. split; [reflexivity|].
        apply filter_In. split; [exact Hs|]. now apply Z.eqb_eq.
  - apply StronglySorted_impl with (R := not_after Detail.required_first).
    + apply required_first_not_after.
    + apply Sorted_StronglySorted.
      * intros a b c. apply not_after_trans, required_first_ranking.
      * apply sort_Sorted. apply (@rank_flip _ _ required_first_ranking).
  - unfold Detail.select_similar in M. apply Some_eq in M.
    subst similar.
    rewrite length_firstn. lia.
  - intros j c Hin. unfold Detail.select_similar in M. apply Some_eq in M.
    subst similar.
    apply In_firstn in Hin. apply sort_In in Hin.
    apply filter_In in Hin as [Hin E]. cbn [fst] in E.
    apply andb_true_iff in E as [E1 E2].
    apply negb_true_iff, Z.eqb_neq in E1.
    rewrite matches_forallb in E2. cbn [forallb] in E2.
    rewrite andb_true_r in E2. apply andb_true_iff in E2 as [E2 E3].
    apply (status_active_spec (clock w) (j, c)) in E2.
    apply alike_spec in E3.
    repeat split; try assumption.
    unfold same_text. cbn [fst] in E2. rewrite E2. reflexivity.
  - unfold Detail.select_similar in M. apply Some_eq in M.
    subst similar.
    apply StronglySorted_impl
      with (R := not_after (cmp_keys (clock w)
                              [(By (Col j_posted_date), DESC)])).
    + intros a b. apply posted_desc_not_after.
    + apply Sorted_StronglySorted.
      * intros a b c. apply not_after_trans, cmp_keys_ranking.
      * apply Sorted_firstn, sort_Sorted.
        apply (@rank_flip _ _ (cmp_keys_ranking (clock w) _)).
Qed.

Lemma detail_shows_the_job_its_skills_and_similar_jobs_witness :
  exists found skills similar w',
    Detail.get_job None Sample.skill_tables 1 (Sample.two_companies [])
    = (Detail.Shown found skills similar, w')
    /\ map (fun p => Skills.skill_name (snd p)) skills = ["SQL"; "Python"]
    /\ map (fun r => job_id (fst r)) similar = [4; 2; 3]
    /\ (List.length similar <= 5)%nat.
Proof.
  eexists _, _, _, _. split; [reflexivity|].
  split; [reflexivity|]. split; [reflexivity|].
  eapply (detail_shows_the_job_its_skills_and_similar_jobs None
            Sample.skill_tables 1 (Sample.two_companies [])).
  reflexivity.
Defined.

(** [GET /:jobId] by the calls the backend serves. *)
Lemma get_job_cases (user : option User) (t : Detail.SkillTables)
    (jobId : Z) (w : World) :
  Detail.get_job user t jobId w
  = let failed (w1 : World) :=
      (Detail.Failed "Failed to get job details",
       log "Get job details error:" (log "Query execution failed:" w1)) in
    if up w then
      if hd false (faults w) then failed (answered w)
      else
        match filter (fun r => (job_id (fst r) =? jobId)
                               && is_active (fst r))
                     (inner_join (db w)) with
        | [] => (Detail.NotFound "Job not found", answered w)
        | r :: _ =>
            if hd false (tl (faults w))
            then failed (with_faults (tl (tl (faults w))) (answered w))
            else if hd false (tl (tl (faults w)))
            then failed (with_faults (tl (tl (tl (faults w)))) (answered w))
            else
              match Detail.select_job user jobId (clock w) (db w),
                    Detail.select_similar (fst r) jobId (clock w) (db w) with
              | Some (found :: _), Some similar =>
                  (Detail.Shown found (Detail.select_job_skills t jobId)
                     similar,
                   Detail.count_view jobId
                     (with_faults (tl (tl (tl (faults w)))) (answered w)))
              | _, _ => failed (answered w)
              end
        end
    else failed (opened w).
Proof.
  unfold Detail.get_job. rewrite query_step.
  destruct (up w); [|reflexivity].
  destruct (hd false (faults w)); [reflexivity|].
  unfold Detail.select_job.
  destruct (filter (fun r => (job_id (fst r) =? jobId) && is_active (fst r))
                   (inner_join (db w))) as [|r rs]; [reflexivity|].
  cbn [map]. rewrite query_next.
  destruct (hd false (tl (faults w))); [reflexivity|].
  rewrite query_later. cbn [job].
  destruct (hd false (tl (tl (faults w)))); reflexivity.
Qed.




(** X28.  [GET /:jobId] is answered 500 only when the backend fails one
    of its first three calls: the pool does not come, the job query
    throws, or -- once an active listing with the id was found -- the
    skills query or the similar-jobs query throws.  The answer then
    carries the fixed message, no view is counted and the tables are as
    before.  The console gets what [getDB] wrote for the first call
    (nothing on a connected pool, the line of [connectDB] on a first call
    that connects, the lines of [connectDB] and [getDB] on one that does
    not, the line of [getDB] on a pool refused earlier), then the line of
    [executeQuery] and 'Get job details error:'. *)
Theorem detail_fails_only_with_the_backend (user : option User)
    (t : Detail.SkillTables) (jobId : Z) (w : World) :
  ((exists m, fst (Detail.get_job user t jobId w) = Detail.Failed m)
   <-> up w = false
       \/ hd false (faults w) = true
       \/ ((exists j c, In (j, c) (inner_join (db w)) /\ job_id j = jobId
                        /\ same_text (status j) "active" = true)
           /\ (hd false (tl (faults w)) = true
               \/ hd false (tl (tl (faults w))) = true)))
  /\ ((exists m, fst (Detail.get_job user t jobId w) = Detail.Failed m) ->
      fst (Detail.get_job user t jobId w)
      = Detail.Failed "Failed to get job details"
      /\ db (snd (Detail.get_job user t jobId w)) = db w
      /\ console (snd (Detail.get_job user t jobId w))
         = (console w
            ++ match pool w with
               | Some (Resolved _) => []
               | Some Rejected => ["Failed to get database connection:"]
               | None =>
                   if reachable w
                   then ["Connected to SQL Server database"]
                   else ["Database connection failed:";
                         "Failed to get database connection:"]
               end
            ++ ["Query execution failed:"; "Get job details error:"])%list).
Proof.
  rewrite get_job_cases. cbv zeta.
  destruct (up w) eqn:U.
  2:{ cbn [fst snd].
      rewrite (console_of_failed_call w (opened w)) by now rewrite U.
      split; [split; eauto|]. intros _. repeat split. }
  destruct (hd false (faults w)) eqn:F0.
  { cbn [fst snd].
    rewrite (console_of_failed_call w (answered w)) by now rewrite U.
    split; [split; eauto|]. intros _. repeat split. }
  unfold Detail.select_job, Detail.select_similar.
  destruct (filter (fun r => (job_id (fst r) =? jobId) && is_active (fst r))
                   (inner_join (db w))) as [|[j c] rs] eqn:F.
  { cbn [fst snd]. split.
    - split; [intros [m [=]]|].
      intros [[=]|[[=]|[(j & c & Hin & E & A) _]]].
      assert (In (j, c)
                (filter (fun r => (job_id (fst r) =? jobId)
                                  && is_active (fst r)) (inner_join (db w))))
        as Hf.
      { apply filter_In. split; [exact Hin|]. cbn [fst].
        rewrite is_active_same_text, A, andb_true_r. now apply Z.eqb_eq. }
      rewrite F in Hf. destruct Hf.
    - intros [m [=]]. }
  assert (exists j c, In (j, c) (inner_join (db w)) /\ job_id j = jobId
                      /\ same_text (status j) "active" = true) as Hex.
  { exists j, c.
    assert (In (j, c)
              (filter (fun r => (job_id (fst r) =? jobId)
                                && is_active (fst r)) (inner_join (db w))))
      as Hf by (rewrite F; now left).
    apply filter_In in Hf as [Hin E]. cbn [fst] in E.
    apply andb_true_iff in E as [E1 E2]. apply Z.eqb_eq in E1.
    rewrite is_active_same_text in E2. tauto. }
  cbn [map].
  destruct (hd false (tl (faults w))) eqn:F1.
  { cbn [fst snd]. rewrite (console_of_failed_later_call w _ _ U).
    split; [split; eauto 6|]. intros _. repeat split. }
  destruct (hd false (tl (tl (faults w)))) eqn:F2.
  { cbn [fst snd]. rewrite (console_of_failed_later_call w _ _ U).
    split; [split; eauto 6|]. intros _. repeat split. }
  cbn [fst snd]. split.
  - split; [intros [m [=]]|]. intros [[=]|[[=]|[_ [[=]|[=]]]]].
  - intros [m [=]].
Qed.

Lemma detail_fails_only_with_the_backend_witness :
  fst (Detail.get_job None Sample.skill_tables 1
         (Sample.refused (Sample.two_companies [])))
  = Detail.Failed "Failed to get job details"
  /\ console (snd (Detail.get_job None Sample.skill_tables 1
                     (Sample.refused (Sample.two_companies []))))
     = ["Failed to get database connection:"; "Query execution failed:";
        "Get job details error:"]
  /\ console (snd (Detail.get_job None Sample.skill_tables 1
                     (Sample.first_call true
                        (Sample.two_companies [false; false; true]))))
     = ["Connected to SQL Server database"; "Query execution failed:";
        "Get job details error:"].
Proof.
  destruct (detail_fails_only_with_the_backend None Sample.skill_tables 1
              (Sample.refused (Sample.two_companies []))) as [Hiff Hthen].
  destruct (Hthen (proj2 Hiff (or_introl eq_refl))) as (Hm & _ & Hc).
  split; [exact Hm|]. split; [exact Hc|].
  destruct (detail_fails_only_with_the_backend None Sample.skill_tables 1
              (Sample.first_call true
                 (Sample.two_companies [false; false; true])))
    as [Hiff' Hthen'].
  assert (exists m,
             fst (Detail.get_job None Sample.skill_tables 1
                    (Sample.first_call true
                       (Sample.two_companies [false; false; true])))
             = Detail.Failed m) as Hf.
  { apply Hiff'. right. right. split; [|right; reflexivity].
    exists Sample.engineer, Sample.acme.
    split; [now left|]. split; reflexivity. }
  now destruct (Hthen' Hf) as (_ & _ & ->).
Defined.

(** X29.  The answer of [GET /:jobId] does not depend on the view-count
    update: two runs against the same tables and clock, with the pool
    there in both or in neither, whose first three requests fare alike
    give the same response, whatever happens to the fourth call and
    whatever the console held. *)
Theorem detail_answer_ignores_the_view_count_update (user : option User)
    (t : Detail.SkillTables) (jobId : Z) (w1 w2 : World) :
  db w1 = db w2 ->
  clock w1 = clock w2 ->
  up w1 = up w2 ->
  hd false (faults w1) = hd false (faults w2) ->
  hd false (tl (faults w1)) = hd false (tl (faults w2)) ->
  hd false (tl (tl (faults w1))) = hd false (tl (tl (faults w2))) ->
  fst (Detail.get_job user t jobId w1) = fst (Detail.get_job user t jobId w2).
Proof.
  intros Hd Hc Hu H0 H1 H2. rewrite !get_job_cases. cbv zeta.
  rewrite Hd, Hc, Hu, H0, H1, H2.
  destruct (up w2); [|reflexivity].
  destruct (hd false (faults w2)); [reflexivity|].
  destruct (filter (fun r => (job_id (fst r) =? jobId) && is_active (fst r))
                   (inner_join (db w2))) as [|r rs]; [reflexivity|].
  destruct (hd false (tl (faults w2))); [reflexivity|].
  destruct (hd false (tl (tl (faults w2)))); [reflexivity|].
  destruct (Detail.select_job user jobId (clock w2) (db w2)) as [[|f fs]|];
    reflexivity.
Qed.

Lemma detail_answer_ignores_the_view_count_update_witness :
  fst (Detail.get_job None Sample.skill_tables 1
         (Sample.two_companies [false; false; false; true]))
  = fst (Detail.get_job None Sample.skill_tables 1 (Sample.two_companies [])).
Proof.
  apply (detail_answer_ignores_the_view_count_update None
           Sample.skill_tables 1
           (Sample.two_companies [false; false; false; true])
           (Sample.two_companies []));
    reflexivity.
Defined.

(** ** A view-count update that fails *)

Lemma executeQuery_with_faults (q : statement) (w : World) (f : bool)
    (fs : list bool) :
  executeQuery q (with_faults (f :: fs) w)
  = if up w then
      if f
      then (Rejected,
            log "Query execution failed:" (with_faults fs (answered w)))
      else
        match q with
        | Select s =>
            match run_select (clock w) (db w) s with
            | Some recordset =>
                (Resolved recordset, with_faults fs (answered w))
            | None =>
                (Rejected,
                 log "Query execution failed:" (with_faults fs (answered w)))
            end
        | UpdateViews ids =>
            (Resolved [],
             with_db (run_update ids (db w)) (with_faults fs (answered w)))
        end
    else (Rejected,
          log "Query execution failed:" (opened (with_faults (f :: fs) w))).
Proof. rewrite executeQuery_step. reflexivity. Qed.

(** C10.  On both routes that count views, take a request whose queries
    the backend serves and let the view-count update that follows them
    fail in one run and succeed in the other.  The two responses are the
    same response (for a valid listing request with the pool there, 200
    in both).  When there was something to count -- a listing page with
    rows, a detail page that is shown -- the failing run leaves the tables
    untouched and writes the line of [executeQuery] and the line of the
    route's [catch] to the console, where the other run bumps the
    counters and writes nothing; before that the console has got nothing
    but the line of [connectDB], and that only when the request's first
    query was the first of the process. *)
Theorem view_count_failure_never_surfaces (user : option User)
    (w : World) (rest : list bool) :
  let greeting :=
    match pool w with
    | None => ["Connected to SQL Server database"]
    | Some _ => []
    end in
  (forall q,
      let ok := with_faults (false :: false :: rest) w in
      let ko := with_faults (false :: true :: rest) w in
      fst (get_jobs user q ko) = fst (get_jobs user q ok)
      /\ (validate_list q = [] -> up w = true ->
          http_status (fst (get_jobs user q ko)) = 200
          /\ http_status (fst (get_jobs user q ok)) = 200)
      /\ (forall js,
            jobs_of (fst (get_jobs user q ko)) = Some js -> js <> [] ->
            console (snd (get_jobs user q ko))
            = (console w ++ greeting
               ++ ["Query execution failed:";
                   "Failed to update view counts:"])%list
            /\ db (snd (get_jobs user q ko)) = db w
            /\ console (snd (get_jobs user q ok))
               = (console w ++ greeting)%list
            /\ db (snd (get_jobs user q ok))
               = run_update (map (fun r => job_id (job r)) js) (db w)))
  /\ (forall t jobId,
        let ok := with_faults (false :: false :: false :: false :: rest) w in
        let ko := with_faults (false :: false :: false :: true :: rest) w in
        fst (Detail.get_job user t jobId ko)
        = fst (Detail.get_job user t jobId ok)
        /\ (forall found skills similar,
              fst (Detail.get_job user t jobId ko)
              = Detail.Shown found skills similar ->
              console (snd (Detail.get_job user t jobId ko))
              = (console w ++ greeting
                 ++ ["Query execution failed:";
                     "Failed to update view count:"])%list
              /\ db (snd (Detail.get_job user t jobId ko)) = db w
              /\ console (snd (Detail.get_job user t jobId ok))
                 = (console w ++ greeting)%list
              /\ db (snd (Detail.get_job user t jobId ok))
                 = run_update [jobId] (db w))).
Proof.
  intros greeting. split.
  - intros q ok ko. subst ok ko. unfold get_jobs.
    destruct (validate_list q) as [|e es] eqn:Hv.
    + rewrite !executeQuery_with_faults.
      destruct (up w) eqn:Hu.
      * destruct (list_statement_runs user q (clock w) (db w) Hv)
          as [rs Hrun].
        rewrite Hrun. cbn [fst snd]. split; [reflexivity|].
        split; [now split|].
        intros js [= <-] Hne. destruct rs as [|r rs]; [congruence|].
        unfold update_views. rewrite !update_later.
        cbn [hd tl log with_db with_faults answered db console].
        subst greeting. rewrite (getDB_lines_up w Hu), <- !app_assoc.
        repeat split.
      * cbn [fst snd]. split; [reflexivity|].
        split; [discriminate|]. intros js [=].
    + cbn [fst snd]. split; [reflexivity|]. split; [discriminate|].
      intros js [=].
  - intros t jobId ok ko. subst ok ko. rewrite !get_job_cases. cbv zeta.
    change (up (with_faults _ w)) with (up w).
    cbn [with_faults faults db clock hd tl].
    destruct (up w) eqn:Hu; [|split; [reflexivity|intros ? ? ? [=]]].
    destruct (filter (fun r => (job_id (fst r) =? jobId)
                               && is_active (fst r)) (inner_join (db w)))
      as [|r rs]; [split; [reflexivity|intros ? ? ? [=]]|].
    destruct (Detail.select_job user jobId (clock w) (db w)) as [[|f fs]|];
      [split; [reflexivity|intros ? ? ? [=]]
      | |split; [reflexivity|intros ? ? ? [=]]].
    unfold Detail.select_similar. cbn [fst snd].
    split; [reflexivity|]. intros found skills similar _.
    change (answered (with_faults ?fs w)) with (with_faults (tl fs) (answered w)).
    unfold Detail.count_view. rewrite !executeQuery_step.
    cbn [up hd tl log with_db with_faults answered faults pool db console
         getDB_lines].
    subst greeting. rewrite (getDB_lines_up w Hu), !app_nil_r, <- !app_assoc.
    repeat split.
Qed.

Lemma view_count_failure_never_surfaces_witness :
  fst (get_jobs None Sample.any_query
         (Sample.world [Sample.engineer] [false; true]))
  = fst (get_jobs None Sample.any_query
           (Sample.world [Sample.engineer] [false; false]))
  /\ http_status (fst (get_jobs None Sample.any_query
                         (Sample.world [Sample.engineer] [false; true])))
     = 200
  /\ console (snd (get_jobs None Sample.any_query
                     (Sample.world [Sample.engineer] [false; true])))
     = ["Query execution failed:"; "Failed to update view counts:"]
  /\ map views_count
       (Jobs (db (snd (get_jobs None Sample.any_query
                         (Sample.world [Sample.engineer] [false; true])))))
     = [100]
  /\ map views_count
       (Jobs (db (snd (get_jobs None Sample.any_query
                         (Sample.world [Sample.engineer] [false; false])))))
     = [101]
  /\ fst (Detail.get_job None Sample.skill_tables 1
            (Sample.two_companies [false; false; false; true]))
     = fst (Detail.get_job None Sample.skill_tables 1
              (Sample.two_companies [false; false; false; false]))
  /\ console (snd (Detail.get_job None Sample.skill_tables 1
                     (Sample.two_companies [false; false; false; true])))
     = ["Query execution failed:"; "Failed to update view count:"].
Proof.
  destruct (view_count_failure_never_surfaces None
              (Sample.world [Sample.engineer] []) []) as [Hlist _].
  destruct (Hlist Sample.any_query) as (Hsame & Hstatus & Hrows).
  split; [exact Hsame|].
  split; [exact (proj1 (Hstatus eq_refl eq_refl))|].
  destruct (Hrows _ eq_refl) as (Hlog & _); [discriminate|].
  split; [exact Hlog|]. split; [reflexivity|]. split; [reflexivity|].
  destruct (view_count_failure_never_surfaces None
              (Sample.two_companies []) []) as [_ Hdetail].
  destruct (Hdetail Sample.skill_tables 1) as [Hsame' Hshown].
  split; [exact Hsame'|].
  destruct (Hshown _ _ _ eq_refl) as (Hc & _). exact Hc.
Defined.
